(** * BoTNet (PaddleViT): relative position attention and configuration

    A shallow embedding of [image_classification/BoTNet/botnet.py] and
    [image_classification/BoTNet/config.py].

    Tensors are kept as the framework keeps them: a shape and the elements in
    row-major order, so that [paddle.reshape] only replaces the shape.  The
    element type is abstract: every function of [botnet.py] modelled here only
    moves elements around, or combines them through the framework's numeric
    kernels, which are taken as parameters. *)

From Stdlib Require Import String Ascii ZArith Bool Arith Lia List.
Import ListNotations.

Set Implicit Arguments.
#[local] Set Warnings "-register-all".

(** ** Failure of a framework call *)

Notation "x <- e ;; k" :=
  (match e with Some x => k | None => None end)
  (at level 61, e at next level, right associativity, only parsing).

Notation "' ( x , y ) <- e ;; k" :=
  (match e with Some (x, y) => k | None => None end)
  (at level 61, x name, y name, e at next level, right associativity, only parsing).

(** * Part I: the program *)

(** ** Row-major tensors *)

Definition numel (s : list nat) : nat := fold_right Nat.mul 1 s.

(** Offset of a multi-index in a row-major array of shape [s]. *)
Fixpoint ravel (s idx : list nat) : nat :=
  match s, idx with
  | _ :: s', i :: idx' => i * numel s' + ravel s' idx'
  | _, _ => 0
  end.

(** The multi-index of an offset. *)
Fixpoint unravel (s : list nat) (k : nat) : list nat :=
  match s with
  | [] => []
  | _ :: s' => (k / numel s') :: unravel s' (k mod numel s')
  end.

Definition in_bounds (s idx : list nat) : Prop := Forall2 lt idx s.

Fixpoint set_nth (k v : nat) (l : list nat) : list nat :=
  match l, k with
  | [], _ => []
  | _ :: l', 0 => v :: l'
  | x :: l', S k' => x :: set_nth k' v l'
  end.

Definition same_except (axis : nat) (s1 s2 : list nat) : bool :=
  (length s1 =? length s2) &&
  forallb (fun k => (k =? axis) || (nth k s1 0 =? nth k s2 0)) (seq 0 (length s1)).

Fixpoint index_of (a : nat) (l : list nat) : nat :=
  match l with
  | [] => 0
  | x :: l' => if x =? a then 0 else S (index_of a l')
  end.

Fixpoint list_eqb (l1 l2 : list nat) : bool :=
  match l1, l2 with
  | [], [] => true
  | x :: l1', y :: l2' => (x =? y) && list_eqb l1' l2'
  | _, _ => false
  end.

(** One entry of a Python subscript: [start:stop] with either end optional. *)
Definition pyslice : Type := option nat * option nat.

Definition full : pyslice := (None, None).
Definition upto (stop : nat) : pyslice := (None, Some stop).
Definition from (start : nat) : pyslice := (Some start, None).

(** Start and length of a slice of an axis of extent [d]; both ends are
    clamped to the extent, as Python does. *)
Definition slice_dim (r : pyslice) (d : nat) : nat * nat :=
  let start := Nat.min (match fst r with Some a => a | None => 0 end) d in
  let stop := Nat.min (match snd r with Some b => b | None => d end) d in
  (start, stop - start).

Section Tensor.

Variable T : Type.
Variable zero : T.

Record tensor : Type := mkTensor { shape : list nat; data : list T }.

Definition wf (t : tensor) : Prop := length (data t) = numel (shape t).

Definition get (t : tensor) (idx : list nat) : T :=
  nth (ravel (shape t) idx) (data t) zero.

Definition tabulate (s : list nat) (f : list nat -> T) : tensor :=
  mkTensor s (map (fun k => f (unravel s k)) (seq 0 (numel s))).

(** [paddle.zeros(shape)] *)
Definition zeros (s : list nat) : tensor := mkTensor s (repeat zero (numel s)).

(** [paddle.reshape(t, s)] with every extent given: the element count must
    agree, the elements stay where they are. *)
Definition reshape (t : tensor) (s : list nat) : option tensor :=
  if numel s =? numel (shape t) then Some (mkTensor s (data t)) else None.

(** [paddle.reshape(t, [-1] + rest)]: the leading extent is inferred. *)
Definition reshape_infer (t : tensor) (rest : list nat) : option tensor :=
  let p := numel rest in
  if (p =? 0) || negb (numel (shape t) mod p =? 0) then None
  else Some (mkTensor (numel (shape t) / p :: rest) (data t)).

(** [paddle.concat([a, b], axis)] *)
Definition concat (a b : tensor) (axis : nat) : option tensor :=
  if (axis <? length (shape a)) && same_except axis (shape a) (shape b) then
    let na := nth axis (shape a) 0 in
    let nb := nth axis (shape b) 0 in
    Some (tabulate (set_nth axis (na + nb) (shape a))
            (fun idx =>
               let j := nth axis idx 0 in
               if j <? na then get a idx else get b (set_nth axis (j - na) idx)))
  else None.

(** [t[r0, r1, ...]] with slices only; missing trailing entries are [:]. *)
Definition slice (t : tensor) (rs : list pyslice) : option tensor :=
  let rank := length (shape t) in
  if length rs <=? rank then
    let sl := map (fun rd => slice_dim (fst rd) (snd rd))
                  (combine (rs ++ repeat full (rank - length rs)) (shape t)) in
    Some (tabulate (map snd sl)
            (fun idx => get t (map (fun p => fst p + snd p) (combine idx (map fst sl)))))
  else None.

(** [paddle.transpose(t, perm)]: axis [k] of the result is axis
    [nth k perm] of [t]. *)
Definition permute (t : tensor) (perm : list nat) : option tensor :=
  let s := shape t in
  if (length perm =? length s) &&
     forallb (fun a => existsb (Nat.eqb a) perm) (seq 0 (length s)) then
    Some (tabulate (map (fun p => nth p s 0) perm)
            (fun idx => get t (map (fun a => nth (index_of a perm) idx 0)
                                   (seq 0 (length s)))))
  else None.

(** [t.unsqueeze(axis)] *)
Definition unsqueeze (t : tensor) (axis : nat) : option tensor :=
  if axis <=? length (shape t) then
    Some (mkTensor (firstn axis (shape t) ++ 1 :: skipn axis (shape t)) (data t))
  else None.

(** The elements [t[pre, 0], ..., t[pre, n-1]] along the last axis. *)
Definition vec (t : tensor) (pre : list nat) (n : nat) : list T :=
  map (fun k => get t (pre ++ [k])) (seq 0 n).

(** ** botnet.py *)

(** [expand_dim], lines 23-30. *)
Definition expand_dim (t : tensor) (dim k : nat) : option tensor :=
  t <- unsqueeze t dim ;;
  (* expand_shape is -1 everywhere but at [dim] *)
  Some (tabulate (set_nth dim k (shape t))
          (fun idx => get t (set_nth dim 0 idx))).

(** [rel_to_abs], lines 32-47. *)
Definition rel_to_abs (x : tensor) : option tensor :=
  match shape x with
  | [B; Nh; L; _] =>
      let col_pad := zeros [B; Nh; L; 1] in
      x <- concat x col_pad 3 ;;
      flat_x <- reshape x [B; Nh; L * 2 * L] ;;
      (* paddle.zeros rejects the extent L - 1 = -1 *)
      if L =? 0 then None else
      let flat_pad := zeros [B; Nh; L - 1] in
      flat_x <- concat flat_x flat_pad 2 ;;
      final_x <- reshape flat_x [B; Nh; L + 1; 2 * L - 1] ;;
      slice final_x [full; full; upto L; from (L - 1)]
  | _ => None
  end.

(** The numeric kernels of the framework.  [contract u v] is the sum of
    products an [einsum] forms from two vectors, [softmax_row] the
    normalisation of one row, [rsqrt n] the Python float [n ** -0.5]. *)
Variable add mul : T -> T -> T.
Variable contract : list T -> list T -> T.
Variable softmax_row : list T -> list T.
Variable rsqrt : nat -> T.

(** [a + b] for tensors of one shape (the only case this code reaches). *)
Definition tensor_add (a b : tensor) : option tensor :=
  if list_eqb (shape a) (shape b) then
    Some (mkTensor (shape a)
            (map (fun p => add (fst p) (snd p)) (combine (data a) (data b))))
  else None.

(** [t * c] for a scalar [c]. *)
Definition tensor_scale (t : tensor) (c : T) : tensor :=
  mkTensor (shape t) (map (fun v => mul v c) (data t)).

(** [nn.Softmax(axis=-1)] *)
Definition softmax (t : tensor) : tensor :=
  let n := last (shape t) 0 in
  tabulate (shape t)
    (fun idx => nth (last idx 0) (softmax_row (vec t (removelast idx) n)) zero).

(** [einsum("b n h w d, m d -> b n h w m", q, rel_k)].  The two extents
    of [d] must agree or one of them be 1: the kernel then gets the one
    element on that side and the vector on the other. *)
Definition einsum_bnhwd_md (q rel_k : tensor) : option tensor :=
  match shape q, shape rel_k with
  | [b; n; h; w; d], [m; d'] =>
      if (d =? d') || (d =? 1) || (d' =? 1) then
        Some (tabulate [b; n; h; w; m]
                (fun idx => contract (vec q (firstn 4 idx) d)
                                     (vec rel_k (skipn 4 idx) d')))
      else None
  | _, _ => None
  end.

(** [einsum("b h x d, b h y d -> b h x y", q, k)]; in [MHSA.forward] the
    two operands are cut from one convolution and agree in [b], [h] and
    [d]. *)
Definition einsum_bhxd_bhyd (q k : tensor) : option tensor :=
  match shape q, shape k with
  | [b; h; x; d], [b'; h'; y; d'] =>
      if (b =? b') && (h =? h') && (d =? d') then
        Some (tabulate [b; h; x; y]
                (fun idx => contract (vec q (firstn 3 idx) d)
                                     (vec k (firstn 2 idx ++ skipn 3 idx) d)))
      else None
  | _, _ => None
  end.

(** [einsum("b h x y, b h y d -> b h x d", weights, v)]; in [MHSA.forward]
    the two operands come from one feature map and agree in [b], [h] and
    [y]. *)
Definition einsum_bhxy_bhyd (w v : tensor) : option tensor :=
  match shape w, shape v with
  | [b; h; x; y], [b'; h'; y'; d] =>
      if (b =? b') && (h =? h') && (y =? y') then
        Some (tabulate [b; h; x; d]
                (fun idx => contract (vec w (firstn 3 idx) y)
                              (map (fun j => get v (firstn 2 idx ++ j :: skipn 3 idx))
                                   (seq 0 y))))
      else None
  | _, _ => None
  end.

(** The [einops.rearrange] patterns of the file. *)

(** ["b h (x y) d -> b h x y d"] with [x] and [y] given *)
Definition rearrange_split_xy (t : tensor) (x y : nat) : option tensor :=
  match shape t with
  | [b; h; n; d] => if n =? x * y then reshape t [b; h; x; y; d] else None
  | _ => None
  end.

(** ["b h x i y j -> b h (x y) (i j)"] *)
Definition rearrange_xy_ij (t : tensor) : option tensor :=
  match shape t with
  | [b; h; x; i; y; j] =>
      t <- permute t [0; 1; 2; 4; 3; 5] ;;
      reshape t [b; h; x * y; i * j]
  | _ => None
  end.

(** ["b h x y d -> b h y x d"] *)
Definition rearrange_swap_xy (t : tensor) : option tensor :=
  match shape t with
  | [_; _; _; _; _] => permute t [0; 1; 3; 2; 4]
  | _ => None
  end.

(** ["b h x i y j -> b h (y x) (j i)"] *)
Definition rearrange_yx_ji (t : tensor) : option tensor :=
  match shape t with
  | [b; h; x; i; y; j] =>
      t <- permute t [0; 1; 4; 2; 5; 3] ;;
      reshape t [b; h; y * x; j * i]
  | _ => None
  end.

(** ["B (h d) H W -> B h (H W) d"] with [h] given *)
Definition rearrange_split_heads (t : tensor) (h : nat) : option tensor :=
  match shape t with
  | [B; C; H; W] =>
      if (h =? 0) || negb (C mod h =? 0) then None else
      let d := C / h in
      t <- reshape t [B; h; d; H; W] ;;
      t <- permute t [0; 1; 3; 4; 2] ;;
      reshape t [B; h; H * W; d]
  | _ => None
  end.

(** ["B h (H W) d -> B (h d) H W"] with [H] given *)
Definition rearrange_merge_heads (t : tensor) (H : nat) : option tensor :=
  match shape t with
  | [B; h; n; d] =>
      if (H =? 0) || negb (n mod H =? 0) then None else
      let W := n / H in
      t <- reshape t [B; h; H; W; d] ;;
      t <- permute t [0; 1; 4; 2; 3] ;;
      reshape t [B; h * d; H; W]
  | _ => None
  end.

(** [relative_logits_1d], lines 49-63. *)
Definition relative_logits_1d (q rel_k : tensor) : option tensor :=
  match shape q with
  | [_; Nh; H; W; _] =>
      rel_logits <- einsum_bnhwd_md q rel_k ;;
      (* Collapse height and heads *)
      rel_logits <- reshape_infer rel_logits [Nh * H; W; 2 * W - 1] ;;
      rel_logits <- rel_to_abs rel_logits ;;
      rel_logits <- reshape_infer rel_logits [Nh; H; W; W] ;;
      expand_dim rel_logits 3 H
  | _ => None
  end.

(** [RelPosEmb], lines 65-100. *)
Record RelPosEmb : Type := mkRelPosEmb {
  height : nat;
  width : nat;
  rel_height : tensor;
  rel_width : tensor
}.

(** [RelPosEmb.__init__]: [tmp_h] and [tmp_w] give the values the two
    tables are created with, entry by entry.  The extents [height * 2 - 1]
    and [width * 2 - 1] must not be negative, and [dim_head ** -0.5] must
    exist. *)
Definition RelPosEmb_init (height width dim_head : nat)
    (tmp_h tmp_w : list nat -> T) : option RelPosEmb :=
  if (height =? 0) || (width =? 0) || (dim_head =? 0) then None else
  Some {| height := height;
          width := width;
          rel_height := tabulate [height * 2 - 1; dim_head] tmp_h;
          rel_width := tabulate [width * 2 - 1; dim_head] tmp_w |}.

(** Line 90: the query with its positions laid out on the grid. *)
Definition RelPosEmb_grid (self : RelPosEmb) (q : tensor) : option tensor :=
  rearrange_split_xy q (height self) (width self).

(** Lines 91-93, from the query on the grid. *)
Definition RelPosEmb_rel_logits_w (self : RelPosEmb) (q : tensor) : option tensor :=
  rel_logits_w <- relative_logits_1d q (rel_width self) ;;
  rearrange_xy_ij rel_logits_w.

(** Lines 95-99, from the query on the grid. *)
Definition RelPosEmb_rel_logits_h (self : RelPosEmb) (q : tensor) : option tensor :=
  q <- rearrange_swap_xy q ;;
  rel_logits_h <- relative_logits_1d q (rel_height self) ;;
  rearrange_yx_ji rel_logits_h.

(** [RelPosEmb.forward], lines 86-100. *)
Definition RelPosEmb_forward (self : RelPosEmb) (q : tensor) : option tensor :=
  q <- RelPosEmb_grid self q ;;
  rel_logits_w <- RelPosEmb_rel_logits_w self q ;;
  rel_logits_h <- RelPosEmb_rel_logits_h self q ;;
  tensor_add rel_logits_w rel_logits_h.

(** [nn.Conv2D(in_channels, out_channels, 1, bias_attr=False)] with its
    weight of shape [out_channels, in_channels, 1, 1]. *)
Record Conv1x1 : Type := mkConv1x1 {
  in_channels : nat;
  out_channels : nat;
  weight : tensor
}.

Definition Conv1x1_forward (c : Conv1x1) (x : tensor) : option tensor :=
  match shape x with
  | [B; C; H; W] =>
      if C =? in_channels c then
        Some (tabulate [B; out_channels c; H; W]
                (fun idx =>
                   match idx with
                   | [b; o; h; w] =>
                       contract (map (fun i => get (weight c) [o; i; 0; 0]) (seq 0 C))
                                (map (fun i => get x [b; i; h; w]) (seq 0 C))
                   | _ => zero
                   end))
      else None
  | _ => None
  end.

(** [t.chunk(2, axis)] *)
Definition chunk2 (t : tensor) (axis : nat) : option (tensor * tensor) :=
  let d := nth axis (shape t) 0 in
  if (axis <? length (shape t)) && (d mod 2 =? 0) then
    let s := set_nth axis (d / 2) (shape t) in
    Some (tabulate s (fun idx => get t idx),
          tabulate s (fun idx => get t (set_nth axis (nth axis idx 0 + d / 2) idx)))
  else None.

(** [MHSA], lines 157-201. *)
Record MHSA : Type := mkMHSA {
  scale : T;
  heads : nat;
  to_qk : Conv1x1;
  to_v : Conv1x1;
  pos_emb : RelPosEmb
}.

(** [MHSA.__init__]: [w_qk], [w_v], [tmp_h] and [tmp_w] give the values the
    parameters are created with. *)
Definition MHSA_init (dim : nat) (fmap_size : nat * nat) (heads dim_qk dim_v : nat)
    (w_qk w_v tmp_h tmp_w : list nat -> T) : option MHSA :=
  if dim_qk =? 0 then None else
  let out_channels_qk := heads * dim_qk in
  let out_channels_v := heads * dim_v in
  let '(height, width) := fmap_size in
  pos_emb <- RelPosEmb_init height width dim_qk tmp_h tmp_w ;;
  Some {| scale := rsqrt dim_qk;
          heads := heads;
          to_qk := mkConv1x1 dim (out_channels_qk * 2)
                     (tabulate [out_channels_qk * 2; dim; 1; 1] w_qk);
          to_v := mkConv1x1 dim out_channels_v
                    (tabulate [out_channels_v; dim; 1; 1] w_v);
          pos_emb := pos_emb |}.

(** [MHSA.forward], lines 181-201. *)
Definition MHSA_forward (self : MHSA) (featuremap : tensor) : option tensor :=
  let heads := heads self in
  match shape featuremap with
  | [_; _; H; _] =>
      qk <- Conv1x1_forward (to_qk self) featuremap ;;
      ' (q, k) <- chunk2 qk 1 ;;
      v <- Conv1x1_forward (to_v self) featuremap ;;
      q <- rearrange_split_heads q heads ;;
      k <- rearrange_split_heads k heads ;;
      v <- rearrange_split_heads v heads ;;
      let q := tensor_scale q (scale self) in
      logits <- einsum_bhxd_bhyd q k ;;
      pos <- RelPosEmb_forward (pos_emb self) q ;;
      logits <- tensor_add logits pos ;;
      let weights := softmax logits in
      attn_out <- einsum_bhxy_bhyd weights v ;;
      rearrange_merge_heads attn_out H
  | _ => None
  end.

End Tensor.

(** ** Layers: [BoTBlock] and [BoTStack] *)

(** The layer objects the two classes assemble, each given by its class
    and the sizes it is built with.  The weights a layer holds are not part
    of this description: two modules built from the same arguments are
    two modules, with weights of their own, and have one description.
    [Activation] is the [activation] argument (one object, [nn.ReLU()] by
    default, used at every place it is passed to). *)
Inductive Layer : Type :=
| Conv2D (in_channels out_channels kernel_size stride : nat)
| BatchNorm2D (num_features : nat)
| AvgPool2D (kernel_size : nat)
| Activation
| Identity
| MHSALayer (dim : nat) (fmap_size : nat * nat) (heads dim_qk dim_v : nat)
    (rel_pos_emb : bool)
| Sequential (layers : list Layer)
| BoTBlock (shortcut net activation : Layer).

Definition BoTBlock_shortcut (l : Layer) : Layer :=
  match l with BoTBlock shortcut _ _ => shortcut | _ => Identity end.

Definition BoTBlock_net (l : Layer) : Layer :=
  match l with BoTBlock _ net _ => net | _ => Identity end.

Definition BoTBlock_activation (l : Layer) : Layer :=
  match l with BoTBlock _ _ activation => activation | _ => Identity end.

(** [BoTBlock.__init__], lines 106-149.  [dim_out // proj_factor] raises
    for [proj_factor = 0], and the constructor of [MHSA] raises where
    [MHSA_init] returns nothing: for [dim_qk = 0] and for a feature map
    with an extent of 0.  The constructors of the framework's own layers
    are taken to return. *)
Definition BoTBlock_init (dim : nat) (fmap_size : nat * nat) (dim_out stride heads
    proj_factor dim_qk dim_v : nat) (rel_pos_emb : bool) (activation : Layer)
    : option Layer :=
  let shortcut :=
    if negb (dim =? dim_out) || negb (stride =? 1) then
      Sequential [Conv2D dim dim_out 1 stride; BatchNorm2D dim_out; activation]
    else Identity in
  if proj_factor =? 0 then None else
  let bottleneck_dimension := dim_out / proj_factor in
  let attn_dim_out := heads * dim_v in
  if (dim_qk =? 0) || (fst fmap_size =? 0) || (snd fmap_size =? 0) then None else
  let net :=
    Sequential
      [Conv2D dim bottleneck_dimension 1 1;
       BatchNorm2D bottleneck_dimension;
       activation;
       MHSALayer bottleneck_dimension fmap_size heads dim_qk dim_v rel_pos_emb;
       (if stride =? 2 then AvgPool2D 2 else Identity);
       BatchNorm2D attn_dim_out;
       activation;
       Conv2D attn_dim_out dim_out 1 1;
       BatchNorm2D dim_out] in
  Some (BoTBlock shortcut net activation).

(** [BoTStack], lines 203-254. *)
Record BoTStack : Type := mkBoTStack {
  stack_dim : nat;
  stack_fmap_size : nat * nat;
  stack_net : Layer
}.

(** One turn of the loop of [BoTStack.__init__]; the state is the local
    [dim] and the list [layers]. *)
Definition BoTStack_init_step (fmap_size : nat * nat) (dim_out heads proj_factor
    stride dim_qk dim_v : nat) (rel_pos_emb : bool) (activation : Layer)
    (st : option (nat * list Layer)) (i : nat) : option (nat * list Layer) :=
  ' (dim, layers) <- st ;;
  let is_first := i =? 0 in
  let dim := if is_first then dim else dim_out in
  let fmap_divisor := if (stride =? 2) && negb is_first then 2 else 1 in
  let layer_fmap_size := (fst fmap_size / fmap_divisor, snd fmap_size / fmap_divisor) in
  blk <- BoTBlock_init dim layer_fmap_size dim_out (if is_first then stride else 1)
           heads proj_factor dim_qk dim_v rel_pos_emb activation ;;
  Some (dim, layers ++ [blk]).

Definition BoTStack_init (dim : nat) (fmap_size : nat * nat) (dim_out heads
    proj_factor num_layers stride dim_qk dim_v : nat) (rel_pos_emb : bool)
    (activation : Layer) : option BoTStack :=
  ' (_, layers) <-
    fold_left (BoTStack_init_step fmap_size dim_out heads proj_factor stride dim_qk
                 dim_v rel_pos_emb activation)
              (seq 0 num_layers) (Some (dim, [])) ;;
  Some {| stack_dim := dim; stack_fmap_size := fmap_size; stack_net := Sequential layers |}.

(** What [BoTStack.forward] does with its input: the unpacking of the shape
    fails, an assertion fails, or the blocks are run. *)
Inductive stack_outcome (R : Type) : Type :=
| UnpackFailed
| AssertionFailed
| Ran (result : R).

Arguments UnpackFailed {R}.
Arguments AssertionFailed {R}.

Section Forward.

Variable T : Type.

(** The framework: how a layer other than [Identity], [Sequential] and
    [BoTBlock] maps a feature map, with the parameters it holds (for
    [MHSALayer] that is [MHSA.forward]), and its [+=]. *)
Variable run_layer : Layer -> tensor T -> option (tensor T).
Variable plus : tensor T -> tensor T -> option (tensor T).

(** Calling a layer; [BoTBlock] is [BoTBlock.forward], lines 151-155. *)
Fixpoint run (l : Layer) (x : tensor T) : option (tensor T) :=
  match l with
  | Identity => Some x
  | Sequential layers =>
      (fix chain (ls : list Layer) (x : tensor T) : option (tensor T) :=
         match ls with
         | [] => Some x
         | l' :: ls' => y <- run l' x ;; chain ls' y
         end) layers x
  | BoTBlock shortcut net activation =>
      shortcut <- run shortcut x ;;
      featuremap <- run net x ;;
      featuremap <- plus featuremap shortcut ;;
      run activation featuremap
  | _ => run_layer l x
  end.

(** [BoTStack.forward], lines 250-254. *)
Definition BoTStack_forward (self : BoTStack) (x : tensor T)
  : stack_outcome (option (tensor T)) :=
  match shape x with
  | [_; c; h; w] =>
      if negb (c =? stack_dim self) then AssertionFailed
      else if negb ((h =? fst (stack_fmap_size self)) && (w =? snd (stack_fmap_size self)))
      then AssertionFailed
      else Ran (run (stack_net self) x)
  | _ => UnpackFailed
  end.

End Forward.

(** ** config.py *)

(** Python values a configuration holds at its leaves.  A float is kept as
    the decimal literal that wrote it, mantissa and exponent. *)
Inductive pyval : Type :=
| PNone
| PBool (b : bool)
| PInt (z : Z)
| PFloat (mantissa exponent : Z)
| PStr (s : string)
| PList (l : list pyval)
| PTuple (l : list pyval).

(** A [yacs] configuration: a value, or a [CfgNode] with its immutability
    flag and its entries in insertion order.  (The node's tables of
    deprecated and renamed keys and its [new_allowed] flag keep their
    defaults throughout: empty and false.) *)
Inductive CfgTree : Type :=
| Leaf (v : pyval)
| Node (frozen : bool) (entries : list (string * CfgTree)).

Inductive error : Type :=
| AttributeError
| KeyError
| ValueError
| TypeError
| FileError
| YAMLError
| RecursionError.

Inductive result (A : Type) : Type :=
| Ok (a : A)
| Raise (e : error).

Arguments Raise {A} e.

Notation "x <~ e ;; k" :=
  (match e with Ok x => k | Raise err => Raise err end)
  (at level 61, e at next level, right associativity, only parsing).

Definition rmap (A B : Type) (f : A -> B) (r : result A) : result B :=
  match r with Ok a => Ok (f a) | Raise e => Raise e end.

(** [d.get(k)] and [d[k] = v] on the entries of a dict. *)
Fixpoint dict_get (k : string) (es : list (string * CfgTree)) : option CfgTree :=
  match es with
  | [] => None
  | (k', v) :: es' => if String.eqb k' k then Some v else dict_get k es'
  end.

Fixpoint dict_set (k : string) (v : CfgTree) (es : list (string * CfgTree))
  : list (string * CfgTree) :=
  match es with
  | [] => [(k, v)]
  | (k', v') :: es' =>
      if String.eqb k' k then (k', v) :: es' else (k', v') :: dict_set k v es'
  end.

(** [CfgNode._immutable(is_immutable)]: the flag of the node and of every
    node below it. *)
Fixpoint _immutable (is_immutable : bool) (c : CfgTree) : CfgTree :=
  match c with
  | Leaf v => Leaf v
  | Node _ es => Node is_immutable (map (fun kv => (fst kv, _immutable is_immutable (snd kv))) es)
  end.

Definition freeze : CfgTree -> CfgTree := _immutable true.
Definition defrost : CfgTree -> CfgTree := _immutable false.

Definition is_frozen (c : CfgTree) : bool :=
  match c with Node frozen _ => frozen | Leaf _ => false end.

(** [CfgNode.__getattr__] *)
Definition getattr (c : CfgTree) (name : string) : result CfgTree :=
  match c with
  | Node _ es => match dict_get name es with
                 | Some v => Ok v
                 | None => Raise AttributeError
                 end
  | Leaf _ => Raise AttributeError
  end.

(** [CfgNode.__setattr__]: refused on a frozen node. *)
Definition setattr (c : CfgTree) (name : string) (v : CfgTree) : result CfgTree :=
  match c with
  | Node frozen es =>
      if frozen then Raise AttributeError else Ok (Node frozen (dict_set name v es))
  | Leaf _ => Raise AttributeError
  end.

(** [config.SECTION.NAME = v]: the attribute is set on the node
    [config.SECTION], which [config] goes on holding. *)
Definition setattr2 (config : CfgTree) (section name : string) (v : CfgTree)
  : result CfgTree :=
  sub <~ getattr config section ;;
  sub <~ setattr sub name v ;;
  match config with
  | Node frozen es => Ok (Node frozen (dict_set section sub es))
  | Leaf _ => Raise AttributeError
  end.

Inductive pytype : Type :=
| TNone | TBool | TInt | TFloat | TStr | TList | TTuple | TCfgNode.

Definition type_of (c : CfgTree) : pytype :=
  match c with
  | Node _ _ => TCfgNode
  | Leaf PNone => TNone
  | Leaf (PBool _) => TBool
  | Leaf (PInt _) => TInt
  | Leaf (PFloat _ _) => TFloat
  | Leaf (PStr _) => TStr
  | Leaf (PList _) => TList
  | Leaf (PTuple _) => TTuple
  end.

Definition pytype_eqb (a b : pytype) : bool :=
  match a, b with
  | TNone, TNone | TBool, TBool | TInt, TInt | TFloat, TFloat | TStr, TStr
  | TList, TList | TTuple, TTuple | TCfgNode, TCfgNode => true
  | _, _ => false
  end.

(** [_check_and_coerce_cfg_value_type] on two values that are not nodes:
    equal types, [None] on either side, or a list for a tuple and a tuple
    for a list. *)
Definition check_and_coerce (replacement original : pyval) : result pyval :=
  let rt := type_of (Leaf replacement) in
  let ot := type_of (Leaf original) in
  if pytype_eqb rt ot then Ok replacement
  else if pytype_eqb rt TNone || pytype_eqb ot TNone then Ok replacement
  else match replacement, original with
       | PTuple l, PList _ => Ok (PList l)
       | PList l, PTuple _ => Ok (PTuple l)
       | _, _ => Raise ValueError
       end.

(** What [ast.literal_eval] makes of a string: it is not a Python literal
    (the call raises, and [yacs] keeps the string), it is a literal of a
    type a configuration holds, or it is a literal of another type (a dict,
    a set, bytes, a complex number). *)
Inductive literal : Type :=
| NotALiteral
| Literal (v : pyval)
| OtherLiteral.

Section Decoding.

(** The interpreter's [ast.literal_eval]. *)
Variable literal_eval : string -> literal.

(** [CfgNode._decode_cfg_value] on a value that is not a mapping: a string
    that spells a Python literal is replaced by that literal, every other
    value is kept.  The result is [None] for a literal of a type no
    configuration entry has. *)
Definition decode (v : pyval) : option pyval :=
  match v with
  | PStr s =>
      match literal_eval s with
      | NotALiteral => Some (PStr s)
      | Literal v' => Some v'
      | OtherLiteral => None
      end
  | _ => Some v
  end.

(** [_merge_a_into_b]: [merge_value v orig] is what the entry holding
    [orig] holds after [v] has been merged over it.  A value is decoded
    before its type is checked against the entry's; a decoded value of a
    type no entry has fails that check. *)
Fixpoint merge_value (v orig : CfgTree) : result CfgTree :=
  match v, orig with
  | Node _ es, Node frozen bes =>
      (fix items (es : list (string * CfgTree)) (bes : list (string * CfgTree))
         : result CfgTree :=
         match es with
         | [] => Ok (Node frozen bes)
         | (k, v') :: es' =>
             match dict_get k bes with
             | Some o =>
                 nv <~ merge_value v' o ;;
                 items es' (dict_set k nv bes)
             | None => Raise KeyError
             end
         end) es bes
  | Leaf x, Leaf y =>
      match decode x with
      | Some x' => rmap Leaf (check_and_coerce x' y)
      | None => Raise ValueError
      end
  | _, _ => Raise ValueError
  end.

End Decoding.

Definition truthy (v : pyval) : bool :=
  match v with
  | PNone => false
  | PBool b => b
  | PInt z => negb (z =? 0)%Z
  | PFloat m _ => negb (m =? 0)%Z
  | PStr s => negb (String.eqb s "")
  | PList l | PTuple l => negb (Nat.eqb (length l) 0)
  end.

(** What a [for] loop over a value of a YAML document iterates. *)
Definition iterate (c : CfgTree) : result (list pyval) :=
  match c with
  | Leaf (PList l) | Leaf (PTuple l) => Ok l
  | Leaf (PStr s) => Ok (map (fun a => PStr (String a EmptyString)) (list_ascii_of_string s))
  | Node _ es => Ok (map (fun kv => PStr (fst kv)) es)
  | Leaf _ => Raise TypeError
  end.

(** What [yaml.load] returns for a file: a mapping, nothing (the file holds
    no document), or something else (a scalar or a sequence). *)
Inductive yaml_doc : Type :=
| YMapping (entries : list (string * CfgTree))
| YNull
| YOther.

Section Files.

(** The interpreter and the files.  [read_yaml path] is what opening the
    file at [path] and loading it as YAML gives: the document, or the
    exception raised on the way ([FileError] when the file cannot be
    opened, [YAMLError] when it does not parse).
    [base_path cfg_file cfg] is
    [os.path.join(os.path.dirname(cfg_file), cfg)]. *)
Variable literal_eval : string -> literal.
Variable read_yaml : string -> result yaml_doc.
Variable base_path : string -> string -> string.

(** [CfgNode.merge_from_file]: the file is read again, and what it holds
    becomes a [CfgNode] that is merged.  No document gives the empty
    [CfgNode]; a scalar or a sequence has no [items] to build one from.
    The file is taken to have a name that [yacs] reads as YAML (ending in
    [.yaml] or [.yml], or without an extension). *)
Definition merge_from_file (config : CfgTree) (cfg_filename : string) : result CfgTree :=
  match read_yaml cfg_filename with
  | Ok (YMapping es) => merge_value literal_eval (Node false es) config
  | Ok YNull => merge_value literal_eval (Node false []) config
  | Ok YOther => Raise AttributeError
  | Raise e => Raise e
  end.

(** [_update_config_from_file], lines 102-113.  [depth] bounds the depth
    of the recursion, as the interpreter does.  Only a mapping has the
    [setdefault] of line 106. *)
Fixpoint _update_config_from_file (depth : nat) (config : CfgTree) (cfg_file : string)
  : result CfgTree :=
  match depth with
  | 0 => Raise RecursionError
  | S depth' =>
      let config := defrost config in
      match read_yaml cfg_file with
      | Raise e => Raise e
      | Ok YNull | Ok YOther => Raise AttributeError
      | Ok (YMapping yaml_cfg) =>
          bases <~ iterate (match dict_get "BASE" yaml_cfg with
                            | Some v => v
                            | None => Leaf (PList [PStr ""])
                            end) ;;
          config <~ fold_left
                      (fun acc cfg =>
                         config <~ acc ;;
                         if truthy cfg then
                           match cfg with
                           | PStr cfg =>
                               _update_config_from_file depth' config
                                 (base_path cfg_file cfg)
                           | _ => Raise TypeError
                           end
                         else Ok config)
                      bases (Ok config) ;;
          config <~ merge_from_file config cfg_file ;;
          Ok (freeze config)
      end
  end.

End Files.

Local Open Scope string_scope.
Local Open Scope list_scope.
Local Open Scope nat_scope.

(** The defaults, lines 5-99. *)
Definition _C : CfgTree :=
  Node false
    [("BASE", Leaf (PList [PStr ""]));
     ("DATA", Node false
        [("BATCH_SIZE", Leaf (PInt 8));
         ("BATCH_SIZE_EVAL", Leaf (PInt 8));
         ("DATA_PATH", Leaf (PStr "/dataset/imagenet/"));
         ("DATASET", Leaf (PStr "imagenet2012"));
         ("IMAGE_SIZE", Leaf (PInt 224));
         ("FMAP_SIZE", Leaf (PTuple [PInt 14; PInt 14]));
         ("CROP_PCT", Leaf (PFloat 9 (-1)));
         ("NUM_WORKERS", Leaf (PInt 4))]);
     ("MODEL", Node false
        [("TYPE", Leaf (PStr "BoTNet"));
         ("NAME", Leaf (PStr "BoTNet"));
         ("RESUME", Leaf PNone);
         ("PRETRAINED", Leaf PNone);
         ("NUM_CLASSES", Leaf (PInt 10));
         ("TRANS", Node false
            [("EMBED_DIM", Leaf (PInt 2048));
             ("NUM_HEADS", Leaf (PInt 4));
             ("USE_ABS_POS_EMB", Leaf (PBool false));
             ("USE_REL_POS_BIAS", Leaf (PBool true))])]);
     ("TRAIN", Node false
        [("LAST_EPOCH", Leaf (PInt 0));
         ("NUM_EPOCHS", Leaf (PInt 300));
         ("WARMUP_EPOCHS", Leaf (PInt 20));
         ("WEIGHT_DECAY", Leaf (PFloat 5 (-2)));
         ("BASE_LR", Leaf (PFloat 5 (-4)));
         ("WARMUP_START_LR", Leaf (PFloat 5 (-7)));
         ("END_LR", Leaf (PFloat 5 (-6)));
         ("GRAD_CLIP", Leaf (PFloat 50 (-1)));
         ("ACCUM_ITER", Leaf (PInt 1));
         ("LR_SCHEDULER", Node false
            [("NAME", Leaf (PStr "warmupcosine"));
             ("MILESTONES", Leaf (PStr "30, 60, 90"));
             ("DECAY_EPOCHS", Leaf (PInt 30));
             ("DECAY_RATE", Leaf (PFloat 1 (-1)))]);
         ("OPTIMIZER", Node false
            [("NAME", Leaf (PStr "AdamW"));
             ("EPS", Leaf (PFloat 1 (-8)));
             ("BETAS", Leaf (PTuple [PFloat 9 (-1); PFloat 999 (-3)]));
             ("MOMENTUM", Leaf (PFloat 9 (-1)))]);
         ("MIXUP_ALPHA", Leaf (PFloat 8 (-1)));
         ("CUTMIX_ALPHA", Leaf (PFloat 10 (-1)));
         ("CUTMIX_MINMAX", Leaf PNone);
         ("MIXUP_PROB", Leaf (PFloat 10 (-1)));
         ("MIXUP_SWITCH_PROB", Leaf (PFloat 5 (-1)));
         ("MIXUP_MODE", Leaf (PStr "batch"));
         ("SMOOTHING", Leaf (PFloat 1 (-1)));
         ("COLOR_JITTER", Leaf (PFloat 4 (-1)));
         ("AUTO_AUGMENT", Leaf (PBool true));
         ("RANDOM_ERASE_PROB", Leaf (PFloat 25 (-2)));
         ("RANDOM_ERASE_MODE", Leaf (PStr "pixel"));
         ("RANDOM_ERASE_COUNT", Leaf (PInt 1));
         ("RANDOM_ERASE_SPLIT", Leaf (PBool false))]);
     ("AUG", Node false
        [("COLOR_JITTER", Leaf (PFloat 4 (-1)));
         ("AUTO_AUGMENT", Leaf (PStr "rand-m9-mstd0.5-inc1"));
         ("RE_PROB", Leaf (PFloat 25 (-2)));
         ("RE_MODE", Leaf (PStr "pixel"));
         ("RE_COUNT", Leaf (PInt 1));
         ("MIXUP", Leaf (PFloat 8 (-1)));
         ("CUTMIX", Leaf (PFloat 10 (-1)));
         ("CUTMIX_MINMAX", Leaf PNone);
         ("MIXUP_PROB", Leaf (PFloat 10 (-1)));
         ("MIXUP_SWITCH_PROB", Leaf (PFloat 5 (-1)));
         ("MIXUP_MODE", Leaf (PStr "batch"))]);
     ("SAVE", Leaf (PStr "./output"));
     ("TAG", Leaf (PStr "default"));
     ("SAVE_FREQ", Leaf (PInt 1));
     ("REPORT_FREQ", Leaf (PInt 50));
     ("VALIDATE_FREQ", Leaf (PInt 10));
     ("SEED", Leaf (PInt 0));
     ("EVAL", Leaf (PBool false));
     ("AMP", Leaf (PBool false));
     ("LOCAL_RANK", Leaf (PInt 0));
     ("NGPUS", Leaf (PInt (-1)))].

(** The parsed command line, as [update_config] reads it: an option that
    was not given is [None]. *)
Record Args : Type := mkArgs {
  args_cfg : option string;
  args_dataset : option string;
  args_batch_size : option Z;
  args_image_size : option Z;
  args_data_path : option string;
  args_ngpus : option Z;
  args_eval : bool;
  args_pretrained : option string;
  args_resume : option string;
  args_last_epoch : option Z;
  args_amp : bool
}.

Definition str_value (a : option string) : pyval :=
  match a with Some s => PStr s | None => PNone end.

Definition int_value (a : option Z) : pyval :=
  match a with Some z => PInt z | None => PNone end.

(** [if test: config = assign(config)] *)
Definition when (test : bool) (assign : CfgTree -> result CfgTree) (config : CfgTree)
  : result CfgTree :=
  if test then assign config else Ok config.

Section Update.

Variable literal_eval : string -> literal.
Variable read_yaml : string -> result yaml_doc.
Variable base_path : string -> string -> string.

(** Lines 122-123 of [update_config]. *)
Definition update_config_file (depth : nat) (config : CfgTree) (args : Args)
  : result CfgTree :=
  match args_cfg args with
  | Some cfg =>
      if truthy (PStr cfg)
      then _update_config_from_file literal_eval read_yaml base_path depth config cfg
      else Ok config
  | None => Ok config
  end.

(** Lines 124-148 of [update_config]. *)
Definition update_config_args (config : CfgTree) (args : Args) : result CfgTree :=
  let config := defrost config in
  config <~ when (truthy (str_value (args_dataset args)))
              (fun c => setattr2 c "DATA" "DATASET" (Leaf (str_value (args_dataset args))))
              config ;;
  config <~ when (truthy (int_value (args_batch_size args)))
              (fun c => setattr2 c "DATA" "BATCH_SIZE" (Leaf (int_value (args_batch_size args))))
              config ;;
  config <~ when (truthy (int_value (args_image_size args)))
              (fun c => setattr2 c "DATA" "IMAGE_SIZE" (Leaf (int_value (args_image_size args))))
              config ;;
  config <~ when (truthy (str_value (args_data_path args)))
              (fun c => setattr2 c "DATA" "DATA_PATH" (Leaf (str_value (args_data_path args))))
              config ;;
  config <~ when (truthy (int_value (args_ngpus args)))
              (fun c => setattr c "NGPUS" (Leaf (int_value (args_ngpus args))))
              config ;;
  config <~ when (args_eval args)
              (fun c =>
                 c <~ setattr c "EVAL" (Leaf (PBool true)) ;;
                 setattr2 c "DATA" "BATCH_SIZE_EVAL" (Leaf (int_value (args_batch_size args))))
              config ;;
  config <~ when (truthy (str_value (args_pretrained args)))
              (fun c => setattr2 c "MODEL" "PRETRAINED" (Leaf (str_value (args_pretrained args))))
              config ;;
  config <~ when (truthy (str_value (args_resume args)))
              (fun c => setattr2 c "MODEL" "RESUME" (Leaf (str_value (args_resume args))))
              config ;;
  config <~ when (truthy (int_value (args_last_epoch args)))
              (fun c => setattr2 c "TRAIN" "LAST_EPOCH" (Leaf (int_value (args_last_epoch args))))
              config ;;
  config <~ when (args_amp args)
              (fun c =>
                 ev <~ getattr c "EVAL" ;;
                 match ev with
                 | Leaf (PBool true) => setattr c "AMP" (Leaf (PBool false))
                 | _ => setattr c "AMP" (Leaf (PBool true))
                 end)
              config ;;
  (* config.freeze() is commented out *)
  Ok config.

(** [update_config], lines 115-151. *)
Definition update_config (depth : nat) (config : CfgTree) (args : Args) : result CfgTree :=
  config <~ update_config_file depth config args ;;
  update_config_args config args.

(** [get_config], lines 153-158; [_C.clone()] is a copy of the defaults. *)
Definition get_config (depth : nat) (cfg_file : option string) : result CfgTree :=
  let config := _C in
  match cfg_file with
  | Some cfg_file =>
      if truthy (PStr cfg_file)
      then _update_config_from_file literal_eval read_yaml base_path depth config cfg_file
      else Ok config
  | None => Ok config
  end.

End Update.

(** * Part II: definitions the statements use *)

Section RelToAbsSteps.

Variable T : Type.
Variable zero : T.

(** The rows of block (b, n) of a 4-D tensor. *)
Definition block (t : tensor T) (b n : nat) : list (list T) :=
  match shape t with
  | [_; _; L; W] => map (fun i => vec zero t [b; n; i] W) (seq 0 L)
  | _ => []
  end.

(** The steps of the conversion as the specification words them, on the
    rows of one block. *)
Definition append_zero_column (rows : list (list T)) : list (list T) :=
  map (fun r => r ++ [zero]) rows.

Definition flatten_rows (rows : list (list T)) : list T := List.concat rows.

Definition append_zeros (n : nat) (l : list T) : list T := l ++ repeat zero n.

Definition regrid (rows cols : nat) (l : list T) : list (list T) :=
  map (fun r => firstn cols (skipn (r * cols) l)) (seq 0 rows).

(** Rows [r0..r1] and columns [c0..c1], ends included. *)
Definition window (r0 r1 c0 c1 : nat) (grid : list (list T)) : list (list T) :=
  map (fun row => firstn (c1 + 1 - c0) (skipn c0 row))
      (firstn (r1 + 1 - r0) (skipn r0 grid)).

Definition rel_to_abs_steps (L : nat) (rows : list (list T)) : list (list T) :=
  let padded := append_zero_column rows in
  let flat := flatten_rows padded in
  let flat := append_zeros (L - 1) flat in
  let grid := regrid (L + 1) (2 * L - 1) flat in
  window 0 (L - 1) (L - 1) (2 * L - 2) grid.

End RelToAbsSteps.

Section Notions.

Variable T : Type.
Variable zero one : T.

(** The tensor of shape [s] that is [one] at [pos] and [zero] elsewhere. *)
Definition one_hot (s pos : list nat) : tensor T :=
  tabulate s (fun idx => if list_eqb idx pos then one else zero).

(** [lt_] is [l] with the two grid coordinates exchanged in the query
    position and in the key position. *)
Definition transposed_logits (B Nh W : nat) (l lt_ : tensor T) : Prop :=
  forall b n x y i j, b < B -> n < Nh -> x < W -> y < W -> i < W -> j < W ->
    get zero l [b; n; x * W + y; i * W + j] =
    get zero lt_ [b; n; y * W + x; j * W + i].

End Notions.

Section MergeItems.

Variable literal_eval : string -> literal.

(** The loop of [_merge_a_into_b] over the items of [a], on its own. *)
Fixpoint merge_items (frozen : bool) (es bes : list (string * CfgTree)) : result CfgTree :=
  match es with
  | [] => Ok (Node frozen bes)
  | (k, v') :: es' =>
      match dict_get k bes with
      | Some o =>
          nv <~ merge_value literal_eval v' o ;;
          merge_items frozen es' (dict_set k nv bes)
      | None => Raise KeyError
      end
  end.

End MergeItems.

Definition on_values (f : CfgTree -> CfgTree) (kv : string * CfgTree) : string * CfgTree :=
  (fst kv, f (snd kv)).

(** [config.SECTION.NAME] *)
Definition getattr2 (config : CfgTree) (section name : string) : result CfgTree :=
  sub <~ getattr config section ;;
  getattr sub name.

Section MergeOrder.

Variable literal_eval : string -> literal.
Variable read_yaml : string -> result yaml_doc.
Variable base_path : string -> string -> string.

(** The order the specification gives: the files named by [BASE], each
    with its own parents before it, depth first, and then the file
    itself. *)
Fixpoint merge_order (depth : nat) (cfg_file : string) : result (list string) :=
  match depth with
  | 0 => Raise RecursionError
  | S depth' =>
      match read_yaml cfg_file with
      | Raise e => Raise e
      | Ok YNull | Ok YOther => Raise AttributeError
      | Ok (YMapping yaml_cfg) =>
          bases <~ iterate (match dict_get "BASE" yaml_cfg with
                            | Some v => v
                            | None => Leaf (PList [PStr ""])
                            end) ;;
          parents <~ fold_left
                       (fun acc cfg =>
                          files <~ acc ;;
                          if truthy cfg then
                            match cfg with
                            | PStr cfg =>
                                above <~ merge_order depth' (base_path cfg_file cfg) ;;
                                Ok (files ++ above)
                            | _ => Raise TypeError
                            end
                          else Ok files)
                       bases (Ok []) ;;
          Ok (parents ++ [cfg_file])
      end
  end.

(** Merging the keys of a list of files, one file after the other. *)
Fixpoint merge_files (files : list string) (config : CfgTree) : result CfgTree :=
  match files with
  | [] => Ok config
  | f :: files' =>
      config <~ merge_from_file literal_eval read_yaml config f ;;
      merge_files files' config
  end.

End MergeOrder.

(** The configuration has the three sections [update_config] assigns into. *)
Definition has_sections (c : CfgTree) : Prop :=
  exists frozen es fd d fm m ft t,
    c = Node frozen es /\
    dict_get "DATA" es = Some (Node fd d) /\
    dict_get "MODEL" es = Some (Node fm m) /\
    dict_get "TRAIN" es = Some (Node ft t).

(** The same, with the node and the three sections open to assignment. *)
Definition open_sections (c : CfgTree) : Prop :=
  exists es d m t,
    c = Node false es /\
    dict_get "DATA" es = Some (Node false d) /\
    dict_get "MODEL" es = Some (Node false m) /\
    dict_get "TRAIN" es = Some (Node false t).

Definition is_section (s : string) : Prop := s = "DATA" \/ s = "MODEL" \/ s = "TRAIN".

Definition is_node (c : CfgTree) : bool :=
  match c with Node _ _ => true | Leaf _ => false end.

(** The node itself can be assigned to. *)
Definition root_open (c : CfgTree) : Prop := exists es, c = Node false es.

Section CfgTreeInduction.

Variable P : CfgTree -> Prop.
Hypothesis P_leaf : forall v, P (Leaf v).
Hypothesis P_node :
  forall frozen es, Forall (fun kv => P (snd kv)) es -> P (Node frozen es).

Fixpoint CfgTree_nested_ind (c : CfgTree) : P c :=
  match c with
  | Leaf v => P_leaf v
  | Node frozen es =>
      P_node frozen
        ((fix all (es : list (string * CfgTree)) : Forall (fun kv => P (snd kv)) es :=
            match es with
            | [] => Forall_nil _
            | kv :: es' => Forall_cons kv (CfgTree_nested_ind (snd kv)) (all es')
            end) es)
  end.

End CfgTreeInduction.

(** ** Concrete inputs *)

(** A sum of products on integers, to run the model on. *)
Definition zdot (u v : list Z) : Z :=
  fold_left Z.add (map (fun p => (fst p * snd p)%Z) (combine u v)) 0%Z.

(** Relative logits for L = 3: three rows of five offsets. *)
Definition example_rel : tensor Z := mkTensor [1; 1; 3; 5] (map Z.of_nat (seq 1 15)).

Definition example_table : tensor Z := mkTensor [3; 1] [1; 10; 100]%Z.

Definition example_emb : RelPosEmb Z := mkRelPosEmb 2 2 example_table example_table.

Definition example_grid : tensor Z := mkTensor [1; 1; 2; 2; 1] [1; 2; 3; 4]%Z.

Definition example_mhsa : option (MHSA Z) :=
  MHSA_init (fun _ => 1%Z) 3 (2, 2) 2 1 2
    (fun _ => 1%Z) (fun _ => 1%Z)
    (fun idx => Z.of_nat (nth 0 idx 0)) (fun idx => Z.of_nat (nth 0 idx 0)).

(** A framework whose own layers return their input. *)
Definition example_run_layer (l : Layer) (x : tensor Z) : option (tensor Z) := Some x.

Definition example_plus (a b : tensor Z) : option (tensor Z) := tensor_add Z.add a b.

Definition example_stack : BoTStack := mkBoTStack 4 (2, 2) (Sequential []).

(** The two files of the merge scenario. *)
Definition child_doc (parent : string) : list (string * CfgTree) :=
  [("BASE", Leaf (PList [PStr parent]));
   ("DATA", Node false [("BATCH_SIZE", Leaf (PInt 32))])].

Definition parent_doc : list (string * CfgTree) :=
  [("DATA", Node false [("BATCH_SIZE", Leaf (PInt 16))])].

(** [ast.literal_eval] on the strings of the files below: it knows the
    three names, and none of the other strings is a literal. *)
Definition example_literal_eval (s : string) : literal :=
  if String.eqb s "None" then Literal PNone
  else if String.eqb s "True" then Literal (PBool true)
  else if String.eqb s "False" then Literal (PBool false)
  else NotALiteral.

(** A directory with the two files, and a file that switches AMP on. *)
Definition example_files (path : string) : result yaml_doc :=
  if String.eqb path "cfg/child.yaml" then Ok (YMapping (child_doc "parent.yaml"))
  else if String.eqb path "cfg/parent.yaml" then Ok (YMapping parent_doc)
  else if String.eqb path "amp.yaml" then Ok (YMapping [("AMP", Leaf (PBool true))])
  else Raise FileError.

Definition example_base_path (cfg_file cfg : string) : string :=
  if String.eqb cfg_file "cfg/child.yaml" then "cfg/" ++ cfg else cfg.

Definition no_args : Args :=
  mkArgs None None None None None None false None None None false.

(** [-cfg amp.yaml -eval], without [-amp] and without [-batch_size]. *)
Definition eval_args : Args :=
  mkArgs (Some "amp.yaml") None None None None None true None None None false.

(** ** Further definitions: the keys of a configuration *)

(** The keys of a configuration, level by level, without the values and the
    flags. *)
Inductive skeleton : Type :=
| SLeaf
| SNode (entries : list (string * skeleton)).

Fixpoint skeleton_of (c : CfgTree) : skeleton :=
  match c with
  | Leaf _ => SLeaf
  | Node _ es => SNode (map (fun kv => (fst kv, skeleton_of (snd kv))) es)
  end.


(** The document of the base file above. *)
Definition base_doc : list (string * CfgTree) :=
  [("DATA", Node false [("IMAGE_SIZE", Leaf (PInt 384)); ("BATCH_SIZE", Leaf (PInt 16))]);
   ("MODEL", Node false [("RESUME", Leaf (PStr "None"))]);
   ("SEED", Leaf (PInt 7)); ("TAG", Leaf (PStr "base"))].


(** What an entry holds after [if test: entry = v]. *)
Definition assigned (test : bool) (v : pyval) (before : result CfgTree) : result CfgTree :=
  if test then Ok (Leaf v) else before.

(** [x is True] on what reading an attribute gave. *)
Definition is_True (r : result CfgTree) : bool :=
  match r with Ok (Leaf (PBool true)) => true | _ => false end.

(** The attributes [update_config] assigns to: at the top level, and in
    the sections. *)
Definition cli_keys : list string := ["NGPUS"; "EVAL"; "AMP"].

Definition cli_fields : list (string * string) :=
  [("DATA", "DATASET"); ("DATA", "BATCH_SIZE"); ("DATA", "IMAGE_SIZE");
   ("DATA", "DATA_PATH"); ("DATA", "BATCH_SIZE_EVAL");
   ("MODEL", "PRETRAINED"); ("MODEL", "RESUME"); ("TRAIN", "LAST_EPOCH")].

(** More files: one that names itself as its parent, one whose parent is
    missing, one whose parent holds a sequence and not a mapping, one whose
    BASE is a string and not a list, one with a key the defaults do not
    have, and an experiment file with its base file, which spells the
    resume path as the string None. *)
Definition more_files (path : string) : result yaml_doc :=
  if String.eqb path "loop.yaml" then
    Ok (YMapping [("BASE", Leaf (PList [PStr "loop.yaml"]))])
  else if String.eqb path "orphan.yaml" then
    Ok (YMapping [("BASE", Leaf (PList [PStr "gone.yaml"]))])
  else if String.eqb path "stray.yaml" then
    Ok (YMapping [("BASE", Leaf (PList [PStr "list.yaml"]))])
  else if String.eqb path "list.yaml" then Ok YOther
  else if String.eqb path "scalar.yaml" then
    Ok (YMapping [("BASE", Leaf (PStr "p.yaml"))])
  else if String.eqb path "new.yaml" then
    Ok (YMapping [("SEED", Leaf (PInt 1)); ("EPOCHS", Leaf (PInt 3))])
  else if String.eqb path "base.yaml" then
    Ok (YMapping base_doc)
  else if String.eqb path "exp.yaml" then
    Ok (YMapping
          [("BASE", Leaf (PList [PStr "base.yaml"]));
           ("DATA", Node false [("BATCH_SIZE", Leaf (PInt 32))]);
           ("TAG", Leaf (PStr "exp"))])
  else Raise FileError.

(** [-cfg cfg/child.yaml -dataset cifar10 -batch_size 64 -image_size 384
    -data_path /data -ngpus 2 -pretrained w -resume r -last_epoch 5 -amp] *)
Definition all_args : Args :=
  mkArgs (Some "cfg/child.yaml") (Some "cifar10") (Some 64%Z) (Some 384%Z) (Some "/data")
    (Some 2%Z) false (Some "w") (Some "r") (Some 5%Z) true.

(** [-cfg cfg/child.yaml -dataset '' -batch_size 0 -last_epoch 0] *)
Definition falsy_args : Args :=
  mkArgs (Some "cfg/child.yaml") (Some "") (Some 0%Z) None None None false None None
    (Some 0%Z) false.

(** ** Further definitions: the shapes the framework's layers return *)

(** The extent left of an axis of extent [h] by a window of size [k]
    moved in steps of [s], without padding. *)
Definition window_extent (h k s : nat) : nat := (h - k) / s + 1.

(** The shape rule of each of the framework's own layers, on a batch of
    feature maps: [nn.Conv2D] and [nn.AvgPool2D] without padding,
    [nn.BatchNorm2D] and the activation keeping the shape, and [MHSA] as
    its [forward] behaves on a module that could be built.  A layer applied
    outside its rule may fail. *)
Definition layer_shape (l : Layer) (s : list nat) : option (list nat) :=
  match l, s with
  | Conv2D i o k st, [B; C; H; W] =>
      if (C =? i) && (1 <=? i) && (1 <=? o) && (1 <=? k) && (k <=? H) && (k <=? W)
         && (1 <=? st)
      then Some [B; o; window_extent H k st; window_extent W k st] else None
  | BatchNorm2D n, [B; C; H; W] =>
      if (C =? n) && (1 <=? n) then Some [B; C; H; W] else None
  | AvgPool2D k, [B; C; H; W] =>
      if (1 <=? k) && (k <=? H) && (k <=? W)
      then Some [B; C; window_extent H k k; window_extent W k k] else None
  | Activation, [B; C; H; W] => Some [B; C; H; W]
  | MHSALayer dim (fh, fw) heads dim_qk dim_v _, [B; C; H; W] =>
      if (C =? dim) && (H * W =? fh * fw) && (1 <=? heads) && (1 <=? dim_qk)
         && (1 <=? fh) && (1 <=? fw)
      then Some [B; heads * dim_v; H; W] else None
  | _, _ => None
  end.

Section Framework.

Variable T : Type.
Variable run_layer : Layer -> tensor T -> option (tensor T).
Variable plus : tensor T -> tensor T -> option (tensor T).

(** The framework's layers return, and return that shape, where their
    rule applies. *)
Definition follows_shapes : Prop :=
  forall l x s', layer_shape l (shape x) = Some s' ->
    exists y, run_layer l x = Some y /\ shape y = s'.

(** [a += b] returns, with the shape of [a], on tensors of one shape. *)
Definition adds_equal_shapes : Prop :=
  forall a b, shape a = shape b -> exists c, plus a b = Some c /\ shape c = shape a.

End Framework.

(** A framework that follows the rules and computes zeros. *)
Definition shape_run_layer (l : Layer) (x : tensor Z) : option (tensor Z) :=
  match layer_shape l (shape x) with
  | Some s' => Some (zeros 0%Z s')
  | None => None
  end.

(** A query of four positions with one feature each, and a table with
    twice the rows a width of 2 asks for. *)
Definition example_query : tensor Z := mkTensor [1; 1; 4; 1] [1; 2; 3; 4]%Z.

Definition example_long_table : tensor Z := mkTensor [6; 1] [1; 10; 100; 1000; 10000; 100000]%Z.

(** * Part III: facts *)

(** ** Row-major indexing *)

Lemma ravel_lt (s idx : list nat) :
  in_bounds s idx -> ravel s idx < numel s.
Proof.
  unfold in_bounds. intros H. induction H as [|i d idx s Hlt _ IH]; simpl.
  - lia.
  - nia.
Qed.

Lemma unravel_ravel (s idx : list nat) :
  in_bounds s idx -> unravel s (ravel s idx) = idx.
Proof.
  unfold in_bounds. intros H. induction H as [|i d idx s Hlt Hrest IH]; simpl.
  - reflexivity.
  - pose proof (ravel_lt Hrest) as Hr.
    assert (Hn : numel s <> 0) by lia.
    assert (Hq : (i * numel s + ravel s idx) / numel s = i).
    { rewrite Nat.div_add_l by exact Hn. rewrite Nat.div_small by exact Hr. lia. }
    assert (Hm : (i * numel s + ravel s idx) mod numel s = ravel s idx).
    { rewrite Nat.add_comm, Nat.Div0.mod_add. now apply Nat.mod_small. }
    now rewrite Hq, Hm, IH.
Qed.

Lemma nth_map_seq (A : Type) (f : nat -> A) (n k : nat) (d : A) :
  k < n -> nth k (map f (seq 0 n)) d = f k.
Proof.
  intros Hk. rewrite (nth_indep _ d (f 0)) by now rewrite length_map, length_seq.
  now rewrite map_nth, seq_nth.
Qed.

Section TensorFacts.

Variable T : Type.
Variable zero : T.

Lemma get_tabulate (s idx : list nat) (f : list nat -> T) :
  in_bounds s idx -> get zero (tabulate s f) idx = f idx.
Proof.
  intros H. unfold get, tabulate; simpl.
  rewrite nth_map_seq by now apply ravel_lt.
  now rewrite unravel_ravel.
Qed.

Lemma wf_tabulate (s : list nat) (f : list nat -> T) : wf (tabulate s f).
Proof. unfold wf, tabulate; simpl. now rewrite length_map, length_seq. Qed.

End TensorFacts.

Ltac bounds :=
  unfold in_bounds; repeat (apply Forall2_cons || apply Forall2_nil); try lia.

Section RelToAbsFacts.

Variable T : Type.
Variable zero : T.

Lemma concat_eq (a b : tensor T) (axis : nat) :
  (axis <? length (shape a)) && same_except axis (shape a) (shape b) = true ->
  concat zero a b axis =
  Some (tabulate (set_nth axis (nth axis (shape a) 0 + nth axis (shape b) 0) (shape a))
          (fun idx =>
             let j := nth axis idx 0 in
             if j <? nth axis (shape a) 0 then get zero a idx
             else get zero b (set_nth axis (j - nth axis (shape a) 0) idx))).
Proof. intros H. unfold concat. now rewrite H. Qed.

Lemma reshape_eq (t : tensor T) (s : list nat) :
  numel s = numel (shape t) -> reshape t s = Some (mkTensor s (data t)).
Proof. intros H. unfold reshape. now rewrite H, Nat.eqb_refl. Qed.

Lemma get_reshaped (t : tensor T) (s' idx' idx : list nat) :
  ravel s' idx' = ravel (shape t) idx ->
  get zero (mkTensor s' (data t)) idx' = get zero t idx.
Proof. intros H. unfold get; simpl. now rewrite H. Qed.

(** What [rel_to_abs] returns on a tensor of shape (B, N, L, 2L-1): a tensor
    of shape (B, N, L, L) whose entry (i, k) is the input's entry
    (i, k + L - 1 - i). *)
Lemma rel_to_abs_get (x : tensor T) (B N L : nat) :
  shape x = [B; N; L; 2 * L - 1] -> 1 <= L ->
  exists y, rel_to_abs zero x = Some y /\ shape y = [B; N; L; L] /\ wf y /\
    forall b n i k, b < B -> n < N -> i < L -> k < L ->
      get zero y [b; n; i; k] = get zero x [b; n; i; k + (L - 1) - i].
Proof.
  intros Hs HL. destruct L as [|m]; [lia|].
  unfold rel_to_abs. rewrite Hs.
  rewrite concat_eq; rewrite Hs.
  2:{ unfold same_except; cbn. now rewrite !Nat.eqb_refl. }
  cbn [set_nth nth shape zeros].
  set (x1 := tabulate _ _).
  rewrite reshape_eq.
  2:{ subst x1. cbn [shape tabulate numel fold_right]. lia. }
  cbn [Nat.eqb].
  set (f1 := mkTensor _ _).
  rewrite concat_eq.
  2:{ subst f1. unfold same_except; cbn. now rewrite !Nat.eqb_refl. }
  cbn [set_nth nth shape zeros f1].
  set (f2 := tabulate _ _).
  rewrite reshape_eq.
  2:{ subst f2. cbn [shape tabulate numel fold_right]. lia. }
  set (fin := mkTensor _ _).
  unfold slice. cbn [length shape fin Nat.leb repeat app combine map Nat.sub].
  unfold slice_dim, full, upto, from. cbn [fst snd].
  eexists; split; [reflexivity|].
  assert (Hshape : [Nat.min B B - Nat.min 0 B; Nat.min N N - Nat.min 0 N;
        Nat.min (S m) (S m + 1) - Nat.min 0 (S m + 1);
        Nat.min (2 * S m - 1) (2 * S m - 1) - Nat.min (m - 0) (2 * S m - 1)]
        = [B; N; S m; S m]) by (repeat f_equal; lia).
  rewrite Hshape.
  split; [reflexivity|]. split; [apply wf_tabulate|].
  intros b n i k Hb Hn Hi Hk.
  rewrite get_tabulate by bounds.
  cbn [combine map fst snd].
  replace (b + Nat.min 0 B) with b by lia.
  replace (n + Nat.min 0 N) with n by lia.
  replace (i + Nat.min 0 (S m + 1)) with i by lia.
  replace (k + Nat.min (m - 0) (2 * S m - 1)) with (k + m) by lia.
  replace (k + (m - 0) - i) with (k + m - i) by lia.
  set (j := k + m - i). assert (Hj : i + j = k + m) by lia.
  subst fin.
  rewrite (get_reshaped f2 _ _ [b; n; i * (2 * S m) + j]).
  2:{ subst f2. cbn [shape tabulate ravel numel fold_right]. nia. }
  subst f2. rewrite get_tabulate.
  2:{ bounds. nia. }
  cbn [nth].
  replace (i * (2 * S m) + j <? S m * 2 * S m) with true
    by (symmetry; apply Nat.ltb_lt; nia).
  subst f1.
  rewrite (get_reshaped x1 _ _ [b; n; i; j]).
  2:{ subst x1. cbn [shape tabulate ravel numel fold_right]. nia. }
  subst x1. rewrite get_tabulate by bounds.
  cbn [nth].
  replace (j <? 2 * S m - 1) with true by (symmetry; apply Nat.ltb_lt; lia).
  reflexivity.
Qed.

(** The intermediate tensors of [rel_to_abs] and their shapes. *)
Lemma rel_to_abs_intermediates (x : tensor T) (B N L : nat) :
  shape x = [B; N; L; 2 * L - 1] -> 1 <= L ->
  exists padded flat_x flat_padded final_x y,
    concat zero x (zeros zero [B; N; L; 1]) 3 = Some padded /\
    shape padded = [B; N; L; 2 * L] /\
    reshape padded [B; N; L * 2 * L] = Some flat_x /\
    concat zero flat_x (zeros zero [B; N; L - 1]) 2 = Some flat_padded /\
    shape flat_padded = [B; N; (L + 1) * (2 * L - 1)] /\
    reshape flat_padded [B; N; L + 1; 2 * L - 1] = Some final_x /\
    slice zero final_x [full; full; upto L; from (L - 1)] = Some y /\
    rel_to_abs zero x = Some y.
Proof.
  intros Hs HL.
  assert (H1 : exists padded, concat zero x (zeros zero [B; N; L; 1]) 3 = Some padded /\
                 shape padded = [B; N; L; 2 * L]).
  { rewrite concat_eq; rewrite Hs.
    2:{ unfold same_except; cbn. now rewrite !Nat.eqb_refl. }
    eexists. split; [reflexivity|]. cbn [shape tabulate set_nth nth zeros].
    replace (2 * L - 1 + 1) with (2 * L) by lia. reflexivity. }
  destruct H1 as (padded & H1 & S1).
  assert (H2 : reshape padded [B; N; L * 2 * L] = Some (mkTensor [B; N; L * 2 * L] (data padded))).
  { apply reshape_eq. rewrite S1. cbn [numel fold_right]. lia. }
  set (flat_x := mkTensor [B; N; L * 2 * L] (data padded)) in *.
  assert (H3 : exists flat_padded,
                 concat zero flat_x (zeros zero [B; N; L - 1]) 2 = Some flat_padded /\
                 shape flat_padded = [B; N; (L + 1) * (2 * L - 1)]).
  { rewrite concat_eq.
    2:{ unfold same_except; cbn. now rewrite !Nat.eqb_refl. }
    eexists. split; [reflexivity|]. cbn [shape tabulate set_nth nth zeros flat_x].
    replace (L * 2 * L + (L - 1)) with ((L + 1) * (2 * L - 1)) by nia. reflexivity. }
  destruct H3 as (flat_padded & H3 & S3).
  assert (H4 : reshape flat_padded [B; N; L + 1; 2 * L - 1]
               = Some (mkTensor [B; N; L + 1; 2 * L - 1] (data flat_padded))).
  { apply reshape_eq. rewrite S3. cbn [numel fold_right]. lia. }
  set (final_x := mkTensor [B; N; L + 1; 2 * L - 1] (data flat_padded)) in *.
  assert (H5 : exists y, slice zero final_x [full; full; upto L; from (L - 1)] = Some y).
  { unfold slice. cbn [length shape final_x Nat.leb]. eexists. reflexivity. }
  destruct H5 as (y & H5).
  exists padded, flat_x, flat_padded, final_x, y.
  repeat split; try assumption.
  unfold rel_to_abs. rewrite Hs, H1, H2.
  replace (L =? 0) with false by (symmetry; apply Nat.eqb_neq; lia).
  now rewrite H3, H4.
Qed.


End RelToAbsFacts.

Section BlockFacts.

Variable T : Type.
Variable zero : T.

Lemma length_concat_uniform (w : nat) (ll : list (list T)) :
  Forall (fun r => length r = w) ll -> length (List.concat ll) = length ll * w.
Proof.
  induction 1 as [|r ll Hr _ IH]; simpl; [reflexivity|].
  rewrite length_app, IH, Hr. reflexivity.
Qed.

Lemma nth_concat_uniform (w : nat) (ll : list (list T)) (i j : nat) (d : T) :
  Forall (fun r => length r = w) ll -> j < w ->
  nth (i * w + j) (List.concat ll) d = nth j (nth i ll []) d.
Proof.
  intros H Hj. revert i. induction H as [|r ll Hr _ IH]; intros i.
  - simpl. now destruct (i * w + j), i, j.
  - destruct i as [|i]; simpl.
    + apply app_nth1. lia.
    + rewrite <- Hr at 1. rewrite <- Nat.add_assoc, app_nth2_plus. apply IH.
Qed.

Lemma block_rows (t : tensor T) (B N L W b n : nat) :
  shape t = [B; N; L; W] ->
  block zero t b n = map (fun i => map (fun k => get zero t [b; n; i; k]) (seq 0 W)) (seq 0 L).
Proof. intros Hs. unfold block, vec. now rewrite Hs. Qed.

Lemma nth_block (t : tensor T) (B N L W b n i k : nat) :
  shape t = [B; N; L; W] -> i < L -> k < W ->
  nth k (nth i (block zero t b n) []) zero = get zero t [b; n; i; k].
Proof.
  intros Hs Hi Hk. rewrite block_rows with (1 := Hs).
  rewrite nth_map_seq by exact Hi. rewrite nth_map_seq by exact Hk. reflexivity.
Qed.

Lemma block_widths (t : tensor T) (B N L W b n : nat) :
  shape t = [B; N; L; W] ->
  length (block zero t b n) = L /\ Forall (fun r => length r = W) (block zero t b n).
Proof.
  intros Hs. rewrite block_rows with (1 := Hs). split.
  - now rewrite length_map, length_seq.
  - apply Forall_forall. intros r Hr. apply in_map_iff in Hr.
    destruct Hr as [i [<- _]]. now rewrite length_map, length_seq.
Qed.

End BlockFacts.

Section RelToAbsClaims.

Variable T : Type.
Variable zero : T.

Lemma firstn_seq_min (n a m : nat) :
  firstn n (seq a m) = seq a (Nat.min n m).
Proof.
  revert a m. induction n as [|n IH]; intros a [|m]; simpl; try reflexivity.
  now rewrite IH.
Qed.

Lemma steps_entry (L : nat) (rows : list (list T)) (i k : nat) :
  1 <= L -> length rows = L -> Forall (fun r => length r = 2 * L - 1) rows ->
  i < L -> k < L ->
  nth k (nth i (rel_to_abs_steps zero L rows) []) zero =
  nth (k + (L - 1) - i) (nth i rows []) zero.
Proof.
  intros HL Hlen Hw Hi Hk. destruct L as [|m]; [lia|].
  unfold rel_to_abs_steps, window, regrid.
  rewrite skipn_O, firstn_map, firstn_seq_min.
  replace (Nat.min (S m - 1 + 1 - 0) (S m + 1)) with (S m) by lia.
  rewrite map_map.
  rewrite (nth_indep _ [] (firstn 0 [])) by now rewrite length_map, length_seq.
  rewrite nth_map_seq by exact Hi.
  rewrite nth_firstn, nth_skipn, nth_firstn, nth_skipn.
  replace (k <? 2 * S m - 2 + 1 - (S m - 1)) with true
    by (symmetry; apply Nat.ltb_lt; lia).
  replace (S m - 1 + k <? 2 * S m - 1) with true
    by (symmetry; apply Nat.ltb_lt; lia).
  assert (Hpad : Forall (fun r => length r = 2 * S m) (append_zero_column zero rows)).
  { unfold append_zero_column. apply Forall_map.
    eapply Forall_impl; [|exact Hw]. intros r Hr. simpl in Hr.
    rewrite length_app, Hr. simpl. lia. }
  unfold append_zeros, flatten_rows.
  set (j := k + (S m - 1) - i). assert (Hj : i + j = k + m) by lia.
  replace (i * (2 * S m - 1) + (S m - 1 + k)) with (i * (2 * S m) + j) by nia.
  rewrite app_nth1.
  2:{ rewrite length_concat_uniform with (1 := Hpad).
      unfold append_zero_column. rewrite length_map, Hlen. nia. }
  rewrite nth_concat_uniform with (1 := Hpad) by lia.
  unfold append_zero_column.
  rewrite (nth_indep _ [] ([] ++ [zero])) by (rewrite length_map; lia).
  rewrite map_nth with (f := fun r => r ++ [zero]).
  apply app_nth1.
  assert (Hr : forall d, length (nth i rows d) = 2 * S m - 1).
  { intros d. apply (proj1 (Forall_nth _ rows) Hw). lia. }
  rewrite Hr. lia.
Qed.

Lemma steps_sizes (L : nat) (rows : list (list T)) :
  1 <= L -> length rows = L -> Forall (fun r => length r = 2 * L - 1) rows ->
  Forall (fun r => length r = 2 * L) (append_zero_column zero rows) /\
  length (flatten_rows (append_zero_column zero rows)) = L * (2 * L) /\
  length (append_zeros zero (L - 1) (flatten_rows (append_zero_column zero rows)))
    = (L + 1) * (2 * L - 1).
Proof.
  intros HL Hlen Hw.
  assert (Hpad : Forall (fun r => length r = 2 * L) (append_zero_column zero rows)).
  { unfold append_zero_column. apply Forall_map.
    eapply Forall_impl; [|exact Hw]. intros r Hr. simpl in Hr.
    rewrite length_app, Hr. simpl. lia. }
  assert (Hflat : length (flatten_rows (append_zero_column zero rows)) = L * (2 * L)).
  { unfold flatten_rows. rewrite length_concat_uniform with (1 := Hpad).
    unfold append_zero_column. now rewrite length_map, Hlen. }
  repeat split; try assumption.
  unfold append_zeros. rewrite length_app, repeat_length, Hflat. nia.
Qed.

Lemma steps_shape (L : nat) (rows : list (list T)) :
  1 <= L -> length rows = L -> Forall (fun r => length r = 2 * L - 1) rows ->
  length (rel_to_abs_steps zero L rows) = L /\
  Forall (fun r => length r = L) (rel_to_abs_steps zero L rows).
Proof.
  intros HL Hlen Hw.
  destruct (steps_sizes HL Hlen Hw) as (_ & _ & Hflat).
  unfold rel_to_abs_steps, window, regrid.
  rewrite skipn_O, firstn_map, firstn_seq_min, map_map.
  replace (Nat.min (L - 1 + 1 - 0) (L + 1)) with L by lia.
  split; [now rewrite length_map, length_seq|].
  apply Forall_forall. intros r Hr. apply in_map_iff in Hr.
  destruct Hr as [i [<- Hi]]. apply in_seq in Hi.
  rewrite length_firstn, length_skipn, length_firstn, length_skipn, Hflat.
  assert ((L + 1) * (2 * L - 1) - i * (2 * L - 1) >= 2 * L - 1) by nia.
  lia.
Qed.

(** C1: on every input of shape (B, N, L, 2L-1), [rel_to_abs] goes through
    the steps of the specification: one zero column appended (width 2L),
    the last two axes flattened (length L*2L), L-1 zeros appended (length
    (L+1)(2L-1)), the result laid out as (L+1, 2L-1), rows 0..L-1 and
    columns L-1..2L-2 kept.  The result has shape (B, N, L, L), and each of
    its (b, n) blocks is what these steps, written on the rows of a block,
    give on that block of the input. *)
Theorem rel_to_abs_follows_steps (x : tensor T) (B N L : nat) :
  shape x = [B; N; L; 2 * L - 1] -> 1 <= L ->
  exists padded flat_x flat_padded final_x y,
    concat zero x (zeros zero [B; N; L; 1]) 3 = Some padded /\
    shape padded = [B; N; L; 2 * L] /\
    reshape padded [B; N; L * 2 * L] = Some flat_x /\
    concat zero flat_x (zeros zero [B; N; L - 1]) 2 = Some flat_padded /\
    shape flat_padded = [B; N; (L + 1) * (2 * L - 1)] /\
    reshape flat_padded [B; N; L + 1; 2 * L - 1] = Some final_x /\
    slice zero final_x [full; full; upto L; from (L - 1)] = Some y /\
    rel_to_abs zero x = Some y /\
    shape y = [B; N; L; L] /\ wf y /\
    forall b n, b < B -> n < N ->
      Forall (fun r => length r = 2 * L) (append_zero_column zero (block zero x b n)) /\
      length (flatten_rows (append_zero_column zero (block zero x b n))) = L * (2 * L) /\
      length (append_zeros zero (L - 1)
                (flatten_rows (append_zero_column zero (block zero x b n))))
        = (L + 1) * (2 * L - 1) /\
      block zero y b n = rel_to_abs_steps zero L (block zero x b n).
Proof.
  intros Hs HL.
  destruct (rel_to_abs_intermediates zero x Hs HL)
    as (padded & flat_x & flat_padded & final_x & y & H1 & S1 & H2 & H3 & S3 & H4 & H5 & Hy).
  destruct (rel_to_abs_get zero x Hs HL) as (y' & Hy' & Hsy & Hwf & Hget).
  assert (y' = y) by congruence. subst y'.
  exists padded, flat_x, flat_padded, final_x, y.
  repeat split; try assumption.
  all: destruct (block_widths zero x b n Hs) as [Hlen Hw].
  1-3: now apply (steps_sizes HL Hlen Hw).
  destruct (block_widths zero y b n Hsy) as [Hleny Hwy].
  destruct (steps_shape HL Hlen Hw) as [Hlens Hws].
  apply nth_ext with (d := []) (d' := []); [congruence|].
  intros i Hi. rewrite Hleny in Hi.
  assert (Hri : length (nth i (block zero y b n) []) = L)
    by (apply (proj1 (Forall_nth _ _) Hwy); lia).
  assert (Hsi : length (nth i (rel_to_abs_steps zero L (block zero x b n)) []) = L)
    by (apply (proj1 (Forall_nth _ _) Hws); lia).
  apply nth_ext with (d := zero) (d' := zero); [congruence|].
  intros k Hk. rewrite Hri in Hk.
  rewrite steps_entry by assumption.
  rewrite nth_block with (1 := Hsy) by assumption.
  rewrite nth_block with (1 := Hs) by lia.
  now apply Hget.
Qed.

End RelToAbsClaims.

Section OneHotClaim.

Variable T : Type.
Variable zero one : T.

(** C2, amended: a one-hot input with its one at (b, n, i, j) is converted
    to a tensor that has the one at (b, n, i, k) for the column k with
    k + (L - 1) = i + j, when there is such a column below L, and zero
    everywhere else. *)
Theorem rel_to_abs_one_hot (B N L b n i j : nat) :
  1 <= L ->
  exists y,
    rel_to_abs zero (one_hot zero one [B; N; L; 2 * L - 1] [b; n; i; j]) = Some y /\
    shape y = [B; N; L; L] /\
    forall b' n' i' k', b' < B -> n' < N -> i' < L -> k' < L ->
      get zero y [b'; n'; i'; k'] =
      if (b' =? b) && (n' =? n) && (i' =? i) && (k' + (L - 1) =? i + j)
      then one else zero.
Proof.
  intros HL.
  destruct (@rel_to_abs_get T zero (one_hot zero one [B; N; L; 2 * L - 1] [b; n; i; j]) B N L)
    as (y & Hy & Hsy & _ & Hget); [reflexivity | exact HL |].
  exists y. repeat split; try assumption.
  intros b' n' i' k' Hb Hn Hi Hk.
  rewrite Hget by assumption.
  unfold one_hot. rewrite get_tabulate by bounds.
  cbn [list_eqb].
  destruct (Nat.eqb_spec b' b), (Nat.eqb_spec n' n), (Nat.eqb_spec i' i);
    cbn [andb]; try reflexivity.
  subst. rewrite andb_true_r.
  destruct (Nat.eqb_spec (k' + (L - 1) - i) j), (Nat.eqb_spec (k' + (L - 1)) (i + j));
    try reflexivity; lia.
Qed.

End OneHotClaim.

(** C2 as the specification states it fails: with L = 3 the one at
    (0, 0, 1, 1) has i + L - 1 - j = 2, and the output has its one at
    (0, 0, 1, 0) and a zero at (0, 0, 1, 2). *)
Lemma rel_to_abs_one_hot_not_at_expected :
  exists y,
    rel_to_abs 0%Z (one_hot 0%Z 1%Z [1; 1; 3; 5] [0; 0; 1; 1]) = Some y /\
    1 + 3 - 1 - 1 = 2 /\
    get 0%Z y [0; 0; 1; 2] = 0%Z /\
    get 0%Z y [0; 0; 1; 0] = 1%Z.
Proof. eexists. repeat split. Qed.

Ltac nonzero := rewrite <- ?Nat.neq_mul_0; repeat split; lia.

Section RelativeLogitsFacts.

Variable T : Type.
Variable zero : T.
Variable contract : list T -> list T -> T.

Lemma reshape_infer_eq (t : tensor T) (c : nat) (rest : list nat) :
  numel (shape t) = c * numel rest -> numel rest <> 0 ->
  reshape_infer t rest = Some (mkTensor (c :: rest) (data t)).
Proof.
  intros H Hp. unfold reshape_infer. rewrite H.
  rewrite Nat.Div0.mod_mul, Nat.div_mul by exact Hp.
  apply Nat.eqb_neq in Hp. now rewrite Hp.
Qed.

Lemma permute_eq (t : tensor T) (perm : list nat) :
  (length perm =? length (shape t)) &&
  forallb (fun a => existsb (Nat.eqb a) perm) (seq 0 (length (shape t))) = true ->
  permute zero t perm =
  Some (tabulate (map (fun p => nth p (shape t) 0) perm)
          (fun idx => get zero t (map (fun a => nth (index_of a perm) idx 0)
                                      (seq 0 (length (shape t)))))).
Proof. intros H. unfold permute. now rewrite H. Qed.

Lemma vec_ext (t t' : tensor T) (pre pre' : list nat) (n : nat) :
  (forall k, k < n -> get zero t (pre ++ [k]) = get zero t' (pre' ++ [k])) ->
  vec zero t pre n = vec zero t' pre' n.
Proof.
  intros H. unfold vec. apply map_ext_in. intros k Hk. apply in_seq in Hk.
  apply H. lia.
Qed.

(** Entry (x, i, y, j) of [relative_logits_1d q rel_k] pairs the query at
    (x, y) with row j + W - 1 - y of the table, whatever i is. *)
Lemma relative_logits_1d_get (q rel_k : tensor T) (B Nh H W d : nat) :
  shape q = [B; Nh; H; W; d] -> shape rel_k = [2 * W - 1; d] ->
  1 <= Nh -> 1 <= H -> 1 <= W ->
  exists r, relative_logits_1d zero contract q rel_k = Some r /\
    shape r = [B; Nh; H; H; W; W] /\
    forall b n x i y j, b < B -> n < Nh -> x < H -> i < H -> y < W -> j < W ->
      get zero r [b; n; x; i; y; j] =
      contract (vec zero q [b; n; x; y] d) (vec zero rel_k [j + (W - 1) - y] d).
Proof.
  intros Hq Hk HNh HH HW.
  unfold relative_logits_1d, einsum_bnhwd_md. rewrite Hq, Hk, Nat.eqb_refl.
  cbn [orb]. set (e := tabulate _ _).
  rewrite (@reshape_infer_eq e B).
  2:{ subst e. cbn [shape tabulate numel fold_right]. lia. }
  2:{ cbn [numel fold_right]. nonzero. }
  set (x' := mkTensor _ _).
  destruct (@rel_to_abs_get T zero x' B (Nh * H) W) as (y & Hy & Hsy & _ & Hget);
    [reflexivity | exact HW |].
  rewrite Hy.
  rewrite (@reshape_infer_eq y B).
  2:{ rewrite Hsy. cbn [numel fold_right]. lia. }
  2:{ cbn [numel fold_right]. nonzero. }
  unfold expand_dim, unsqueeze. cbn [shape length Nat.leb firstn skipn app set_nth data].
  eexists. split; [reflexivity|]. split; [reflexivity|].
  intros b n x i y0 j Hb Hn Hx Hi Hy0 Hj.
  rewrite get_tabulate by bounds.
  cbn [set_nth].
  rewrite (@get_reshaped T zero y _ _ [b; n * H + x; y0; j]).
  2:{ rewrite Hsy. cbn [ravel numel fold_right]. nia. }
  rewrite Hget; try assumption; [|nia].
  subst x'.
  rewrite (@get_reshaped T zero e _ _ [b; n; x; y0; j + (W - 1) - y0]).
  2:{ subst e. cbn [shape tabulate ravel numel fold_right]. nia. }
  subst e. rewrite get_tabulate by bounds.
  reflexivity.
Qed.

End RelativeLogitsFacts.

Section RelPosEmbFacts.

Variable T : Type.
Variable zero : T.
Variable contract : list T -> list T -> T.

(** The width logits: query (x, y) against key (i, j) reads row
    j + W - 1 - y of the width table. *)
Lemma rel_logits_w_get (self : RelPosEmb T) (q : tensor T) (B Nh H W d : nat) :
  shape q = [B; Nh; H; W; d] -> shape (rel_width self) = [2 * W - 1; d] ->
  1 <= Nh -> 1 <= H -> 1 <= W ->
  exists l, RelPosEmb_rel_logits_w zero contract self q = Some l /\
    shape l = [B; Nh; H * W; H * W] /\
    forall b n x y i j, b < B -> n < Nh -> x < H -> y < W -> i < H -> j < W ->
      get zero l [b; n; x * W + y; i * W + j] =
      contract (vec zero q [b; n; x; y] d)
               (vec zero (rel_width self) [j + (W - 1) - y] d).
Proof.
  intros Hq Hk HNh HH HW. unfold RelPosEmb_rel_logits_w.
  destruct (relative_logits_1d_get zero contract q (rel_width self) Hq Hk HNh HH HW)
    as (r & Hr & Hsr & Hget).
  rewrite Hr. unfold rearrange_xy_ij. rewrite Hsr.
  rewrite permute_eq; rewrite Hsr; [|reflexivity].
  cbn [map nth length seq index_of Nat.eqb].
  set (p := tabulate _ _).
  rewrite reshape_eq.
  2:{ subst p. cbn [shape tabulate numel fold_right]. lia. }
  eexists. split; [reflexivity|]. split; [reflexivity|].
  intros b n x y i j Hb Hn Hx Hy Hi Hj.
  rewrite (@get_reshaped T zero p _ _ [b; n; x; y; i; j]).
  2:{ subst p. cbn [shape tabulate ravel numel fold_right]. nia. }
  subst p. rewrite get_tabulate by bounds.
  cbn [nth]. now apply Hget.
Qed.

(** The height logits: query (x, y) against key (i, j) reads row
    i + H - 1 - x of the height table. *)
Lemma rel_logits_h_get (self : RelPosEmb T) (q : tensor T) (B Nh H W d : nat) :
  shape q = [B; Nh; H; W; d] -> shape (rel_height self) = [2 * H - 1; d] ->
  1 <= Nh -> 1 <= H -> 1 <= W ->
  exists l, RelPosEmb_rel_logits_h zero contract self q = Some l /\
    shape l = [B; Nh; H * W; H * W] /\
    forall b n x y i j, b < B -> n < Nh -> x < H -> y < W -> i < H -> j < W ->
      get zero l [b; n; x * W + y; i * W + j] =
      contract (vec zero q [b; n; x; y] d)
               (vec zero (rel_height self) [i + (H - 1) - x] d).
Proof.
  intros Hq Hk HNh HH HW. unfold RelPosEmb_rel_logits_h, rearrange_swap_xy.
  rewrite Hq. rewrite permute_eq; rewrite Hq; [|reflexivity].
  cbn [map nth length seq index_of Nat.eqb].
  set (qs := tabulate _ _).
  destruct (@relative_logits_1d_get T zero contract qs (rel_height self) B Nh W H d)
    as (r & Hr & Hsr & Hget); try assumption; [reflexivity|].
  rewrite Hr. unfold rearrange_yx_ji. rewrite Hsr.
  rewrite permute_eq; rewrite Hsr; [|reflexivity].
  cbn [map nth length seq index_of Nat.eqb].
  set (p := tabulate _ _).
  rewrite reshape_eq.
  2:{ subst p. cbn [shape tabulate numel fold_right]. lia. }
  eexists. split; [reflexivity|]. split; [reflexivity|].
  intros b n x y i j Hb Hn Hx Hy Hi Hj.
  rewrite (@get_reshaped T zero p _ _ [b; n; x; y; i; j]).
  2:{ subst p. cbn [shape tabulate ravel numel fold_right]. nia. }
  subst p. rewrite get_tabulate by bounds.
  cbn [nth]. rewrite Hget by assumption.
  f_equal. apply vec_ext. intros k Hk'.
  subst qs. cbn [app]. rewrite get_tabulate by bounds. reflexivity.
Qed.

End RelPosEmbFacts.

Section RelPosEmbTranspose.

Variable T : Type.
Variable zero : T.
Variable contract : list T -> list T -> T.

(** C4, amended: with height = width and equal tables, the height logits of
    a query are the transposed width logits of the query with its two grid
    axes exchanged, and the width logits are the transposed height logits
    of that exchanged query; and for a query that is the same at (x, y) and
    at (y, x), the height and the width logits of that one query are
    transposes of each other. *)
Theorem rel_logits_h_w_transposes (self : RelPosEmb T) (q : tensor T) (B Nh d : nat) :
  shape q = [B; Nh; height self; width self; d] ->
  height self = width self ->
  rel_height self = rel_width self ->
  shape (rel_width self) = [2 * width self - 1; d] ->
  1 <= Nh -> 1 <= width self ->
  exists qT lh lw lhT lwT,
    rearrange_swap_xy zero q = Some qT /\
    RelPosEmb_rel_logits_h zero contract self q = Some lh /\
    RelPosEmb_rel_logits_w zero contract self q = Some lw /\
    RelPosEmb_rel_logits_h zero contract self qT = Some lhT /\
    RelPosEmb_rel_logits_w zero contract self qT = Some lwT /\
    transposed_logits zero B Nh (width self) lh lwT /\
    transposed_logits zero B Nh (width self) lw lhT /\
    ((forall b n x y, b < B -> n < Nh -> x < width self -> y < width self ->
        vec zero q [b; n; x; y] d = vec zero q [b; n; y; x] d) ->
     transposed_logits zero B Nh (width self) lh lw).
Proof.
  intros Hq HHW Htab Hk HNh HW.
  set (W := width self) in *. rewrite HHW in Hq.
  assert (Hkh : shape (rel_height self) = [2 * W - 1; d]) by now rewrite Htab.
  destruct (rel_logits_h_get zero contract self q Hq Hkh HNh HW HW)
    as (lh & Hlh & _ & Hgh).
  destruct (rel_logits_w_get zero contract self q Hq Hk HNh HW HW)
    as (lw & Hlw & _ & Hgw).
  assert (HqT : exists qT, rearrange_swap_xy zero q = Some qT /\
            shape qT = [B; Nh; W; W; d] /\
            forall b n x y, b < B -> n < Nh -> x < W -> y < W ->
              vec zero qT [b; n; y; x] d = vec zero q [b; n; x; y] d).
  { unfold rearrange_swap_xy. rewrite Hq.
    rewrite permute_eq; rewrite Hq; [|reflexivity].
    cbn [map nth length seq index_of Nat.eqb].
    eexists. split; [reflexivity|]. split; [reflexivity|].
    intros b n x y Hb Hn Hx Hy. apply vec_ext. intros k Hk'.
    cbn [app]. rewrite get_tabulate by bounds. reflexivity. }
  destruct HqT as (qT & HqT & HsT & HvT).
  destruct (rel_logits_h_get zero contract self qT HsT Hkh HNh HW HW)
    as (lhT & HlhT & _ & GhT).
  destruct (rel_logits_w_get zero contract self qT HsT Hk HNh HW HW)
    as (lwT & HlwT & _ & GwT).
  exists qT, lh, lw, lhT, lwT. repeat split; try assumption.
  - intros b n x y i j Hb Hn Hx Hy Hi Hj.
    rewrite Hgh, GwT by assumption. rewrite HvT by assumption.
    now rewrite Htab.
  - intros b n x y i j Hb Hn Hx Hy Hi Hj.
    rewrite Hgw, GhT by assumption. rewrite HvT by assumption.
    now rewrite Htab.
  - intros Hsym b n x y i j Hb Hn Hx Hy Hi Hj.
    rewrite Hgh by assumption. rewrite (Hgw b n y x j i) by assumption.
    rewrite (Hsym b n x y) by assumption. now rewrite Htab.
Qed.

End RelPosEmbTranspose.

(** C4 as stated fails: for the 2 x 2 query grid (1 2 / 3 4) and the table
    (1, 10, 100) used for both axes, the height logit of query (0, 1) against
    key (0, 0) is 20 and the width logit of query (1, 0) against key (0, 0)
    is 30. *)
Lemma rel_logits_not_transposes_of_each_other :
  exists lh lw,
    height example_emb = width example_emb /\
    rel_height example_emb = rel_width example_emb /\
    RelPosEmb_rel_logits_h 0%Z zdot example_emb example_grid = Some lh /\
    RelPosEmb_rel_logits_w 0%Z zdot example_emb example_grid = Some lw /\
    get 0%Z lh [0; 0; 0 * 2 + 1; 0 * 2 + 0] = 20%Z /\
    get 0%Z lw [0; 0; 1 * 2 + 0; 0 * 2 + 0] = 30%Z.
Proof.
  eexists. eexists.
  split; [reflexivity|]. split; [reflexivity|].
  split; [vm_compute; reflexivity|]. split; [vm_compute; reflexivity|].
  split; reflexivity.
Qed.

Lemma rel_logits_h_w_transposes_witness :
  exists qT lh lw lhT lwT,
    rearrange_swap_xy 0%Z example_grid = Some qT /\
    RelPosEmb_rel_logits_h 0%Z zdot example_emb example_grid = Some lh /\
    RelPosEmb_rel_logits_w 0%Z zdot example_emb example_grid = Some lw /\
    RelPosEmb_rel_logits_h 0%Z zdot example_emb qT = Some lhT /\
    RelPosEmb_rel_logits_w 0%Z zdot example_emb qT = Some lwT /\
    transposed_logits 0%Z 1 1 (width example_emb) lh lwT /\
    transposed_logits 0%Z 1 1 (width example_emb) lw lhT /\
    ((forall b n x y, b < 1 -> n < 1 -> x < width example_emb -> y < width example_emb ->
        vec 0%Z example_grid [b; n; x; y] 1 = vec 0%Z example_grid [b; n; y; x] 1) ->
     transposed_logits 0%Z 1 1 (width example_emb) lh lw).
Proof.
  apply (@rel_logits_h_w_transposes Z 0%Z zdot example_emb example_grid 1 1 1);
    try reflexivity; simpl; lia.
Defined.

Section MHSAFacts.

Variable T : Type.
Variable zero : T.
Variable add mul : T -> T -> T.
Variable contract : list T -> list T -> T.
Variable softmax_row : list T -> list T.
Variable rsqrt : nat -> T.

Lemma list_eqb_refl (l : list nat) : list_eqb l l = true.
Proof. induction l; simpl; [reflexivity|]. now rewrite Nat.eqb_refl. Qed.

Lemma Conv1x1_forward_shape (c : Conv1x1 T) (x : tensor T) (B C H W : nat) :
  shape x = [B; C; H; W] -> C = in_channels c ->
  exists y, Conv1x1_forward zero contract c x = Some y /\
            shape y = [B; out_channels c; H; W].
Proof.
  intros Hs HC. unfold Conv1x1_forward. rewrite Hs, HC, Nat.eqb_refl.
  eexists. split; reflexivity.
Qed.

Lemma chunk2_shape (t : tensor T) (B C H W : nat) :
  shape t = [B; C * 2; H; W] ->
  exists a b, chunk2 zero t 1 = Some (a, b) /\
              shape a = [B; C; H; W] /\ shape b = [B; C; H; W].
Proof.
  intros Hs. unfold chunk2. rewrite Hs. cbn [nth length Nat.ltb Nat.leb andb].
  rewrite Nat.Div0.mod_mul, Nat.div_mul by lia. cbn [Nat.eqb set_nth].
  eexists. eexists. split; [reflexivity|]. split; reflexivity.
Qed.

Lemma rearrange_split_heads_shape (t : tensor T) (B h d H W : nat) :
  shape t = [B; h * d; H; W] -> 1 <= h ->
  exists y, rearrange_split_heads zero t h = Some y /\ shape y = [B; h; H * W; d].
Proof.
  intros Hs Hh. unfold rearrange_split_heads. rewrite Hs.
  replace (h =? 0) with false by (symmetry; apply Nat.eqb_neq; lia).
  rewrite (Nat.mul_comm h d), Nat.Div0.mod_mul, Nat.div_mul by lia.
  cbn [Nat.eqb negb orb].
  rewrite reshape_eq by (rewrite Hs; cbn [numel fold_right]; lia).
  rewrite permute_eq by reflexivity.
  cbn [shape map nth length seq index_of Nat.eqb].
  rewrite reshape_eq by (cbn [shape tabulate numel fold_right]; lia).
  eexists. split; reflexivity.
Qed.

Lemma rearrange_merge_heads_shape (t : tensor T) (B h d H W : nat) :
  shape t = [B; h; H * W; d] -> 1 <= H ->
  exists y, rearrange_merge_heads zero t H = Some y /\ shape y = [B; h * d; H; W].
Proof.
  intros Hs HH. unfold rearrange_merge_heads. rewrite Hs.
  replace (H =? 0) with false by (symmetry; apply Nat.eqb_neq; lia).
  rewrite (Nat.mul_comm H W), Nat.Div0.mod_mul, Nat.div_mul by lia.
  cbn [Nat.eqb negb orb].
  rewrite reshape_eq by (rewrite Hs; cbn [numel fold_right]; lia).
  rewrite permute_eq by reflexivity.
  cbn [shape map nth length seq index_of Nat.eqb].
  rewrite reshape_eq by (cbn [shape tabulate numel fold_right]; lia).
  eexists. split; reflexivity.
Qed.

Lemma RelPosEmb_forward_shape (self : RelPosEmb T) (q : tensor T) (B Nh n d : nat) :
  shape q = [B; Nh; n; d] -> n = height self * width self ->
  shape (rel_height self) = [2 * height self - 1; d] ->
  shape (rel_width self) = [2 * width self - 1; d] ->
  1 <= Nh -> 1 <= height self -> 1 <= width self ->
  exists y, RelPosEmb_forward zero add contract self q = Some y /\
            shape y = [B; Nh; n; n].
Proof.
  intros Hq Hn Hh Hw HNh HH HW.
  unfold RelPosEmb_forward, RelPosEmb_grid, rearrange_split_xy.
  rewrite Hq, Hn, Nat.eqb_refl.
  rewrite reshape_eq by (rewrite Hq, Hn; cbn [numel fold_right]; lia).
  set (g := mkTensor _ _).
  assert (Hg : shape g = [B; Nh; height self; width self; d]) by reflexivity.
  destruct (rel_logits_w_get zero contract self g Hg Hw HNh HH HW) as (lw & -> & Hsw & _).
  destruct (rel_logits_h_get zero contract self g Hg Hh HNh HH HW) as (lh & -> & Hsh & _).
  unfold tensor_add. rewrite Hsw, Hsh, list_eqb_refl.
  eexists. split; reflexivity.
Qed.

Lemma RelPosEmb_init_inv (h w d : nat) (tmp_h tmp_w : list nat -> T) (self : RelPosEmb T) :
  RelPosEmb_init h w d tmp_h tmp_w = Some self ->
  height self = h /\ width self = w /\ 1 <= h /\ 1 <= w /\ 1 <= d /\
  shape (rel_height self) = [2 * h - 1; d] /\
  shape (rel_width self) = [2 * w - 1; d].
Proof.
  unfold RelPosEmb_init.
  destruct (Nat.eqb_spec h 0), (Nat.eqb_spec w 0), (Nat.eqb_spec d 0);
    cbn [orb]; try discriminate.
  intros [= <-]. cbn [height width rel_height rel_width shape tabulate].
  rewrite (Nat.mul_comm h 2), (Nat.mul_comm w 2). repeat split; lia.
Qed.

End MHSAFacts.

Section MHSAShape.

Variable T : Type.
Variable zero : T.
Variable add mul : T -> T -> T.
Variable contract : list T -> list T -> T.
Variable softmax_row : list T -> list T.
Variable rsqrt : nat -> T.

(** C3: on every input feature map the module is built for, that is of
    shape (B, dim, H, W) with H * W = height * width, [MHSA.forward]
    returns a feature map of shape (B, heads * dim_v, H, W). *)
Theorem MHSA_forward_shape
    (dim fh fw hs dim_qk dim_v : nat)
    (w_qk w_v tmp_h tmp_w : list nat -> T) (self : MHSA T)
    (x : tensor T) (B C H W : nat) :
  MHSA_init rsqrt dim (fh, fw) hs dim_qk dim_v w_qk w_v tmp_h tmp_w
    = Some self ->
  1 <= hs ->
  shape x = [B; C; H; W] ->
  C = dim ->
  H * W = fh * fw ->
  exists y,
    MHSA_forward zero add mul contract softmax_row self x = Some y /\
    shape y = [B; hs * dim_v; H; W].
Proof.
  intros Hinit Hheads Hx HC HHW.
  unfold MHSA_init in Hinit.
  destruct (dim_qk =? 0); [discriminate|].
  destruct (RelPosEmb_init fh fw dim_qk tmp_h tmp_w) as [pe|] eqn:Hpe;
    [|discriminate].
  injection Hinit as <-.
  destruct (RelPosEmb_init_inv _ _ _ _ _ Hpe) as (Eh & Ew & Hh1 & Hw1 & Hd1 & Sh & Sw).
  unfold MHSA_forward. cbn [heads to_qk to_v pos_emb scale]. rewrite Hx.
  destruct (@Conv1x1_forward_shape T zero contract
              (mkConv1x1 dim (hs * dim_qk * 2)
                 (tabulate [hs * dim_qk * 2; dim; 1; 1] w_qk)) x B C H W Hx HC)
    as (qk & -> & Hqk).
  cbn [out_channels] in Hqk.
  destruct (@chunk2_shape T zero qk B (hs * dim_qk) H W Hqk) as (q & k & -> & Hq & Hk).
  destruct (@Conv1x1_forward_shape T zero contract
              (mkConv1x1 dim (hs * dim_v)
                 (tabulate [hs * dim_v; dim; 1; 1] w_v)) x B C H W Hx HC)
    as (v & -> & Hv).
  cbn [out_channels] in Hv.
  destruct (@rearrange_split_heads_shape T zero q B hs dim_qk H W Hq Hheads) as (q' & -> & Hq').
  destruct (@rearrange_split_heads_shape T zero k B hs dim_qk H W Hk Hheads) as (k' & -> & Hk').
  destruct (@rearrange_split_heads_shape T zero v B hs dim_v H W Hv Hheads) as (v' & -> & Hv').
  set (qs := tensor_scale mul q' (rsqrt dim_qk)).
  assert (Hqs : shape qs = [B; hs; H * W; dim_qk]) by exact Hq'.
  unfold einsum_bhxd_bhyd. rewrite Hqs, Hk', !Nat.eqb_refl. cbn [andb].
  set (logits := tabulate _ _).
  destruct (@RelPosEmb_forward_shape T zero add contract pe qs B hs (H * W) dim_qk)
    as (pos & -> & Hpos); try (rewrite ?Eh, ?Ew; assumption).
  unfold tensor_add. rewrite Hpos. subst logits. cbn [shape tabulate].
  rewrite list_eqb_refl.
  unfold einsum_bhxy_bhyd, softmax. cbn [shape tabulate]. rewrite Hv', !Nat.eqb_refl.
  cbn [andb].
  assert (HH : 1 <= H) by nia.
  apply (@rearrange_merge_heads_shape T zero _ B hs dim_v H W); [reflexivity|exact HH].
Qed.

End MHSAShape.

Lemma MHSA_forward_shape_witness :
  exists self, example_mhsa = Some self /\
  exists y,
    MHSA_forward 0%Z Z.add Z.mul zdot (fun r => r) self (zeros 0%Z [1; 3; 2; 2]) = Some y /\
    shape y = [1; 2 * 2; 2; 2].
Proof.
  eexists. split; [reflexivity|].
  eapply (@MHSA_forward_shape Z 0%Z Z.add Z.mul zdot (fun r => r) (fun _ => 1%Z)
            3 2 2 2 1 2 _ _ _ _ _ (zeros 0%Z [1; 3; 2; 2]) 1 3 2 2);
    [reflexivity | lia | reflexivity | reflexivity | reflexivity].
Defined.

Section BlockAndStack.

Variable T : Type.
Variable run_layer : Layer -> tensor T -> option (tensor T).
Variable plus : tensor T -> tensor T -> option (tensor T).

(** C5: the shortcut of a block is [nn.Identity()] exactly when
    dim = dim_out and stride = 1, and then it returns its input; otherwise
    it is the sequence 1x1 convolution, normalisation, activation; and the
    block returns activation(net(x) + shortcut(x)). *)
Theorem BoTBlock_shortcut_and_forward
    (dim : nat) (fmap_size : nat * nat)
    (dim_out stride heads proj_factor dim_qk dim_v : nat) (rel_pos_emb : bool)
    (activation blk : Layer) :
  BoTBlock_init dim fmap_size dim_out stride heads proj_factor dim_qk dim_v
    rel_pos_emb activation = Some blk ->
  (BoTBlock_shortcut blk = Identity <-> dim = dim_out /\ stride = 1) /\
  (dim = dim_out /\ stride = 1 ->
     forall x, run run_layer plus (BoTBlock_shortcut blk) x = Some x) /\
  (~ (dim = dim_out /\ stride = 1) ->
     BoTBlock_shortcut blk =
     Sequential [Conv2D dim dim_out 1 stride; BatchNorm2D dim_out; activation]) /\
  BoTBlock_activation blk = activation /\
  (forall x,
     run run_layer plus blk x =
     (shortcut <- run run_layer plus (BoTBlock_shortcut blk) x ;;
      featuremap <- run run_layer plus (BoTBlock_net blk) x ;;
      sum <- plus featuremap shortcut ;;
      run run_layer plus activation sum)).
Proof.
  unfold BoTBlock_init. intros Hinit.
  destruct (proj_factor =? 0); [discriminate|].
  destruct ((dim_qk =? 0) || (fst fmap_size =? 0) || (snd fmap_size =? 0)); [discriminate|].
  injection Hinit as <-. cbn [BoTBlock_shortcut BoTBlock_net BoTBlock_activation].
  destruct (Nat.eqb_spec dim dim_out) as [Hd|Hd], (Nat.eqb_spec stride 1) as [Hst|Hst];
    cbn [negb orb].
  - repeat split; try reflexivity; tauto.
  - repeat split; try reflexivity; try discriminate; tauto.
  - repeat split; try reflexivity; try discriminate; tauto.
  - repeat split; try reflexivity; try discriminate; tauto.
Qed.

(** C6: on a 4-D input, [BoTStack.forward] fails an assertion exactly when
    the channel count differs from [dim] or the spatial size from
    [fmap_size]; otherwise no assertion fails and the input goes through
    the blocks. *)
Theorem BoTStack_forward_asserts (self : BoTStack) (x : tensor T) (b c h w : nat) :
  shape x = [b; c; h; w] ->
  (BoTStack_forward run_layer plus self x = AssertionFailed <->
     c <> stack_dim self \/ (h, w) <> stack_fmap_size self) /\
  (c = stack_dim self /\ (h, w) = stack_fmap_size self ->
     BoTStack_forward run_layer plus self x =
     Ran (run run_layer plus (stack_net self) x)).
Proof.
  intros Hs. unfold BoTStack_forward. rewrite Hs.
  destruct (stack_fmap_size self) as [fh fw]. cbn [fst snd].
  destruct (Nat.eqb_spec c (stack_dim self)) as [Hc|Hc],
           (Nat.eqb_spec h fh) as [Hh|Hh], (Nat.eqb_spec w fw) as [Hw|Hw];
    cbn [negb andb]; (split; [split|]);
    try (intros; discriminate); try (intros; reflexivity);
    try (intros [?|?]; congruence); try (intros [? ?]; congruence).
  all: intros _; try (left; assumption); right; congruence.
Qed.

End BlockAndStack.

(** ** The configuration tree *)

Section ConfigurationFacts.

Variable literal_eval : string -> literal.

Lemma merge_value_node (f frozen : bool) (es bes : list (string * CfgTree)) :
  merge_value literal_eval (Node f es) (Node frozen bes) = merge_items literal_eval frozen es bes.
Proof.
  revert bes. induction es as [|[k v] es IH]; intros bes; [reflexivity|].
  cbn [merge_items].
  destruct (dict_get k bes) as [o|] eqn:E; [|simpl; now rewrite E].
  destruct (merge_value literal_eval v o) as [nv|e] eqn:E2.
  - rewrite <- IH. simpl. now rewrite E, E2.
  - simpl. now rewrite E, E2.
Qed.

Lemma dict_get_set_same (k : string) (v : CfgTree) (es : list (string * CfgTree)) :
  dict_get k (dict_set k v es) = Some v.
Proof.
  induction es as [|[k' v'] es IH]; simpl.
  - now rewrite String.eqb_refl.
  - destruct (String.eqb k' k) eqn:E; simpl; rewrite E; [reflexivity|exact IH].
Qed.

Lemma dict_get_set_other (k k' : string) (v : CfgTree) (es : list (string * CfgTree)) :
  k <> k' -> dict_get k' (dict_set k v es) = dict_get k' es.
Proof.
  intros Hk. induction es as [|[k0 v0] es IH]; simpl.
  - apply String.eqb_neq in Hk. now rewrite Hk.
  - destruct (String.eqb k0 k) eqn:E; simpl.
    + apply String.eqb_eq in E. subst k0.
      apply String.eqb_neq in Hk. now rewrite Hk.
    + now rewrite IH.
Qed.

Lemma _immutable_node (fl frozen : bool) (es : list (string * CfgTree)) :
  _immutable fl (Node frozen es) = Node fl (map (on_values (_immutable fl)) es).
Proof. reflexivity. Qed.

Lemma dict_get_on_values (f : CfgTree -> CfgTree) (k : string) (es : list (string * CfgTree)) :
  dict_get k (map (on_values f) es) = option_map f (dict_get k es).
Proof.
  induction es as [|[k' v'] es IH]; simpl; [reflexivity|].
  destruct (String.eqb k' k); [reflexivity|exact IH].
Qed.

Lemma dict_set_on_values (f : CfgTree -> CfgTree) (k : string) (v : CfgTree)
    (es : list (string * CfgTree)) :
  dict_set k (f v) (map (on_values f) es) = map (on_values f) (dict_set k v es).
Proof.
  induction es as [|[k' v'] es IH]; simpl; [reflexivity|].
  destruct (String.eqb k' k); simpl; [reflexivity|]. now rewrite IH.
Qed.

Lemma _immutable_twice (a b : bool) (c : CfgTree) :
  _immutable a (_immutable b c) = _immutable a c.
Proof.
  induction c as [v|frozen es IH] using CfgTree_nested_ind; [reflexivity|].
  rewrite !_immutable_node. f_equal. rewrite map_map.
  apply map_ext_Forall. eapply Forall_impl; [|exact IH].
  intros [k v] Hv. unfold on_values; simpl in *. now rewrite Hv.
Qed.

(** Merging does not look at the flags and does not change them. *)
Lemma merge_value_immutable (fl : bool) (v o : CfgTree) :
  merge_value literal_eval v (_immutable fl o)
  = rmap (_immutable fl) (merge_value literal_eval v o).
Proof.
  revert o. induction v as [x|f es IH] using CfgTree_nested_ind; intros [y|frozen bes].
  - simpl. destruct (decode literal_eval x) as [x'|]; [|reflexivity].
    now destruct (check_and_coerce x' y).
  - reflexivity.
  - reflexivity.
  - rewrite _immutable_node, !merge_value_node.
    revert bes. induction IH as [|[k v'] es Hv _ IHes]; intros bes; [reflexivity|].
    cbn [merge_items]. rewrite dict_get_on_values.
    destruct (dict_get k bes) as [o|]; [|reflexivity].
    cbn [option_map]. simpl in Hv. rewrite Hv.
    destruct (merge_value literal_eval v' o) as [nv|e]; [|reflexivity].
    cbn [rmap]. rewrite dict_set_on_values. apply IHes.
Qed.

Section MergeOrderFacts.

Variable read_yaml : string -> result yaml_doc.
Variable base_path : string -> string -> string.

Lemma merge_files_app (l1 l2 : list string) (c : CfgTree) :
  merge_files literal_eval read_yaml (l1 ++ l2) c
  = (c' <~ merge_files literal_eval read_yaml l1 c ;;
     merge_files literal_eval read_yaml l2 c').
Proof.
  revert c. induction l1 as [|f l1 IH]; intros c; simpl; [reflexivity|].
  destruct (merge_from_file literal_eval read_yaml c f); [apply IH|reflexivity].
Qed.

Lemma merge_from_file_immutable (fl : bool) (c : CfgTree) (f : string) :
  merge_from_file literal_eval read_yaml (_immutable fl c) f
  = rmap (_immutable fl) (merge_from_file literal_eval read_yaml c f).
Proof.
  unfold merge_from_file.
  destruct (read_yaml f) as [[es| |]|e]; try reflexivity; apply merge_value_immutable.
Qed.

(** What [merge_from_file] merged, when it returns. *)
Lemma merge_from_file_inv (c c' : CfgTree) (f : string) :
  merge_from_file literal_eval read_yaml c f = Ok c' ->
  exists es,
    (read_yaml f = Ok (YMapping es) \/ (read_yaml f = Ok YNull /\ es = [])) /\
    merge_value literal_eval (Node false es) c = Ok c'.
Proof.
  unfold merge_from_file. destruct (read_yaml f) as [[es| |]|e]; try discriminate.
  - intros H. exists es. split; [now left|exact H].
  - intros H. exists []. split; [now right|exact H].
Qed.

Lemma merge_files_immutable (fl : bool) (files : list string) (c : CfgTree) :
  merge_files literal_eval read_yaml files (_immutable fl c)
  = rmap (_immutable fl) (merge_files literal_eval read_yaml files c).
Proof.
  revert c. induction files as [|f files IH]; intros c; simpl; [reflexivity|].
  rewrite merge_from_file_immutable.
  destruct (merge_from_file literal_eval read_yaml c f); simpl; [apply IH|reflexivity].
Qed.

Lemma rmap_freeze_twice (r : result CfgTree) :
  rmap freeze (rmap freeze r) = rmap freeze r.
Proof. destruct r; simpl; [|reflexivity]. unfold freeze. now rewrite _immutable_twice. Qed.

Lemma fold_left_raise (A B : Type) (step : result A -> B -> result A) (l : list B)
    (e : error) :
  (forall b, step (Raise e) b = Raise e) -> fold_left step l (Raise e) = Raise e.
Proof. intros H. induction l as [|b l IH]; simpl; [reflexivity|]. now rewrite H. Qed.

(** The recursion merges the files in that order. *)
Lemma update_config_from_file_order (depth : nat) :
  forall (config : CfgTree) (cfg_file : string) (files : list string),
    merge_order read_yaml base_path depth cfg_file = Ok files ->
    _update_config_from_file literal_eval read_yaml base_path depth config cfg_file
    = rmap freeze (merge_files literal_eval read_yaml files config).
Proof.
  induction depth as [|depth IH]; intros config cfg_file files Hord; [discriminate|].
  cbn [merge_order _update_config_from_file] in *.
  destruct (read_yaml cfg_file) as [[yaml_cfg| |]|] eqn:Hread; try discriminate.
  destruct (iterate _) as [bases|]; [|discriminate].
  set (step_o := fun (acc : result (list string)) (cfg : pyval) => _) in Hord.
  set (step_u := fun (acc : result CfgTree) (cfg : pyval) => _).
  assert (Hloop : forall bs accU l0 l,
            fold_left step_o bs (Ok l0) = Ok l ->
            rmap freeze accU = rmap freeze (merge_files literal_eval read_yaml l0 config) ->
            rmap freeze (fold_left step_u bs accU)
            = rmap freeze (merge_files literal_eval read_yaml l config)).
  { induction bs as [|b bs IHbs]; intros accU l0 l Hl Hinv; cbn [fold_left] in *.
    - injection Hl as <-. exact Hinv.
    - destruct (step_o (Ok l0) b) as [l1|e] eqn:Hstep.
      2:{ rewrite fold_left_raise in Hl; [discriminate|reflexivity]. }
      apply (IHbs _ l1 l Hl).
      unfold step_o in Hstep. unfold step_u.
      destruct (truthy b).
      + destruct b as [| | | |p| |]; try discriminate.
        destruct (merge_order read_yaml base_path depth (base_path cfg_file p)) as [above|]
            eqn:Habove;
          [|discriminate].
        injection Hstep as <-. rewrite merge_files_app.
        destruct accU as [cu|e]; simpl in Hinv.
        * rewrite (IH cu _ _ Habove).
          destruct (merge_files literal_eval read_yaml l0 config) as [c1|]; [|discriminate].
          simpl in Hinv. injection Hinv as Hinv.
          rewrite rmap_freeze_twice.
          unfold freeze in *.
          rewrite <- !merge_files_immutable. now rewrite Hinv.
        * destruct (merge_files literal_eval read_yaml l0 config); [discriminate|]. exact Hinv.
      + injection Hstep as <-. destruct accU; exact Hinv. }
  destruct (fold_left step_o bases (Ok [])) as [parents|] eqn:Hparents; [|discriminate].
  injection Hord as <-.
  assert (Hinit : rmap freeze (Ok (defrost config))
                  = rmap freeze (merge_files literal_eval read_yaml [] config)).
  { simpl. unfold freeze, defrost. now rewrite _immutable_twice. }
  specialize (Hloop bases (Ok (defrost config)) [] parents Hparents Hinit).
  rewrite merge_files_app. simpl.
  destruct (fold_left step_u bases (Ok (defrost config))) as [cu|e];
    destruct (merge_files literal_eval read_yaml parents config) as [c1|e1]; simpl in Hloop;
      try discriminate.
  - injection Hloop as Hloop. unfold freeze in *.
    pose proof (merge_from_file_immutable true cu cfg_file) as Hu.
    pose proof (merge_from_file_immutable true c1 cfg_file) as H1.
    rewrite Hloop, H1 in Hu.
    destruct (merge_from_file literal_eval read_yaml cu cfg_file) as [cu'|eu];
      destruct (merge_from_file literal_eval read_yaml c1 cfg_file) as [c1'|e1];
      simpl in *; congruence.
  - exact Hloop.
Qed.

End MergeOrderFacts.

Section MergeScenario.

Variable read_yaml : string -> result yaml_doc.
Variable base_path : string -> string -> string.

(** C7: the files named by [BASE] are merged first, each after its own
    parents, and the file itself last; and when a parent sets
    DATA.BATCH_SIZE to 16 and the child that names it sets it to 32, the
    loaded configuration holds 32. *)
Theorem base_files_merged_before_child :
  (forall depth config cfg_file files,
     merge_order read_yaml base_path depth cfg_file = Ok files ->
     (exists parents, files = parents ++ [cfg_file]) /\
     _update_config_from_file literal_eval read_yaml base_path depth config cfg_file
     = rmap freeze (merge_files literal_eval read_yaml files config)) /\
  (forall depth child parent,
     child <> "" -> parent <> "" ->
     read_yaml child = Ok (YMapping (child_doc parent)) ->
     read_yaml (base_path child parent) = Ok (YMapping parent_doc) ->
     merge_order read_yaml base_path (S (S depth)) child
     = Ok [base_path child parent; child] /\
     exists config,
       get_config literal_eval read_yaml base_path (S (S depth)) (Some child) = Ok config /\
       getattr2 config "DATA" "BATCH_SIZE" = Ok (Leaf (PInt 32))).
Proof.
  split.
  - intros depth config cfg_file files Hord. split.
    + destruct depth as [|depth]; [discriminate|].
      cbn [merge_order] in Hord.
      destruct (read_yaml cfg_file) as [[yaml_cfg| |]|]; try discriminate.
      destruct (iterate _); [|discriminate].
      destruct (fold_left _ _ _) as [parents|]; [|discriminate].
      injection Hord as <-. now exists parents.
    + now apply update_config_from_file_order.
  - intros depth child parent Hchild Hparent Hrc Hrp.
    apply String.eqb_neq in Hchild, Hparent.
    assert (Hord : merge_order read_yaml base_path (S (S depth)) child
                   = Ok [base_path child parent; child]).
    { cbn [merge_order]. rewrite Hrc. cbn [child_doc dict_get String.eqb Ascii.eqb
        Bool.eqb iterate fold_left truthy]. rewrite Hparent. cbn [negb].
      rewrite Hrp. reflexivity. }
    split; [exact Hord|].
    unfold get_config. cbn [truthy]. rewrite Hchild. cbn [negb].
    rewrite (update_config_from_file_order read_yaml base_path _ _C _ Hord).
    cbn [merge_files]. unfold merge_from_file. rewrite Hrp, Hrc.
    eexists. split; reflexivity.
Qed.

End MergeScenario.

(** ** [update_config] *)

Lemma defrost_open_sections (c : CfgTree) : has_sections c -> open_sections (defrost c).
Proof.
  intros (frozen & es & fd & d & fm & m & ft & t & -> & Hd & Hm & Ht).
  unfold defrost. rewrite _immutable_node.
  exists (map (on_values (_immutable false)) es).
  exists (map (on_values (_immutable false)) d).
  exists (map (on_values (_immutable false)) m).
  exists (map (on_values (_immutable false)) t).
  rewrite !dict_get_on_values, Hd, Hm, Ht. repeat split.
Qed.

Lemma getattr_defrost (c : CfgTree) (k : string) :
  getattr (defrost c) k = rmap defrost (getattr c k).
Proof.
  destruct c as [v|frozen es]; [reflexivity|].
  unfold defrost. rewrite _immutable_node. cbn [getattr].
  rewrite dict_get_on_values. now destruct (dict_get k es).
Qed.

(** An assignment [config.NAME = v] outside the sections. *)
Lemma setattr_open (c : CfgTree) (k : string) (v : pyval) :
  open_sections c -> ~ is_section k ->
  exists c', setattr c k (Leaf v) = Ok c' /\ open_sections c' /\
    getattr c' k = Ok (Leaf v) /\
    (forall k', k' <> k -> getattr c' k' = getattr c k') /\
    (forall s n, s <> k -> getattr2 c' s n = getattr2 c s n).
Proof.
  intros (es & d & m & t & -> & Hd & Hm & Ht) Hk.
  unfold is_section in Hk. cbn [setattr].
  eexists. split; [reflexivity|]. split; [|split; [|split]].
  - exists (dict_set k (Leaf v) es), d, m, t.
    rewrite !dict_get_set_other by (intros ->; tauto). repeat split; assumption.
  - cbn [getattr]. now rewrite dict_get_set_same.
  - intros k' Hk'. cbn [getattr]. rewrite dict_get_set_other by congruence. reflexivity.
  - intros s n Hs. unfold getattr2. cbn [getattr].
    rewrite dict_get_set_other by congruence. reflexivity.
Qed.

(** An assignment [config.SECTION.NAME = v]. *)
Lemma setattr2_open (c : CfgTree) (s n : string) (v : pyval) :
  open_sections c -> is_section s ->
  exists c', setattr2 c s n (Leaf v) = Ok c' /\ open_sections c' /\
    getattr2 c' s n = Ok (Leaf v) /\
    (forall k, k <> s -> getattr c' k = getattr c k) /\
    (forall s' n', s' <> s \/ n' <> n -> getattr2 c' s' n' = getattr2 c s' n').
Proof.
  intros (es & d & m & t & -> & Hd & Hm & Ht) Hs.
  assert (Hsub : exists sub, dict_get s es = Some (Node false sub)).
  { destruct Hs as [->|[->| ->]]; eauto. }
  destruct Hsub as (sub & Hsub).
  unfold setattr2. cbn [getattr setattr]. rewrite Hsub. cbn [setattr].
  eexists. split; [reflexivity|]. split; [|split; [|split]].
  - destruct Hs as [->|[->| ->]].
    + exists (dict_set "DATA" (Node false (dict_set n (Leaf v) sub)) es),
        (dict_set n (Leaf v) sub), m, t.
      rewrite dict_get_set_same, !dict_get_set_other by discriminate. repeat split; assumption.
    + exists (dict_set "MODEL" (Node false (dict_set n (Leaf v) sub)) es),
        d, (dict_set n (Leaf v) sub), t.
      rewrite dict_get_set_same, !dict_get_set_other by discriminate. repeat split; assumption.
    + exists (dict_set "TRAIN" (Node false (dict_set n (Leaf v) sub)) es),
        d, m, (dict_set n (Leaf v) sub).
      rewrite dict_get_set_same, !dict_get_set_other by discriminate. repeat split; assumption.
  - unfold getattr2. cbn [getattr]. rewrite dict_get_set_same. cbn [getattr].
    now rewrite dict_get_set_same.
  - intros k Hk. cbn [getattr]. rewrite dict_get_set_other by congruence. reflexivity.
  - intros s' n' Hsn. unfold getattr2. cbn [getattr].
    destruct (string_dec s' s) as [->|Hne].
    + rewrite dict_get_set_same, Hsub. cbn [getattr].
      rewrite dict_get_set_other; [reflexivity|]. destruct Hsn; congruence.
    + rewrite dict_get_set_other by congruence. reflexivity.
Qed.

Lemma when_setattr_open (b : bool) (c : CfgTree) (k : string) (v : pyval) :
  open_sections c -> ~ is_section k ->
  exists c', when b (fun c => setattr c k (Leaf v)) c = Ok c' /\ open_sections c' /\
    (forall k', k' <> k -> getattr c' k' = getattr c k') /\
    (forall s n, s <> k -> getattr2 c' s n = getattr2 c s n).
Proof.
  intros Hc Hk. destruct b; cbn [when].
  - destruct (setattr_open v Hc Hk) as (c' & H1 & H2 & _ & H3 & H4). now exists c'.
  - exists c. repeat split; trivial.
Qed.

Lemma when_setattr2_open (b : bool) (c : CfgTree) (s n : string) (v : pyval) :
  open_sections c -> is_section s ->
  exists c', when b (fun c => setattr2 c s n (Leaf v)) c = Ok c' /\ open_sections c' /\
    (forall k, k <> s -> getattr c' k = getattr c k) /\
    (forall s' n', s' <> s \/ n' <> n -> getattr2 c' s' n' = getattr2 c s' n').
Proof.
  intros Hc Hs. destruct b; cbn [when].
  - destruct (setattr2_open n v Hc Hs) as (c' & H1 & H2 & _ & H3 & H4). now exists c'.
  - exists c. repeat split; trivial.
Qed.

(** [update_config_args] under the eval flag, on a configuration with the
    three sections: it returns, EVAL is True, DATA.BATCH_SIZE_EVAL is the
    batch-size argument, and AMP is False when the mixed-precision flag is
    given and otherwise what it was. *)
Lemma update_config_args_eval (config : CfgTree) (args : Args) :
  has_sections config -> args_eval args = true ->
  exists c',
    update_config_args config args = Ok c' /\
    is_frozen c' = false /\
    getattr c' "EVAL" = Ok (Leaf (PBool true)) /\
    getattr2 c' "DATA" "BATCH_SIZE_EVAL" = Ok (Leaf (int_value (args_batch_size args))) /\
    getattr c' "AMP" =
      if args_amp args then Ok (Leaf (PBool false)) else rmap defrost (getattr config "AMP").
Proof.
  intros Hsec Heval. unfold update_config_args. rewrite Heval.
  pose proof (defrost_open_sections Hsec) as H0.
  rewrite <- (getattr_defrost config "AMP").
  set (c0 := defrost config) in *. clearbody c0.
  assert (HD : is_section "DATA") by (left; reflexivity).
  assert (HM : is_section "MODEL") by (right; left; reflexivity).
  assert (HT : is_section "TRAIN") by (right; right; reflexivity).
  assert (HN : forall k, k = "NGPUS" \/ k = "EVAL" \/ k = "AMP" -> ~ is_section k).
  { intros k [->|[->| ->]] [H|[H|H]]; discriminate. }
  destruct (when_setattr2_open (truthy (str_value (args_dataset args))) "DATASET"
              (str_value (args_dataset args)) H0 HD) as (c1 & -> & H1 & G1 & _).
  destruct (when_setattr2_open (truthy (int_value (args_batch_size args))) "BATCH_SIZE"
              (int_value (args_batch_size args)) H1 HD) as (c2 & -> & H2 & G2 & _).
  destruct (when_setattr2_open (truthy (int_value (args_image_size args))) "IMAGE_SIZE"
              (int_value (args_image_size args)) H2 HD) as (c3 & -> & H3 & G3 & _).
  destruct (when_setattr2_open (truthy (str_value (args_data_path args))) "DATA_PATH"
              (str_value (args_data_path args)) H3 HD) as (c4 & -> & H4 & G4 & _).
  destruct (@when_setattr_open (truthy (int_value (args_ngpus args))) c4 "NGPUS"
              (int_value (args_ngpus args)) H4 (HN _ (or_introl eq_refl)))
    as (c5 & -> & H5 & G5 & _).
  cbn [when].
  destruct (@setattr_open c5 "EVAL" (PBool true) H5 (HN _ (or_intror (or_introl eq_refl))))
    as (c6 & -> & H6 & E6 & G6 & _).
  destruct (setattr2_open "BATCH_SIZE_EVAL" (int_value (args_batch_size args)) H6 HD)
    as (c7 & -> & H7 & B7 & G7 & _).
  destruct (when_setattr2_open (truthy (str_value (args_pretrained args))) "PRETRAINED"
              (str_value (args_pretrained args)) H7 HM) as (c8 & -> & H8 & G8 & F8).
  destruct (when_setattr2_open (truthy (str_value (args_resume args))) "RESUME"
              (str_value (args_resume args)) H8 HM) as (c9 & -> & H9 & G9 & F9).
  destruct (when_setattr2_open (truthy (int_value (args_last_epoch args))) "LAST_EPOCH"
              (int_value (args_last_epoch args)) H9 HT) as (c10 & -> & H10 & G10 & F10).
  assert (E10 : getattr c10 "EVAL" = Ok (Leaf (PBool true))).
  { rewrite G10, G9, G8, G7 by discriminate. exact E6. }
  assert (B10 : getattr2 c10 "DATA" "BATCH_SIZE_EVAL"
                = Ok (Leaf (int_value (args_batch_size args)))).
  { rewrite F10, F9, F8 by (left; discriminate). exact B7. }
  assert (A10 : getattr c10 "AMP" = getattr c0 "AMP").
  { rewrite G10, G9, G8, G7, G6, G5, G4, G3, G2, G1 by discriminate. reflexivity. }
  destruct (args_amp args); cbn [when].
  - rewrite E10.
    destruct (@setattr_open c10 "AMP" (PBool false) H10 (HN _ (or_intror (or_intror eq_refl))))
      as (c11 & -> & H11 & A11 & G11 & F11).
    exists c11. split; [reflexivity|].
    destruct H11 as (es & _ & _ & _ & -> & _).
    repeat split; try assumption.
    + rewrite G11 by discriminate. exact E10.
    + rewrite F11 by discriminate. exact B10.
  - exists c10. split; [reflexivity|].
    destruct H10 as (es & d & m & t & -> & Hrest).
    repeat split; assumption.
Qed.

Lemma merge_items_is_node (frozen : bool) (es bes : list (string * CfgTree)) (r : CfgTree) :
  merge_items literal_eval frozen es bes = Ok r -> exists bes', r = Node frozen bes'.
Proof.
  revert bes. induction es as [|[k v] es IH]; intros bes; cbn [merge_items].
  - intros [= <-]. now exists bes.
  - destruct (dict_get k bes) as [o|]; [|discriminate].
    destruct (merge_value literal_eval v o) as [nv|]; [|discriminate]. apply IH.
Qed.

(** Merging leaves a node a node and a value a value. *)
Lemma merge_value_kind (v o r : CfgTree) :
  merge_value literal_eval v o = Ok r -> is_node r = is_node o.
Proof.
  destruct v as [x|f es], o as [y|frozen bes]; try discriminate.
  - simpl. destruct (decode literal_eval x) as [x'|]; [|discriminate].
    destruct (check_and_coerce x' y); [|discriminate]. now intros [= <-].
  - rewrite merge_value_node. intros H.
    destruct (merge_items_is_node _ _ _ H) as (bes' & ->). reflexivity.
Qed.

Lemma merge_items_kinds (frozen : bool) (es bes bes' : list (string * CfgTree)) :
  merge_items literal_eval frozen es bes = Ok (Node frozen bes') ->
  forall k, option_map is_node (dict_get k bes') = option_map is_node (dict_get k bes).
Proof.
  revert bes. induction es as [|[k0 v] es IH]; intros bes; cbn [merge_items].
  - now intros [= <-].
  - destruct (dict_get k0 bes) as [o|] eqn:Ho; [|discriminate].
    destruct (merge_value literal_eval v o) as [nv|] eqn:Hnv; [|discriminate].
    intros H k. rewrite (IH _ H k).
    destruct (string_dec k0 k) as [->|Hne].
    + rewrite dict_get_set_same, Ho. cbn [option_map]. f_equal.
      now apply merge_value_kind with (v := v).
    + now rewrite dict_get_set_other.
Qed.

Lemma has_sections_kinds (c : CfgTree) :
  has_sections c <->
  exists frozen es, c = Node frozen es /\
    forall s, is_section s -> option_map is_node (dict_get s es) = Some true.
Proof.
  split.
  - intros (frozen & es & fd & d & fm & m & ft & t & -> & Hd & Hm & Ht).
    exists frozen, es. split; [reflexivity|].
    intros s [->|[->| ->]]; [rewrite Hd|rewrite Hm|rewrite Ht]; reflexivity.
  - intros (frozen & es & -> & H).
    assert (Hn : forall s, is_section s -> exists f x, dict_get s es = Some (Node f x)).
    { intros s Hs. specialize (H s Hs).
      destruct (dict_get s es) as [[v|f x]|]; try discriminate. eauto. }
    destruct (Hn "DATA" (or_introl eq_refl)) as (fd & d & Hd).
    destruct (Hn "MODEL" (or_intror (or_introl eq_refl))) as (fm & m & Hm).
    destruct (Hn "TRAIN" (or_intror (or_intror eq_refl))) as (ft & t & Ht).
    exists frozen, es, fd, d, fm, m, ft, t. repeat split; assumption.
Qed.

Lemma _immutable_has_sections (fl : bool) (c : CfgTree) :
  has_sections c -> has_sections (_immutable fl c).
Proof.
  rewrite !has_sections_kinds. intros (frozen & es & -> & H).
  rewrite _immutable_node. eexists. eexists. split; [reflexivity|].
  intros s Hs. rewrite dict_get_on_values, <- (H s Hs).
  destruct (dict_get s es) as [[v|f x]|]; reflexivity.
Qed.

Section FilePhase.

Variable read_yaml : string -> result yaml_doc.
Variable base_path : string -> string -> string.

Lemma merge_from_file_has_sections (c c' : CfgTree) (f : string) :
  has_sections c -> merge_from_file literal_eval read_yaml c f = Ok c' -> has_sections c'.
Proof.
  rewrite !has_sections_kinds. intros (frozen & es & -> & H).
  intros Hm. apply merge_from_file_inv in Hm. destruct Hm as (ys & _ & Hm).
  rewrite merge_value_node in Hm.
  destruct (merge_items_is_node _ _ _ Hm) as (bes' & ->).
  exists frozen, bes'. split; [reflexivity|].
  intros s Hs. rewrite (merge_items_kinds _ _ Hm). now apply H.
Qed.

(** Loading a file keeps the three sections. *)
Lemma update_config_from_file_has_sections (depth : nat) :
  forall (config c : CfgTree) (cfg_file : string),
    has_sections config ->
    _update_config_from_file literal_eval read_yaml base_path depth config cfg_file = Ok c ->
    has_sections c.
Proof.
  induction depth as [|depth IH]; intros config c cfg_file Hsec; [discriminate|].
  cbn [_update_config_from_file].
  destruct (read_yaml cfg_file) as [[yaml_cfg| |]|]; try discriminate.
  destruct (iterate _) as [bases|]; [|discriminate].
  set (step := fun (acc : result CfgTree) (cfg : pyval) => _).
  assert (Hloop : forall bs acc,
            (forall c0, acc = Ok c0 -> has_sections c0) ->
            forall c1, fold_left step bs acc = Ok c1 -> has_sections c1).
  { induction bs as [|b bs IHbs]; intros acc Hacc c1; cbn [fold_left].
    - apply Hacc.
    - apply IHbs. intros c0. unfold step.
      destruct acc as [ca|]; [|discriminate].
      specialize (Hacc ca eq_refl).
      destruct (truthy b).
      + destruct b; try discriminate. now apply IH.
      + now intros [= <-]. }
  destruct (fold_left step bases (Ok (defrost config))) as [c1|] eqn:Hfold; [|discriminate].
  assert (H1 : has_sections c1).
  { apply (Hloop bases (Ok (defrost config))); [|exact Hfold].
    intros c0 [= <-]. now apply _immutable_has_sections. }
  destruct (merge_from_file literal_eval read_yaml c1 cfg_file) as [c2|] eqn:Hm; [|discriminate].
  intros [= <-]. apply _immutable_has_sections.
  now apply (merge_from_file_has_sections _ H1 Hm).
Qed.

Lemma update_config_file_has_sections (depth : nat) (config c : CfgTree) (args : Args) :
  has_sections config ->
  update_config_file literal_eval read_yaml base_path depth config args = Ok c ->
  has_sections c.
Proof.
  intros Hsec. unfold update_config_file.
  destruct (args_cfg args) as [cfg|]; [|now intros [= <-]].
  destruct (truthy (PStr cfg)); [|now intros [= <-]].
  now apply update_config_from_file_has_sections.
Qed.

(** C10: with the eval flag, [update_config] sets DATA.BATCH_SIZE_EVAL to
    the batch-size argument, and to None when that argument was not
    given. *)
Theorem update_config_eval_batch_size (depth : nat) (config c1 : CfgTree) (args : Args) :
  has_sections config ->
  update_config_file literal_eval read_yaml base_path depth config args = Ok c1 ->
  args_eval args = true ->
  exists c',
    update_config literal_eval read_yaml base_path depth config args = Ok c' /\
    getattr2 c' "DATA" "BATCH_SIZE_EVAL" = Ok (Leaf (int_value (args_batch_size args))) /\
    (args_batch_size args = None ->
     getattr2 c' "DATA" "BATCH_SIZE_EVAL" = Ok (Leaf PNone)).
Proof.
  intros Hsec Hfile Heval. unfold update_config. rewrite Hfile.
  pose proof (@update_config_file_has_sections depth config c1 args Hsec Hfile) as H1.
  destruct (@update_config_args_eval c1 args H1 Heval) as (c' & Hc' & _ & _ & Hb & _).
  exists c'. repeat split; try assumption.
  intros Hnone. now rewrite Hb, Hnone.
Qed.

End FilePhase.

Lemma setattr_frozen (c : CfgTree) (k : string) (v : CfgTree) :
  setattr (freeze c) k v = Raise AttributeError.
Proof. destruct c; reflexivity. Qed.

Lemma setattr2_frozen (c : CfgTree) (s n : string) (v : CfgTree) :
  setattr2 (freeze c) s n v = Raise AttributeError.
Proof.
  destruct c as [x|frozen es]; [reflexivity|].
  unfold setattr2, freeze. rewrite _immutable_node. cbn [getattr].
  rewrite dict_get_on_values.
  destruct (dict_get s es) as [sub|]; [|reflexivity].
  cbn [option_map]. pose proof (setattr_frozen sub n v) as H.
  unfold freeze in H. now rewrite H.
Qed.

Lemma setattr_root_open (k : string) (v c c' : CfgTree) :
  root_open c -> setattr c k v = Ok c' -> root_open c'.
Proof. intros (es & ->). cbn [setattr]. intros [= <-]. eexists; reflexivity. Qed.

Lemma setattr2_root_open (s n : string) (v c c' : CfgTree) :
  root_open c -> setattr2 c s n v = Ok c' -> root_open c'.
Proof.
  intros (es & ->). unfold setattr2.
  destruct (getattr (Node false es) s) as [sub|]; [|discriminate].
  destruct (setattr sub n v); [|discriminate].
  intros [= <-]. eexists; reflexivity.
Qed.

Lemma when_root_open (b : bool) (f : CfgTree -> result CfgTree) (c c' : CfgTree) :
  (forall x x', root_open x -> f x = Ok x' -> root_open x') ->
  root_open c -> when b f c = Ok c' -> root_open c'.
Proof.
  intros Hf Hc. destruct b; cbn [when]; [now apply Hf|]. now intros [= <-].
Qed.

(** Whatever [update_config_args] returns can be assigned to. *)
Lemma update_config_args_root_open (config c : CfgTree) (args : Args) :
  is_node config = true -> update_config_args config args = Ok c -> root_open c.
Proof.
  intros Hnode. unfold update_config_args.
  assert (H0 : root_open (defrost config)).
  { destruct config as [x|frozen es]; [discriminate|]. eexists; reflexivity. }
  set (c0 := defrost config) in *. clearbody c0.
  repeat match goal with
  | |- match when ?b ?f ?x with Ok _ => _ | Raise _ => _ end = Ok _ -> _ =>
      let y := fresh "c" in let E := fresh "E" in let Hy := fresh "H" in
      destruct (when b f x) as [y|] eqn:E; [|discriminate];
      assert (Hy : root_open y);
      [ revert E; apply when_root_open;
        [ intros x0 x1 Hx0;
          first [ apply setattr2_root_open; exact Hx0
                | apply setattr_root_open; exact Hx0
                | idtac ]
        | assumption ]
      | ]
  end.
  - destruct (setattr x0 "EVAL" (Leaf (PBool true))) as [x2|] eqn:E'; [|discriminate].
    apply setattr2_root_open. now apply (setattr_root_open _ _ Hx0 E').
  - destruct (getattr x0 "EVAL") as [[[]|]|]; try discriminate;
      try (apply setattr_root_open; exact Hx0).
    destruct b; apply setattr_root_open; exact Hx0.
  - now intros [= <-].
Qed.

Section FrozenOrOpen.

Variable read_yaml : string -> result yaml_doc.
Variable base_path : string -> string -> string.

Lemma update_config_from_file_frozen (depth : nat) (config c : CfgTree) (cfg_file : string) :
  _update_config_from_file literal_eval read_yaml base_path depth config cfg_file = Ok c ->
  exists c', c = freeze c' /\ is_node c' = true.
Proof.
  destruct depth as [|depth]; [discriminate|]. cbn [_update_config_from_file].
  destruct (read_yaml cfg_file) as [[yaml_cfg| |]|] eqn:Hread; try discriminate.
  destruct (iterate _); [|discriminate].
  destruct (fold_left _ _ _) as [c1|]; [|discriminate].
  destruct (merge_from_file literal_eval read_yaml c1 cfg_file) as [c2|] eqn:Hm; [|discriminate].
  intros [= <-]. exists c2. split; [reflexivity|].
  unfold merge_from_file in Hm. rewrite Hread in Hm.
  destruct c1 as [x|frozen es]; [discriminate|].
  rewrite merge_value_node in Hm.
  destruct (merge_items_is_node _ _ _ Hm) as (bes' & ->). reflexivity.
Qed.

(** C9, amended: what [_update_config_from_file] returns (and so what
    [get_config] returns for a file) is frozen at every node and refuses
    assignments; what [update_config] returns is not frozen and accepts
    them, and so is what [get_config] returns without a file. *)
Theorem frozen_after_file_open_after_args :
  (forall depth config cfg_file c,
     _update_config_from_file literal_eval read_yaml base_path depth config cfg_file = Ok c ->
     freeze c = c /\ is_frozen c = true /\
     (forall k v, setattr c k v = Raise AttributeError) /\
     (forall s n v, setattr2 c s n v = Raise AttributeError)) /\
  (forall depth cfg_file c,
     cfg_file <> "" ->
     get_config literal_eval read_yaml base_path depth (Some cfg_file) = Ok c ->
     is_frozen c = true) /\
  (forall depth config args c,
     is_node config = true ->
     update_config literal_eval read_yaml base_path depth config args = Ok c ->
     is_frozen c = false /\
     forall k v, exists c', setattr c k v = Ok c') /\
  (forall depth,
     get_config literal_eval read_yaml base_path depth None = Ok _C /\ is_frozen _C = false).
Proof.
  assert (Hfile : forall depth config cfg_file c,
     _update_config_from_file literal_eval read_yaml base_path depth config cfg_file = Ok c ->
     freeze c = c /\ is_frozen c = true /\
     (forall k v, setattr c k v = Raise AttributeError) /\
     (forall s n v, setattr2 c s n v = Raise AttributeError)).
  { intros depth config cfg_file c Hc.
    destruct (update_config_from_file_frozen _ _ _ Hc) as (c' & -> & Hn).
    repeat split.
    - unfold freeze. apply _immutable_twice.
    - destruct c'; [discriminate|reflexivity].
    - intros k v. apply setattr_frozen.
    - intros s n v. apply setattr2_frozen. }
  split; [exact Hfile|]. split; [|split].
  - intros depth cfg_file c Hne. unfold get_config. cbn [truthy].
    apply String.eqb_neq in Hne. rewrite Hne. cbn [negb].
    intros Hc. now apply (Hfile _ _ _ _ Hc).
  - intros depth config args c Hnode. unfold update_config.
    destruct (update_config_file literal_eval read_yaml base_path depth config args) as [c1|]
        eqn:H1;
      [|discriminate].
    assert (Hn1 : is_node c1 = true).
    { unfold update_config_file in H1.
      destruct (args_cfg args) as [cfg|]; [|now injection H1 as <-].
      destruct (truthy (PStr cfg)); [|now injection H1 as <-].
      destruct (update_config_from_file_frozen _ _ _ H1) as (c' & -> & Hn).
      now destruct c'. }
    intros Hc. destruct (@update_config_args_root_open c1 c args Hn1 Hc) as (es & ->).
    split; [reflexivity|]. intros k v. eexists; reflexivity.
  - intros depth. split; reflexivity.
Qed.

End FrozenOrOpen.

End ConfigurationFacts.

(** ** The claims on concrete inputs *)

Lemma rel_to_abs_follows_steps_witness :
  exists padded flat_x flat_padded final_x y,
    concat 0%Z example_rel (zeros 0%Z [1; 1; 3; 1]) 3 = Some padded /\
    shape padded = [1; 1; 3; 2 * 3] /\
    reshape padded [1; 1; 3 * 2 * 3] = Some flat_x /\
    concat 0%Z flat_x (zeros 0%Z [1; 1; 3 - 1]) 2 = Some flat_padded /\
    shape flat_padded = [1; 1; (3 + 1) * (2 * 3 - 1)] /\
    reshape flat_padded [1; 1; 3 + 1; 2 * 3 - 1] = Some final_x /\
    slice 0%Z final_x [full; full; upto 3; from (3 - 1)] = Some y /\
    rel_to_abs 0%Z example_rel = Some y /\
    shape y = [1; 1; 3; 3] /\ wf y /\
    forall b n, b < 1 -> n < 1 ->
      Forall (fun r => length r = 2 * 3) (append_zero_column 0%Z (block 0%Z example_rel b n)) /\
      length (flatten_rows (append_zero_column 0%Z (block 0%Z example_rel b n))) = 3 * (2 * 3) /\
      length (append_zeros 0%Z (3 - 1)
                (flatten_rows (append_zero_column 0%Z (block 0%Z example_rel b n))))
        = (3 + 1) * (2 * 3 - 1) /\
      block 0%Z y b n = rel_to_abs_steps 0%Z 3 (block 0%Z example_rel b n).
Proof.
  apply (@rel_to_abs_follows_steps Z 0%Z example_rel 1 1 3); [reflexivity | lia].
Defined.

Lemma rel_to_abs_one_hot_witness :
  exists y,
    rel_to_abs 0%Z (one_hot 0%Z 1%Z [1; 1; 3; 2 * 3 - 1] [0; 0; 1; 1]) = Some y /\
    shape y = [1; 1; 3; 3] /\
    forall b' n' i' k', b' < 1 -> n' < 1 -> i' < 3 -> k' < 3 ->
      get 0%Z y [b'; n'; i'; k'] =
      if (b' =? 0) && (n' =? 0) && (i' =? 1) && (k' + (3 - 1) =? 1 + 1)
      then 1%Z else 0%Z.
Proof.
  apply (@rel_to_abs_one_hot Z 0%Z 1%Z 1 1 3 0 0 1 1). lia.
Defined.

Lemma BoTBlock_shortcut_and_forward_witness :
  exists blk,
    BoTBlock_init 2048 (14, 14) 2048 1 4 4 128 128 true Activation = Some blk /\
    (BoTBlock_shortcut blk = Identity <-> 2048 = 2048 /\ 1 = 1) /\
    (2048 = 2048 /\ 1 = 1 ->
       forall x, run example_run_layer example_plus (BoTBlock_shortcut blk) x = Some x) /\
    (~ (2048 = 2048 /\ 1 = 1) ->
       BoTBlock_shortcut blk =
       Sequential [Conv2D 2048 2048 1 1; BatchNorm2D 2048; Activation]) /\
    BoTBlock_activation blk = Activation /\
    (forall x,
       run example_run_layer example_plus blk x =
       (shortcut <- run example_run_layer example_plus (BoTBlock_shortcut blk) x ;;
        featuremap <- run example_run_layer example_plus (BoTBlock_net blk) x ;;
        sum <- example_plus featuremap shortcut ;;
        run example_run_layer example_plus Activation sum)).
Proof.
  eexists. split; [reflexivity|].
  apply (@BoTBlock_shortcut_and_forward Z example_run_layer example_plus
           2048 (14, 14) 2048 1 4 4 128 128 true Activation).
  reflexivity.
Defined.

Lemma BoTStack_forward_asserts_witness :
  (BoTStack_forward example_run_layer example_plus example_stack (zeros 0%Z [1; 3; 2; 2])
     = AssertionFailed <->
   3 <> stack_dim example_stack \/ (2, 2) <> stack_fmap_size example_stack) /\
  (3 = stack_dim example_stack /\ (2, 2) = stack_fmap_size example_stack ->
   BoTStack_forward example_run_layer example_plus example_stack (zeros 0%Z [1; 3; 2; 2])
   = Ran (run example_run_layer example_plus (stack_net example_stack)
            (zeros 0%Z [1; 3; 2; 2]))).
Proof.
  apply (@BoTStack_forward_asserts Z example_run_layer example_plus example_stack
           (zeros 0%Z [1; 3; 2; 2]) 1 3 2 2).
  reflexivity.
Defined.

Lemma base_files_merged_before_child_witness :
  merge_order example_files example_base_path 2 "cfg/child.yaml"
  = Ok [example_base_path "cfg/child.yaml" "parent.yaml"; "cfg/child.yaml"] /\
  exists config,
    get_config example_literal_eval example_files example_base_path 2 (Some "cfg/child.yaml") =
        Ok config /\
    getattr2 config "DATA" "BATCH_SIZE" = Ok (Leaf (PInt 32)).
Proof.
  apply (proj2 (base_files_merged_before_child example_literal_eval example_files example_base_path)
           0 "cfg/child.yaml" "parent.yaml");
    [discriminate | discriminate | reflexivity | reflexivity].
Defined.

Lemma has_sections_defaults : has_sections _C.
Proof. unfold has_sections, _C. do 8 eexists. repeat split; reflexivity. Qed.

(** C8, at the input where the code misses it: with the eval flag and
    without the mixed-precision flag, a configuration file that sets AMP
    leaves AMP True, where an evaluation run is to have it False. *)
Lemma update_config_eval_keeps_file_amp :
  exists c',
    update_config example_literal_eval example_files example_base_path 5 _C eval_args = Ok c' /\
    args_eval eval_args = true /\
    getattr c' "AMP" = Ok (Leaf (PBool true)).
Proof.
  eexists. split; [vm_compute; reflexivity|]. split; reflexivity.
Qed.

(** C9 as stated fails: what [update_config] returns is not frozen, and an
    assignment to it, or into one of its sections, succeeds. *)
Lemma update_config_returns_unfrozen :
  exists c c' c'',
    update_config example_literal_eval example_files example_base_path 5 _C no_args = Ok c /\
    is_frozen c = false /\
    setattr c "SEED" (Leaf (PInt 1)) = Ok c' /\
    setattr2 c "DATA" "BATCH_SIZE" (Leaf (PInt 64)) = Ok c''.
Proof.
  eexists. eexists. eexists.
  split; [vm_compute; reflexivity|]. split; [reflexivity|].
  split; vm_compute; reflexivity.
Qed.

Lemma frozen_after_file_open_after_args_witness :
  exists c,
    _update_config_from_file example_literal_eval example_files example_base_path 5 _C
        "cfg/child.yaml" = Ok c /\
    freeze c = c /\ is_frozen c = true /\
    (forall k v, setattr c k v = Raise AttributeError) /\
    (forall s n v, setattr2 c s n v = Raise AttributeError).
Proof.
  eexists. split; [vm_compute; reflexivity|].
  apply (proj1 (frozen_after_file_open_after_args example_literal_eval example_files
      example_base_path)
           5 _C "cfg/child.yaml").
  vm_compute; reflexivity.
Defined.

Lemma update_config_eval_batch_size_witness :
  exists c1,
    update_config_file example_literal_eval example_files example_base_path 5 _C eval_args = Ok
        c1 /\
    exists c',
      update_config example_literal_eval example_files example_base_path 5 _C eval_args = Ok c' /\
      getattr2 c' "DATA" "BATCH_SIZE_EVAL"
        = Ok (Leaf (int_value (args_batch_size eval_args))) /\
      (args_batch_size eval_args = None ->
       getattr2 c' "DATA" "BATCH_SIZE_EVAL" = Ok (Leaf PNone)).
Proof.
  eexists. split; [vm_compute; reflexivity|].
  eapply (@update_config_eval_batch_size example_literal_eval example_files example_base_path 5
      _C _ eval_args
           has_sections_defaults);
    [vm_compute; reflexivity | reflexivity].
Defined.

(** * Part IV: further properties of the code *)

(** ** Loading configuration files *)

Section ConfigurationProperties.

Variable literal_eval : string -> literal.


Lemma skeleton_dict_set (k : string) (nv o : CfgTree) (bes : list (string * CfgTree)) :
  dict_get k bes = Some o -> skeleton_of nv = skeleton_of o ->
  map (fun kv => (fst kv, skeleton_of (snd kv))) (dict_set k nv bes)
  = map (fun kv => (fst kv, skeleton_of (snd kv))) bes.
Proof.
  intros Hget Hsk. induction bes as [|[k' v'] bes IH]; [discriminate|].
  simpl in *. destruct (String.eqb k' k).
  - injection Hget as ->. simpl. now rewrite Hsk.
  - simpl. now rewrite IH.
Qed.

Lemma merge_items_skeleton (frozen : bool) (es : list (string * CfgTree)) :
  Forall (fun kv => forall o r, merge_value literal_eval (snd kv) o = Ok r -> skeleton_of r =
      skeleton_of o) es ->
  forall bes r, merge_items literal_eval frozen es bes = Ok r ->
    skeleton_of r = skeleton_of (Node frozen bes).
Proof.
  induction 1 as [|[k v] es Hv _ IHes]; intros bes r; cbn [merge_items].
  - now intros [= <-].
  - destruct (dict_get k bes) as [o|] eqn:Ho; [|discriminate].
    destruct (merge_value literal_eval v o) as [nv|] eqn:Hnv; [|discriminate].
    intros H. rewrite (IHes _ _ H). simpl. f_equal.
    apply skeleton_dict_set with (o := o); [exact Ho|]. now apply Hv.
Qed.

(** Merging changes values only: the keys stay, level by level. *)
Lemma merge_value_skeleton (v o r : CfgTree) :
  merge_value literal_eval v o = Ok r -> skeleton_of r = skeleton_of o.
Proof.
  revert o r. induction v as [x|f es IH] using CfgTree_nested_ind;
    intros [y|frozen bes] r; try discriminate.
  - simpl. destruct (decode literal_eval x) as [x'|]; [|discriminate].
    destruct (check_and_coerce x' y); [|discriminate]. now intros [= <-].
  - rewrite merge_value_node. now apply merge_items_skeleton.
Qed.

Lemma _immutable_skeleton (fl : bool) (c : CfgTree) :
  skeleton_of (_immutable fl c) = skeleton_of c.
Proof.
  induction c as [v|frozen es IH] using CfgTree_nested_ind; [reflexivity|].
  simpl. f_equal. rewrite map_map. apply map_ext_Forall.
  eapply Forall_impl; [|exact IH]. intros [k v] Hv. simpl in *. now rewrite Hv.
Qed.

Lemma skeleton_dict_get (k : string) (a b : list (string * CfgTree)) :
  map (fun kv => (fst kv, skeleton_of (snd kv))) a
  = map (fun kv => (fst kv, skeleton_of (snd kv))) b ->
  option_map skeleton_of (dict_get k a) = option_map skeleton_of (dict_get k b).
Proof.
  revert b. induction a as [|[ka va] a IH]; intros [|[kb vb] b]; try discriminate;
    [reflexivity|].
  simpl. intros [= -> Hv Hrest]. destruct (String.eqb kb k); [simpl; now rewrite Hv|now apply IH].
Qed.

Lemma skeleton_getattr (a b : CfgTree) (k : string) (v : CfgTree) :
  skeleton_of a = skeleton_of b -> getattr b k = Ok v ->
  exists v', getattr a k = Ok v' /\ skeleton_of v' = skeleton_of v.
Proof.
  destruct a as [x|fa ea], b as [y|fb eb]; try discriminate.
  simpl. intros [= H]. pose proof (skeleton_dict_get k _ _ H) as Hk.
  destruct (dict_get k eb) as [vb|]; [|discriminate]. intros [= <-].
  destruct (dict_get k ea) as [va|]; [|discriminate].
  injection Hk as Hk. now exists va.
Qed.

Lemma getattr_immutable (fl : bool) (c : CfgTree) (k : string) :
  getattr (_immutable fl c) k = rmap (_immutable fl) (getattr c k).
Proof.
  destruct c as [v|frozen es]; [reflexivity|].
  rewrite _immutable_node. cbn [getattr].
  rewrite dict_get_on_values. now destruct (dict_get k es).
Qed.

Lemma getattr2_immutable (fl : bool) (c : CfgTree) (s n : string) :
  getattr2 (_immutable fl c) s n = rmap (_immutable fl) (getattr2 c s n).
Proof.
  unfold getattr2. rewrite getattr_immutable.
  destruct (getattr c s) as [sub|]; [|reflexivity]. cbn [rmap].
  apply getattr_immutable.
Qed.



(** The keys a merged mapping does not name keep what they hold. *)
Lemma merge_items_frame (frozen : bool) (k : string) (es bes bes' : list (string * CfgTree)) :
  merge_items literal_eval frozen es bes = Ok (Node frozen bes') ->
  dict_get k es = None -> dict_get k bes' = dict_get k bes.
Proof.
  revert bes. induction es as [|[k0 v] es IH]; intros bes; cbn [merge_items].
  - now intros [= <-].
  - destruct (dict_get k0 bes) as [o|]; [|discriminate].
    destruct (merge_value literal_eval v o) as [nv|]; [|discriminate].
    intros H Hk. simpl in Hk. destruct (String.eqb k0 k) eqn:E; [discriminate|].
    apply String.eqb_neq in E. rewrite (IH _ H Hk). now apply dict_get_set_other.
Qed.


(** A key the configuration does not have stops the merge. *)
Lemma merge_items_unknown (frozen : bool) (k : string) (es bes : list (string * CfgTree)) :
  In k (map fst es) -> dict_get k bes = None ->
  exists e, merge_items literal_eval frozen es bes = Raise e.
Proof.
  revert bes. induction es as [|[k0 v] es IH]; intros bes; [contradiction|].
  cbn [merge_items]. simpl. intros Hin Hk.
  destruct (dict_get k0 bes) as [o|] eqn:Ho; [|eauto].
  destruct (merge_value literal_eval v o) as [nv|e]; [|eauto].
  destruct Hin as [->|Hin]; [congruence|].
  apply IH; [exact Hin|].
  rewrite dict_get_set_other; [exact Hk|]. intros ->. congruence.
Qed.

Section LoadingFacts.

Variable read_yaml : string -> result yaml_doc.
Variable base_path : string -> string -> string.

(** What a successful load went through: the file was read, its parents
    left a configuration [c1] with the keys of the incoming one, the file
    was merged over it, and the result was frozen. *)
Lemma update_config_from_file_inv (depth : nat) :
  forall (config c : CfgTree) (cfg_file : string),
    _update_config_from_file literal_eval read_yaml base_path depth config cfg_file = Ok c ->
    skeleton_of c = skeleton_of config /\
    exists es c1 c2,
      read_yaml cfg_file = Ok (YMapping es) /\
      skeleton_of c1 = skeleton_of config /\
      merge_value literal_eval (Node false es) c1 = Ok c2 /\
      c = freeze c2.
Proof.
  induction depth as [|depth IH]; intros config c cfg_file; [discriminate|].
  cbn [_update_config_from_file].
  destruct (read_yaml cfg_file) as [[yaml_cfg| |]|] eqn:Hread; try discriminate.
  destruct (iterate _) as [bases|]; [|discriminate].
  set (step := fun (acc : result CfgTree) (cfg : pyval) => _).
  assert (Hloop : forall bs acc,
            (forall c0, acc = Ok c0 -> skeleton_of c0 = skeleton_of config) ->
            forall c1, fold_left step bs acc = Ok c1 -> skeleton_of c1 = skeleton_of config).
  { induction bs as [|b bs IHbs]; intros acc Hacc c1; cbn [fold_left].
    - apply Hacc.
    - apply IHbs. intros c0. unfold step.
      destruct acc as [ca|]; [|discriminate].
      specialize (Hacc ca eq_refl).
      destruct (truthy b).
      + destruct b; try discriminate. intros Hc0.
        rewrite (proj1 (IH _ _ _ Hc0)). exact Hacc.
      + now intros [= <-]. }
  destruct (fold_left step bases (Ok (defrost config))) as [c1|] eqn:Hfold; [|discriminate].
  assert (H1 : skeleton_of c1 = skeleton_of config).
  { apply (Hloop bases (Ok (defrost config))); [|exact Hfold].
    intros c0 [= <-]. apply _immutable_skeleton. }
  unfold merge_from_file. rewrite Hread.
  destruct (merge_value literal_eval (Node false yaml_cfg) c1) as [c2|] eqn:Hm; [|discriminate].
  intros [= <-]. split.
  - unfold freeze. rewrite _immutable_skeleton, (merge_value_skeleton _ _ Hm). exact H1.
  - exists yaml_cfg, c1, c2. repeat split; assumption.
Qed.

(** X1: loading configuration files changes values only.  Whatever
    [_update_config_from_file] returns has exactly the keys of the
    configuration it was given, in the same order and at every level, with
    sections still sections and values still values. *)
Theorem update_config_from_file_keeps_keys (depth : nat) (config c : CfgTree)
    (cfg_file : string) :
  _update_config_from_file literal_eval read_yaml base_path depth config cfg_file = Ok c ->
  skeleton_of c = skeleton_of config.
Proof. intros H. exact (proj1 (update_config_from_file_inv _ _ _ H)). Qed.

(** X2: a configuration file cannot introduce a key.  If the file names
    a top-level key the configuration does not have, loading it raises,
    whatever the recursion limit. *)
Theorem update_config_from_file_unknown_key (depth : nat) (frozen : bool)
    (entries es : list (string * CfgTree)) (cfg_file k : string) :
  read_yaml cfg_file = Ok (YMapping es) ->
  In k (map fst es) ->
  dict_get k entries = None ->
  exists e,
    _update_config_from_file literal_eval read_yaml base_path depth (Node frozen entries) cfg_file
    = Raise e.
Proof.
  intros Hread Hin Hk.
  destruct (_update_config_from_file literal_eval read_yaml base_path depth (Node frozen entries)
      cfg_file)
    as [c|e] eqn:Hc; [exfalso|now exists e].
  destruct (update_config_from_file_inv _ _ _ Hc) as (_ & es' & c1 & c2 & Hr & H1 & Hm & _).
  rewrite Hread in Hr. injection Hr as <-.
  destruct c1 as [x|f1 e1]; [discriminate|].
  rewrite merge_value_node in Hm.
  simpl in H1. injection H1 as H1.
  pose proof (skeleton_dict_get k _ _ H1) as Hk1. rewrite Hk in Hk1.
  destruct (dict_get k e1) eqn:Hk'; [discriminate|].
  destruct (merge_items_unknown f1 k es e1 Hin Hk') as (e & He). congruence.
Qed.


Lemma merge_files_frame (k : string) (files : list string) :
  (forall g es, In g files -> read_yaml g = Ok (YMapping es) -> dict_get k es = None) ->
  forall config c, merge_files literal_eval read_yaml files config = Ok c ->
    getattr c k = getattr config k.
Proof.
  induction files as [|f files IH]; intros Hfiles config c; cbn [merge_files].
  - now intros [= <-].
  - destruct (merge_from_file literal_eval read_yaml config f) as [c1|] eqn:Hm; [|discriminate].
    intros Hc. rewrite (IH (fun g es Hg => Hfiles g es (or_intror Hg)) _ _ Hc).
    apply merge_from_file_inv in Hm. destruct Hm as (es & Hread & Hm).
    destruct config as [y|fr bes]; [discriminate|].
    rewrite merge_value_node in Hm.
    destruct (merge_items_is_node _ _ _ _ Hm) as (bes' & ->).
    cbn [getattr]. rewrite (@merge_items_frame _ k _ _ _ Hm); [reflexivity|].
    destruct Hread as [Hread|(_ & ->)]; [|reflexivity].
    apply (Hfiles f es); [now left|exact Hread].
Qed.

(** X4: a top-level key that none of the merged files names (the file and
    the files its BASE entries lead to) holds, after loading, what the
    incoming configuration held, frozen. *)
Theorem update_config_from_file_other_keys (depth : nat) (config c : CfgTree)
    (cfg_file k : string) (files : list string) :
  merge_order read_yaml base_path depth cfg_file = Ok files ->
  (forall g es, In g files -> read_yaml g = Ok (YMapping es) -> dict_get k es = None) ->
  _update_config_from_file literal_eval read_yaml base_path depth config cfg_file = Ok c ->
  getattr c k = rmap freeze (getattr config k).
Proof.
  intros Hord Hfiles.
  rewrite (update_config_from_file_order literal_eval read_yaml base_path _ config _ Hord).
  destruct (merge_files literal_eval read_yaml files config) as [c'|] eqn:Hm; [|discriminate].
  intros [= <-]. unfold freeze. rewrite getattr_immutable.
  now rewrite (merge_files_frame k files Hfiles _ Hm).
Qed.

(** X5: a file that names itself in BASE never loads: the recursion only
    ends at the recursion limit, whatever that limit is. *)
Theorem update_config_from_file_self_base (depth : nat) (config : CfgTree)
    (cfg_file p : string) (es : list (string * CfgTree)) (rest : list pyval) :
  read_yaml cfg_file = Ok (YMapping es) ->
  dict_get "BASE" es = Some (Leaf (PList (PStr p :: rest))) ->
  p <> "" ->
  base_path cfg_file p = cfg_file ->
  _update_config_from_file literal_eval read_yaml base_path depth config cfg_file = Raise
      RecursionError.
Proof.
  intros Hread Hbase Hp Hpath. apply String.eqb_neq in Hp.
  revert config. induction depth as [|depth IH]; intros config; [reflexivity|].
  cbn [_update_config_from_file]. rewrite Hread, Hbase.
  cbn [iterate fold_left truthy]. rewrite Hp. cbn [negb].
  rewrite Hpath, IH.
  rewrite fold_left_raise; [reflexivity|reflexivity].
Qed.

(** X6: a parent that cannot be read is fatal.  If the first BASE entry
    of a file names a file whose reading raises (a file that is not there,
    or does not parse), loading raises that same exception, although the
    file itself is fine; and if it names a file that holds no mapping,
    loading raises the attribute error of line 106. *)
Theorem update_config_from_file_missing_base (depth : nat) (config : CfgTree)
    (cfg_file p : string) (es : list (string * CfgTree)) (rest : list pyval) :
  read_yaml cfg_file = Ok (YMapping es) ->
  dict_get "BASE" es = Some (Leaf (PList (PStr p :: rest))) ->
  p <> "" ->
  (forall e, read_yaml (base_path cfg_file p) = Raise e ->
     _update_config_from_file literal_eval read_yaml base_path (S (S depth)) config cfg_file
     = Raise e) /\
  (read_yaml (base_path cfg_file p) = Ok YNull \/
   read_yaml (base_path cfg_file p) = Ok YOther ->
     _update_config_from_file literal_eval read_yaml base_path (S (S depth)) config cfg_file
     = Raise AttributeError).
Proof.
  intros Hread Hbase Hp. apply String.eqb_neq in Hp.
  split; [intros e Hmiss|intros [Hmiss|Hmiss]];
    cbn [_update_config_from_file]; rewrite Hread, Hbase;
    cbn [iterate fold_left truthy]; rewrite Hp; cbn [negb];
    rewrite Hmiss;
    (rewrite fold_left_raise; [reflexivity|reflexivity]).
Qed.

(** X7: a BASE that is a string and not a list of strings is read
    character by character: the file named by its first character alone is
    taken as a parent, and when reading that file raises, loading raises
    the same exception. *)
Theorem update_config_from_file_string_base (depth : nat) (config : CfgTree)
    (cfg_file : string) (a : ascii) (s : string) (es : list (string * CfgTree))
    (e : error) :
  read_yaml cfg_file = Ok (YMapping es) ->
  dict_get "BASE" es = Some (Leaf (PStr (String a s))) ->
  read_yaml (base_path cfg_file (String a EmptyString)) = Raise e ->
  _update_config_from_file literal_eval read_yaml base_path (S (S depth)) config cfg_file
  = Raise e.
Proof.
  intros Hread Hbase Hmiss.
  cbn [_update_config_from_file]. rewrite Hread, Hbase.
  cbn [iterate list_ascii_of_string map fold_left truthy String.eqb negb].
  rewrite Hmiss.
  rewrite fold_left_raise; [reflexivity|reflexivity].
Qed.

End LoadingFacts.

Section DepthFacts.

Variable read_yaml : string -> result yaml_doc.
Variable base_path : string -> string -> string.

Lemma update_config_from_file_step (depth : nat) (config : CfgTree) (cfg_file : string) :
  _update_config_from_file literal_eval read_yaml base_path (S depth) config cfg_file =
  match read_yaml cfg_file with
  | Raise e => Raise e
  | Ok YNull | Ok YOther => Raise AttributeError
  | Ok (YMapping yaml_cfg) =>
      bases <~ iterate (match dict_get "BASE" yaml_cfg with
                        | Some v => v
                        | None => Leaf (PList [PStr ""])
                        end) ;;
      config <~ fold_left
                  (fun acc cfg =>
                     config <~ acc ;;
                     if truthy cfg then
                       match cfg with
                       | PStr cfg =>
                           _update_config_from_file literal_eval read_yaml base_path depth config
                             (base_path cfg_file cfg)
                       | _ => Raise TypeError
                       end
                     else Ok config)
                  bases (Ok (defrost config)) ;;
      config <~ merge_from_file literal_eval read_yaml config cfg_file ;;
      Ok (freeze config)
  end.
Proof. reflexivity. Qed.

Lemma update_config_from_file_deeper (depth : nat) :
  forall (config c : CfgTree) (cfg_file : string),
    _update_config_from_file literal_eval read_yaml base_path depth config cfg_file = Ok c ->
    _update_config_from_file literal_eval read_yaml base_path (S depth) config cfg_file = Ok c.
Proof.
  induction depth as [|depth IH]; intros config c cfg_file; [discriminate|].
  rewrite (update_config_from_file_step (S depth)), (update_config_from_file_step depth).
  destruct (read_yaml cfg_file) as [[yaml_cfg| |]|]; try discriminate.
  destruct (iterate _) as [bases|]; [|discriminate].
  set (step := fun (acc : result CfgTree) (cfg : pyval) =>
                 match acc with
                 | Ok config0 =>
                     if truthy cfg then
                       match cfg with
                       | PStr cfg0 =>
                           _update_config_from_file literal_eval read_yaml base_path depth config0
                             (base_path cfg_file cfg0)
                       | _ => Raise TypeError
                       end
                     else Ok config0
                 | Raise err => Raise err
                 end).
  set (step' := fun (acc : result CfgTree) (cfg : pyval) => _).
  assert (Hloop : forall bs acc c1,
            fold_left step bs acc = Ok c1 -> fold_left step' bs acc = Ok c1).
  { induction bs as [|b bs IHbs]; intros acc c1; cbn [fold_left]; [trivial|].
    destruct (step acc b) as [a1|e] eqn:Hstep.
    2:{ rewrite fold_left_raise; [discriminate|reflexivity]. }
    assert (Hstep' : step' acc b = Ok a1).
    { unfold step, step' in *. destruct acc as [ca|]; [|discriminate].
      destruct (truthy b); [|exact Hstep].
      destruct b; try discriminate. now apply IH. }
    rewrite Hstep'. apply IHbs. }
  destruct (fold_left step bases (Ok (defrost config))) as [c1|] eqn:Hfold; [|discriminate].
  now rewrite (Hloop _ _ _ Hfold).
Qed.

(** X8: the recursion limit does not change what is loaded: if loading
    returns within some limit, it returns the same configuration within
    every larger one. *)
Theorem update_config_from_file_depth (depth depth' : nat) (config c : CfgTree)
    (cfg_file : string) :
  depth <= depth' ->
  _update_config_from_file literal_eval read_yaml base_path depth config cfg_file = Ok c ->
  _update_config_from_file literal_eval read_yaml base_path depth' config cfg_file = Ok c.
Proof.
  intros Hle Hc. induction Hle as [|d Hle IH]; [exact Hc|].
  now apply update_config_from_file_deeper.
Qed.

End DepthFacts.

(** ** The command line *)

Lemma when_setattr_assigned (b : bool) (c : CfgTree) (k : string) (v : pyval) :
  open_sections c -> ~ is_section k ->
  exists c', when b (fun c => setattr c k (Leaf v)) c = Ok c' /\ open_sections c' /\
    getattr c' k = assigned b v (getattr c k) /\
    (forall k', k' <> k -> getattr c' k' = getattr c k') /\
    (forall s n, s <> k -> getattr2 c' s n = getattr2 c s n).
Proof.
  intros Hc Hk. destruct b; cbn [when assigned].
  - destruct (setattr_open v Hc Hk) as (c' & H1 & H2 & H3 & H4 & H5). now exists c'.
  - exists c. repeat split; trivial.
Qed.

Lemma when_setattr2_assigned (b : bool) (c : CfgTree) (s n : string) (v : pyval) :
  open_sections c -> is_section s ->
  exists c', when b (fun c => setattr2 c s n (Leaf v)) c = Ok c' /\ open_sections c' /\
    getattr2 c' s n = assigned b v (getattr2 c s n) /\
    (forall k, k <> s -> getattr c' k = getattr c k) /\
    (forall s' n', s' <> s \/ n' <> n -> getattr2 c' s' n' = getattr2 c s' n').
Proof.
  intros Hc Hs. destruct b; cbn [when assigned].
  - destruct (setattr2_open n v Hc Hs) as (c' & H1 & H2 & H3 & H4 & H5). now exists c'.
  - exists c. repeat split; trivial.
Qed.

(** Lines 136-138: the two assignments under [if args.eval:]. *)
Lemma when_eval_assigned (b : bool) (c : CfgTree) (v : pyval) :
  open_sections c ->
  exists c',
    when b (fun c =>
              c <~ setattr c "EVAL" (Leaf (PBool true)) ;;
              setattr2 c "DATA" "BATCH_SIZE_EVAL" (Leaf v)) c = Ok c' /\
    open_sections c' /\
    getattr c' "EVAL" = assigned b (PBool true) (getattr c "EVAL") /\
    getattr2 c' "DATA" "BATCH_SIZE_EVAL"
      = assigned b v (getattr2 c "DATA" "BATCH_SIZE_EVAL") /\
    (forall k, k <> "EVAL" -> k <> "DATA" -> getattr c' k = getattr c k) /\
    (forall s n, s <> "EVAL" -> s <> "DATA" \/ n <> "BATCH_SIZE_EVAL" ->
       getattr2 c' s n = getattr2 c s n).
Proof.
  intros Hc. destruct b; cbn [when assigned].
  - assert (HE : ~ is_section "EVAL") by (intros [H|[H|H]]; discriminate).
    destruct (@setattr_open c "EVAL" (PBool true) Hc HE) as (c1 & -> & H1 & E1 & G1 & F1).
    destruct (@setattr2_open c1 "DATA" "BATCH_SIZE_EVAL" v H1 (or_introl eq_refl))
      as (c2 & -> & H2 & B2 & G2 & F2).
    exists c2. repeat split; try assumption.
    + rewrite G2 by discriminate. exact E1.
    + intros k Hk1 Hk2. now rewrite G2, G1.
    + intros s n Hs Hsn. now rewrite F2, F1.
  - exists c. repeat split; trivial.
Qed.

(** Lines 145-149: the assignment under [if args.amp:]. *)
Lemma when_amp_assigned (b : bool) (c ev : CfgTree) :
  open_sections c -> getattr c "EVAL" = Ok ev ->
  exists c',
    when b (fun c =>
              ev <~ getattr c "EVAL" ;;
              match ev with
              | Leaf (PBool true) => setattr c "AMP" (Leaf (PBool false))
              | _ => setattr c "AMP" (Leaf (PBool true))
              end) c = Ok c' /\
    open_sections c' /\
    getattr c' "AMP" = assigned b (PBool (negb (is_True (getattr c "EVAL")))) (getattr c "AMP") /\
    (forall k, k <> "AMP" -> getattr c' k = getattr c k) /\
    (forall s n, s <> "AMP" -> getattr2 c' s n = getattr2 c s n).
Proof.
  intros Hc Hev. destruct b; cbn [when assigned].
  - assert (HA : ~ is_section "AMP") by (intros [H|[H|H]]; discriminate).
    rewrite Hev. cbn [is_True].
    destruct (@setattr_open c "AMP" (PBool true) Hc HA) as (ct & Et & Ht & At & Gt & Ft).
    destruct (@setattr_open c "AMP" (PBool false) Hc HA) as (cf & Ef & Hf & Af & Gf & Ff).
    destruct ev as [[|[|]| | | | |]|fr es]; cbn [negb];
      first [ exists ct; now repeat split | exists cf; now repeat split ].
  - exists c. repeat split; trivial.
Qed.

Ltac field_side Hs Hf :=
  first
    [ discriminate
    | left; discriminate
    | right; discriminate
    | assumption
    | intros ->; (apply Hs || apply Hf); simpl; tauto
    | match goal with
      | |- ?s <> ?k \/ _ =>
          destruct (string_dec s k) as [->|];
          [ right; intros ->; apply Hf; simpl; tauto | left; assumption ]
      end ].

(** What [update_config_args] leaves in every attribute, on a configuration
    with the three sections and an EVAL entry. *)
Lemma update_config_args_fields (config ev : CfgTree) (args : Args) :
  has_sections config -> getattr config "EVAL" = Ok ev ->
  exists c',
    update_config_args config args = Ok c' /\
    getattr2 c' "DATA" "DATASET"
      = assigned (truthy (str_value (args_dataset args))) (str_value (args_dataset args))
          (getattr2 (defrost config) "DATA" "DATASET") /\
    getattr2 c' "DATA" "BATCH_SIZE"
      = assigned (truthy (int_value (args_batch_size args))) (int_value (args_batch_size args))
          (getattr2 (defrost config) "DATA" "BATCH_SIZE") /\
    getattr2 c' "DATA" "IMAGE_SIZE"
      = assigned (truthy (int_value (args_image_size args))) (int_value (args_image_size args))
          (getattr2 (defrost config) "DATA" "IMAGE_SIZE") /\
    getattr2 c' "DATA" "DATA_PATH"
      = assigned (truthy (str_value (args_data_path args))) (str_value (args_data_path args))
          (getattr2 (defrost config) "DATA" "DATA_PATH") /\
    getattr c' "NGPUS"
      = assigned (truthy (int_value (args_ngpus args))) (int_value (args_ngpus args))
          (getattr (defrost config) "NGPUS") /\
    getattr c' "EVAL"
      = assigned (args_eval args) (PBool true) (getattr (defrost config) "EVAL") /\
    getattr2 c' "DATA" "BATCH_SIZE_EVAL"
      = assigned (args_eval args) (int_value (args_batch_size args))
          (getattr2 (defrost config) "DATA" "BATCH_SIZE_EVAL") /\
    getattr2 c' "MODEL" "PRETRAINED"
      = assigned (truthy (str_value (args_pretrained args))) (str_value (args_pretrained args))
          (getattr2 (defrost config) "MODEL" "PRETRAINED") /\
    getattr2 c' "MODEL" "RESUME"
      = assigned (truthy (str_value (args_resume args))) (str_value (args_resume args))
          (getattr2 (defrost config) "MODEL" "RESUME") /\
    getattr2 c' "TRAIN" "LAST_EPOCH"
      = assigned (truthy (int_value (args_last_epoch args))) (int_value (args_last_epoch args))
          (getattr2 (defrost config) "TRAIN" "LAST_EPOCH") /\
    getattr c' "AMP"
      = assigned (args_amp args)
          (PBool (negb (args_eval args || is_True (getattr config "EVAL"))))
          (getattr (defrost config) "AMP") /\
    (forall k, ~ In k ("DATA" :: "MODEL" :: "TRAIN" :: cli_keys) ->
       getattr c' k = getattr (defrost config) k) /\
    (forall s n, ~ In s cli_keys -> ~ In (s, n) cli_fields ->
       getattr2 c' s n = getattr2 (defrost config) s n).
Proof.
  intros Hsec Hev. unfold update_config_args.
  pose proof (defrost_open_sections Hsec) as H0.
  assert (Hev0 : getattr (defrost config) "EVAL" = Ok (defrost ev)).
  { rewrite getattr_defrost, Hev. reflexivity. }
  assert (HT0 : is_True (getattr config "EVAL") = is_True (getattr (defrost config) "EVAL")).
  { rewrite Hev0, Hev. now destruct ev as [[]|]. }
  rewrite HT0. clear HT0.
  set (c0 := defrost config) in *. set (ev0 := defrost ev) in *. clearbody c0 ev0.
  clear Hsec Hev config ev.
  assert (HD : is_section "DATA") by (left; reflexivity).
  assert (HM : is_section "MODEL") by (right; left; reflexivity).
  assert (HT : is_section "TRAIN") by (right; right; reflexivity).
  assert (HN : ~ is_section "NGPUS") by (intros [H|[H|H]]; discriminate).
  destruct (when_setattr2_assigned (truthy (str_value (args_dataset args))) "DATASET"
              (str_value (args_dataset args)) H0 HD) as (c1 & -> & H1 & V1 & G1 & F1).
  destruct (when_setattr2_assigned (truthy (int_value (args_batch_size args))) "BATCH_SIZE"
              (int_value (args_batch_size args)) H1 HD) as (c2 & -> & H2 & V2 & G2 & F2).
  destruct (when_setattr2_assigned (truthy (int_value (args_image_size args))) "IMAGE_SIZE"
              (int_value (args_image_size args)) H2 HD) as (c3 & -> & H3 & V3 & G3 & F3).
  destruct (when_setattr2_assigned (truthy (str_value (args_data_path args))) "DATA_PATH"
              (str_value (args_data_path args)) H3 HD) as (c4 & -> & H4 & V4 & G4 & F4).
  destruct (@when_setattr_assigned (truthy (int_value (args_ngpus args))) c4 "NGPUS"
              (int_value (args_ngpus args)) H4 HN) as (c5 & -> & H5 & V5 & G5 & F5).
  destruct (@when_eval_assigned (args_eval args) c5 (int_value (args_batch_size args)) H5)
    as (c6 & -> & H6 & E6 & V6 & G6 & F6).
  destruct (when_setattr2_assigned (truthy (str_value (args_pretrained args))) "PRETRAINED"
              (str_value (args_pretrained args)) H6 HM) as (c7 & -> & H7 & V7 & G7 & F7).
  destruct (when_setattr2_assigned (truthy (str_value (args_resume args))) "RESUME"
              (str_value (args_resume args)) H7 HM) as (c8 & -> & H8 & V8 & G8 & F8).
  destruct (when_setattr2_assigned (truthy (int_value (args_last_epoch args))) "LAST_EPOCH"
              (int_value (args_last_epoch args)) H8 HT) as (c9 & -> & H9 & V9 & G9 & F9).
  assert (E9 : getattr c9 "EVAL" = assigned (args_eval args) (PBool true) (getattr c0 "EVAL")).
  { rewrite G9, G8, G7, E6, G5, G4, G3, G2, G1 by discriminate. reflexivity. }
  assert (Hev9 : exists ev9, getattr c9 "EVAL" = Ok ev9).
  { rewrite E9, Hev0. destruct (args_eval args); eexists; reflexivity. }
  destruct Hev9 as (ev9 & Hev9).
  destruct (@when_amp_assigned (args_amp args) c9 ev9 H9 Hev9)
    as (c10 & -> & H10 & V10 & G10 & F10).
  exists c10. split; [reflexivity|].
  repeat match goal with |- _ /\ _ => split end.
  - rewrite F10, F9, F8, F7, F6, F5, F4, F3, F2 by field_side I I. exact V1.
  - rewrite F10, F9, F8, F7, F6, F5, F4, F3 by field_side I I. rewrite V2.
    now rewrite F1 by field_side I I.
  - rewrite F10, F9, F8, F7, F6, F5, F4 by field_side I I. rewrite V3.
    now rewrite F2, F1 by field_side I I.
  - rewrite F10, F9, F8, F7, F6, F5 by field_side I I. rewrite V4.
    now rewrite F3, F2, F1 by field_side I I.
  - rewrite G10, G9, G8, G7, G6 by discriminate. rewrite V5.
    now rewrite G4, G3, G2, G1 by discriminate.
  - rewrite G10 by discriminate. exact E9.
  - rewrite F10, F9, F8, F7 by field_side I I. rewrite V6.
    now rewrite F5, F4, F3, F2, F1 by field_side I I.
  - rewrite F10, F9, F8 by field_side I I. rewrite V7.
    now rewrite F6, F5, F4, F3, F2, F1 by field_side I I.
  - rewrite F10, F9 by field_side I I. rewrite V8.
    now rewrite F7, F6, F5, F4, F3, F2, F1 by field_side I I.
  - rewrite F10 by field_side I I. rewrite V9.
    now rewrite F8, F7, F6, F5, F4, F3, F2, F1 by field_side I I.
  - rewrite V10, E9.
    assert (HA : getattr c9 "AMP" = getattr c0 "AMP").
    { rewrite G9, G8, G7, G6, G5, G4, G3, G2, G1 by discriminate. reflexivity. }
    rewrite HA. destruct (args_eval args); reflexivity.
  - intros k Hk.
    assert (Hne : forall k', In k' ("DATA" :: "MODEL" :: "TRAIN" :: cli_keys) -> k <> k').
    { intros k' Hin ->. now apply Hk. }
    rewrite G10, G9, G8, G7, G6, G5, G4, G3, G2, G1
      by (apply Hne; simpl; tauto).
    reflexivity.
  - intros s n Hs Hf.
    rewrite F10, F9, F8, F7, F6, F5, F4, F3, F2, F1 by field_side Hs Hf.
    reflexivity.
Qed.

Section CommandLine.

Variable read_yaml : string -> result yaml_doc.
Variable base_path : string -> string -> string.

(** After the file phase the configuration still has its sections and its
    EVAL entry. *)
Lemma update_config_file_ready (depth : nat) (config ev c1 : CfgTree) (args : Args) :
  has_sections config -> getattr config "EVAL" = Ok ev ->
  update_config_file literal_eval read_yaml base_path depth config args = Ok c1 ->
  has_sections c1 /\ exists ev1, getattr c1 "EVAL" = Ok ev1.
Proof.
  intros Hsec Hev Hfile. split.
  - exact (@update_config_file_has_sections literal_eval read_yaml base_path depth config c1 args
      Hsec Hfile).
  - unfold update_config_file in Hfile.
    destruct (args_cfg args) as [cfg|]; [|injection Hfile as <-; eauto].
    destruct (truthy (PStr cfg)); [|injection Hfile as <-; eauto].
    destruct (@update_config_from_file_inv read_yaml base_path depth config c1 cfg Hfile) as (Hsk
        & _).
    destruct (@skeleton_getattr c1 config "EVAL" ev Hsk Hev) as (ev1 & H1 & _). eauto.
Qed.

(** X9: an option given on the command line wins.  Whatever the
    defaults and the configuration files hold, a data set, batch size,
    image size, data path, GPU count, pretrained path, resume path or last
    epoch that is given, and is not empty or zero, is what the returned
    configuration holds. *)
Theorem update_config_cli_wins (depth : nat) (config ev c1 : CfgTree) (args : Args) :
  has_sections config -> getattr config "EVAL" = Ok ev ->
  update_config_file literal_eval read_yaml base_path depth config args = Ok c1 ->
  exists c',
    update_config literal_eval read_yaml base_path depth config args = Ok c' /\
    (forall s, args_dataset args = Some s -> s <> "" ->
       getattr2 c' "DATA" "DATASET" = Ok (Leaf (PStr s))) /\
    (forall z, args_batch_size args = Some z -> z <> 0%Z ->
       getattr2 c' "DATA" "BATCH_SIZE" = Ok (Leaf (PInt z))) /\
    (forall z, args_image_size args = Some z -> z <> 0%Z ->
       getattr2 c' "DATA" "IMAGE_SIZE" = Ok (Leaf (PInt z))) /\
    (forall s, args_data_path args = Some s -> s <> "" ->
       getattr2 c' "DATA" "DATA_PATH" = Ok (Leaf (PStr s))) /\
    (forall z, args_ngpus args = Some z -> z <> 0%Z ->
       getattr c' "NGPUS" = Ok (Leaf (PInt z))) /\
    (forall s, args_pretrained args = Some s -> s <> "" ->
       getattr2 c' "MODEL" "PRETRAINED" = Ok (Leaf (PStr s))) /\
    (forall s, args_resume args = Some s -> s <> "" ->
       getattr2 c' "MODEL" "RESUME" = Ok (Leaf (PStr s))) /\
    (forall z, args_last_epoch args = Some z -> z <> 0%Z ->
       getattr2 c' "TRAIN" "LAST_EPOCH" = Ok (Leaf (PInt z))).
Proof.
  intros Hsec Hev Hfile. unfold update_config. rewrite Hfile.
  destruct (@update_config_file_ready depth config ev c1 args Hsec Hev Hfile) as (H1 & ev1 & Hev1).
  destruct (@update_config_args_fields c1 ev1 args H1 Hev1)
    as (c' & Hc' & D1 & D2 & D3 & D4 & D5 & _ & _ & D8 & D9 & D10 & _).
  assert (Hs : forall s, s <> "" -> truthy (PStr s) = true).
  { intros s Hne. cbn [truthy]. apply String.eqb_neq in Hne. now rewrite Hne. }
  assert (Hz : forall z, z <> 0%Z -> truthy (PInt z) = true).
  { intros z Hne. cbn [truthy]. apply Z.eqb_neq in Hne. now rewrite Hne. }
  exists c'. split; [exact Hc'|].
  repeat match goal with |- _ /\ _ => split end.
  - intros s E Hne. rewrite D1, E. cbn [str_value]. now rewrite Hs.
  - intros z E Hne. rewrite D2, E. cbn [int_value]. now rewrite Hz.
  - intros z E Hne. rewrite D3, E. cbn [int_value]. now rewrite Hz.
  - intros s E Hne. rewrite D4, E. cbn [str_value]. now rewrite Hs.
  - intros z E Hne. rewrite D5, E. cbn [int_value]. now rewrite Hz.
  - intros s E Hne. rewrite D8, E. cbn [str_value]. now rewrite Hs.
  - intros s E Hne. rewrite D9, E. cbn [str_value]. now rewrite Hs.
  - intros z E Hne. rewrite D10, E. cbn [int_value]. now rewrite Hz.
Qed.

(** X10: an option that is not given, or is given as the empty string or
    as zero, assigns nothing: the attribute holds what the defaults and
    the files left there.  So [-batch_size 0] and [-last_epoch 0] cannot
    set a zero; and without the eval flag EVAL and DATA.BATCH_SIZE_EVAL
    are left alone, and without the mixed-precision flag AMP is. *)
Theorem update_config_skips_empty_options (depth : nat) (config ev c1 : CfgTree)
    (args : Args) :
  has_sections config -> getattr config "EVAL" = Ok ev ->
  update_config_file literal_eval read_yaml base_path depth config args = Ok c1 ->
  exists c',
    update_config literal_eval read_yaml base_path depth config args = Ok c' /\
    (args_dataset args = None \/ args_dataset args = Some "" ->
       getattr2 c' "DATA" "DATASET" = rmap defrost (getattr2 c1 "DATA" "DATASET")) /\
    (args_batch_size args = None \/ args_batch_size args = Some 0%Z ->
       getattr2 c' "DATA" "BATCH_SIZE" = rmap defrost (getattr2 c1 "DATA" "BATCH_SIZE")) /\
    (args_image_size args = None \/ args_image_size args = Some 0%Z ->
       getattr2 c' "DATA" "IMAGE_SIZE" = rmap defrost (getattr2 c1 "DATA" "IMAGE_SIZE")) /\
    (args_data_path args = None \/ args_data_path args = Some "" ->
       getattr2 c' "DATA" "DATA_PATH" = rmap defrost (getattr2 c1 "DATA" "DATA_PATH")) /\
    (args_ngpus args = None \/ args_ngpus args = Some 0%Z ->
       getattr c' "NGPUS" = rmap defrost (getattr c1 "NGPUS")) /\
    (args_pretrained args = None \/ args_pretrained args = Some "" ->
       getattr2 c' "MODEL" "PRETRAINED" = rmap defrost (getattr2 c1 "MODEL" "PRETRAINED")) /\
    (args_resume args = None \/ args_resume args = Some "" ->
       getattr2 c' "MODEL" "RESUME" = rmap defrost (getattr2 c1 "MODEL" "RESUME")) /\
    (args_last_epoch args = None \/ args_last_epoch args = Some 0%Z ->
       getattr2 c' "TRAIN" "LAST_EPOCH" = rmap defrost (getattr2 c1 "TRAIN" "LAST_EPOCH")) /\
    (args_eval args = false ->
       getattr c' "EVAL" = rmap defrost (getattr c1 "EVAL") /\
       getattr2 c' "DATA" "BATCH_SIZE_EVAL"
         = rmap defrost (getattr2 c1 "DATA" "BATCH_SIZE_EVAL")) /\
    (args_amp args = false -> getattr c' "AMP" = rmap defrost (getattr c1 "AMP")).
Proof.
  intros Hsec Hev Hfile. unfold update_config. rewrite Hfile.
  destruct (@update_config_file_ready depth config ev c1 args Hsec Hev Hfile) as (H1 & ev1 & Hev1).
  destruct (@update_config_args_fields c1 ev1 args H1 Hev1)
    as (c' & Hc' & D1 & D2 & D3 & D4 & D5 & D6 & D7 & D8 & D9 & D10 & D11 & _).
  unfold defrost in *. rewrite <- !getattr2_immutable, <- !getattr_immutable.
  exists c'. split; [exact Hc'|].
  repeat match goal with |- _ /\ _ => split end.
  - intros [E|E]; rewrite D1, E; reflexivity.
  - intros [E|E]; rewrite D2, E; reflexivity.
  - intros [E|E]; rewrite D3, E; reflexivity.
  - intros [E|E]; rewrite D4, E; reflexivity.
  - intros [E|E]; rewrite D5, E; reflexivity.
  - intros [E|E]; rewrite D8, E; reflexivity.
  - intros [E|E]; rewrite D9, E; reflexivity.
  - intros [E|E]; rewrite D10, E; reflexivity.
  - intros E. rewrite D6, D7, E. split; reflexivity.
  - intros E. rewrite D11, E. reflexivity.
Qed.

(** X11: [update_config] assigns to nothing else.  Apart from the three
    sections, NGPUS, EVAL and AMP, every top-level attribute holds what the
    file phase left; and so does every attribute of a section other than
    the eight the command line can set. *)
Theorem update_config_other_attributes (depth : nat) (config ev c1 : CfgTree)
    (args : Args) :
  has_sections config -> getattr config "EVAL" = Ok ev ->
  update_config_file literal_eval read_yaml base_path depth config args = Ok c1 ->
  exists c',
    update_config literal_eval read_yaml base_path depth config args = Ok c' /\
    (forall k, ~ In k ("DATA" :: "MODEL" :: "TRAIN" :: cli_keys) ->
       getattr c' k = rmap defrost (getattr c1 k)) /\
    (forall s n, ~ In s cli_keys -> ~ In (s, n) cli_fields ->
       getattr2 c' s n = rmap defrost (getattr2 c1 s n)).
Proof.
  intros Hsec Hev Hfile. unfold update_config. rewrite Hfile.
  destruct (@update_config_file_ready depth config ev c1 args Hsec Hev Hfile) as (H1 & ev1 & Hev1).
  destruct (@update_config_args_fields c1 ev1 args H1 Hev1)
    as (c' & Hc' & _ & _ & _ & _ & _ & _ & _ & _ & _ & _ & _ & K & F).
  unfold defrost in *.
  exists c'. split; [exact Hc'|]. split.
  - intros k Hk. rewrite <- getattr_immutable. now apply K.
  - intros s n Hs Hf. rewrite <- getattr2_immutable. now apply F.
Qed.

(** X12: with the mixed-precision flag, AMP ends up False exactly when
    the run is an evaluation, be it by the eval flag or by EVAL: True in the
    configuration files; otherwise it ends up True. *)
Theorem update_config_amp_flag (depth : nat) (config ev c1 : CfgTree) (args : Args) :
  has_sections config -> getattr config "EVAL" = Ok ev ->
  update_config_file literal_eval read_yaml base_path depth config args = Ok c1 ->
  args_amp args = true ->
  exists c',
    update_config literal_eval read_yaml base_path depth config args = Ok c' /\
    getattr c' "AMP"
    = Ok (Leaf (PBool (negb (args_eval args || is_True (getattr c1 "EVAL"))))).
Proof.
  intros Hsec Hev Hfile Hamp. unfold update_config. rewrite Hfile.
  destruct (@update_config_file_ready depth config ev c1 args Hsec Hev Hfile) as (H1 & ev1 & Hev1).
  destruct (@update_config_args_fields c1 ev1 args H1 Hev1)
    as (c' & Hc' & _ & _ & _ & _ & _ & _ & _ & _ & _ & _ & A & _).
  exists c'. split; [exact Hc'|]. rewrite A, Hamp. reflexivity.
Qed.

End CommandLine.

(** ** Inheritance between configuration files *)

Section Inheritance.

Variable read_yaml : string -> result yaml_doc.
Variable base_path : string -> string -> string.




End Inheritance.

End ConfigurationProperties.

(** ** [expand_dim], [rel_to_abs] and [relative_logits_1d] *)

Lemma numel_insert_one (s1 s2 : list nat) : numel (s1 ++ 1 :: s2) = numel (s1 ++ s2).
Proof. induction s1 as [|a s1 IH]; simpl; [lia|]. now rewrite IH. Qed.

Lemma ravel_insert_zero (s2 post : list nat) (s1 pre : list nat) :
  length pre = length s1 ->
  ravel (s1 ++ 1 :: s2) (pre ++ 0 :: post) = ravel (s1 ++ s2) (pre ++ post).
Proof.
  revert pre. induction s1 as [|a s1 IH]; intros [|p pre]; try discriminate; simpl.
  - reflexivity.
  - intros [= Hlen]. now rewrite numel_insert_one, IH.
Qed.

Lemma set_nth_app (k v : nat) (l1 l2 : list nat) :
  set_nth (length l1) v (l1 ++ k :: l2) = l1 ++ v :: l2.
Proof. induction l1 as [|a l1 IH]; simpl; [reflexivity|]. now rewrite IH. Qed.

Section ExpandDim.

Variable T : Type.
Variable zero : T.

(** X14: [expand_dim t dim k] puts a new axis of extent [k] at position
    [dim] and repeats the tensor along it: its shape is the shape of [t]
    with [k] inserted, and its entry at an index is the entry of [t] at
    that index without the new coordinate.  With [dim] beyond the rank the
    call fails. *)
Theorem expand_dim_repeats (t : tensor T) (s1 s2 : list nat) (k : nat) :
  shape t = s1 ++ s2 -> 1 <= k ->
  exists r,
    expand_dim zero t (length s1) k = Some r /\
    shape r = s1 ++ k :: s2 /\
    (forall pre post j,
       in_bounds s1 pre -> in_bounds s2 post -> j < k ->
       get zero r (pre ++ j :: post) = get zero t (pre ++ post)) /\
    (forall dim, length (shape t) < dim -> expand_dim zero t dim k = None).
Proof.
  intros Hs _. unfold expand_dim, unsqueeze.
  replace (length s1 <=? length (shape t)) with true
    by (symmetry; apply Nat.leb_le; rewrite Hs, length_app; lia).
  assert (Hf : firstn (length s1) (shape t) = s1).
  { rewrite Hs, firstn_app, Nat.sub_diag, firstn_all. simpl. apply app_nil_r. }
  assert (Hk : skipn (length s1) (shape t) = s2).
  { rewrite Hs, skipn_app, Nat.sub_diag, skipn_all. reflexivity. }
  cbn [shape]. rewrite Hf, Hk, set_nth_app.
  eexists. split; [reflexivity|]. split; [reflexivity|]. split.
  - intros pre post j Hpre Hpost Hj.
    pose proof (Forall2_length Hpre) as Hlen.
    rewrite get_tabulate.
    2:{ unfold in_bounds in *. apply Forall2_app; [exact Hpre|].
        apply Forall2_cons; assumption. }
    rewrite <- Hlen, set_nth_app. unfold get. cbn [shape data].
    rewrite ravel_insert_zero by exact Hlen. now rewrite Hs.
  - intros dim Hdim.
    replace (dim <=? length (shape t)) with false
      by (symmetry; apply Nat.leb_gt; exact Hdim).
    reflexivity.
Qed.

End ExpandDim.

Section RelToAbsEdges.

Variable T : Type.
Variable zero : T.

(** X15: the closed form of [rel_to_abs].  On an input of shape
    (B, N, L, 2L-1) the entry (i, k) of the output is the entry
    (i, k + L - 1 - i) of the input: an entry of the input itself, never a
    padding zero; and the column L - 1 of the input, the offset zero, is
    the diagonal of the output. *)
Theorem rel_to_abs_entries (x : tensor T) (B N L : nat) :
  shape x = [B; N; L; 2 * L - 1] -> 1 <= L ->
  exists y, rel_to_abs zero x = Some y /\ shape y = [B; N; L; L] /\
    (forall b n i k, b < B -> n < N -> i < L -> k < L ->
       k + (L - 1) - i < 2 * L - 1 /\
       get zero y [b; n; i; k] = get zero x [b; n; i; k + (L - 1) - i]) /\
    (forall b n i, b < B -> n < N -> i < L ->
       get zero y [b; n; i; i] = get zero x [b; n; i; L - 1]).
Proof.
  intros Hs HL.
  destruct (rel_to_abs_get zero x Hs HL) as (y & Hy & Hsy & _ & Hget).
  exists y. split; [exact Hy|]. split; [exact Hsy|]. split.
  - intros b n i k Hb Hn Hi Hk. split; [lia|]. now apply Hget.
  - intros b n i Hb Hn Hi. rewrite Hget by assumption.
    replace (i + (L - 1) - i) with (L - 1) by lia. reflexivity.
Qed.

Lemma rel_to_abs_defined (x : tensor T) (B N L W : nat) :
  shape x = [B; N; L; W] -> 1 <= L ->
  B * (N * (L * (2 * L))) = B * (N * (L * (W + 1))) ->
  exists y, rel_to_abs zero x = Some y /\ shape y = [B; N; L; L].
Proof.
  intros Hs HL Hnum. destruct L as [|m]; [lia|].
  unfold rel_to_abs. rewrite Hs.
  rewrite concat_eq; rewrite Hs.
  2:{ unfold same_except; cbn. now rewrite !Nat.eqb_refl. }
  cbn [set_nth nth shape zeros].
  set (x1 := tabulate _ _).
  rewrite reshape_eq.
  2:{ subst x1. cbn [shape tabulate numel fold_right]. lia. }
  cbn [Nat.eqb].
  set (f1 := mkTensor _ _).
  rewrite concat_eq.
  2:{ subst f1. unfold same_except; cbn. now rewrite !Nat.eqb_refl. }
  cbn [set_nth nth shape zeros f1].
  set (f2 := tabulate _ _).
  rewrite reshape_eq.
  2:{ subst f2. cbn [shape tabulate numel fold_right]. lia. }
  set (fin := mkTensor _ _).
  unfold slice. cbn [length shape fin Nat.leb repeat app combine map Nat.sub].
  unfold slice_dim, full, upto, from. cbn [fst snd].
  eexists; split; [reflexivity|].
  cbn [shape tabulate]. repeat f_equal; lia.
Qed.

Lemma rel_to_abs_defined_only (x y : tensor T) (B N L W : nat) :
  shape x = [B; N; L; W] -> rel_to_abs zero x = Some y ->
  1 <= L /\ B * (N * (L * (2 * L))) = B * (N * (L * (W + 1))).
Proof.
  intros Hs. unfold rel_to_abs. rewrite Hs.
  rewrite concat_eq; rewrite Hs.
  2:{ unfold same_except; cbn. now rewrite !Nat.eqb_refl. }
  cbn [set_nth nth shape zeros].
  set (x1 := tabulate _ _).
  destruct (reshape x1 [B; N; L * 2 * L]) as [flat_x|] eqn:Hr; [|discriminate].
  destruct (Nat.eqb_spec L 0) as [H0|H0]; [discriminate|].
  intros _. split; [lia|].
  unfold reshape in Hr.
  destruct (Nat.eqb_spec (numel [B; N; L * 2 * L]) (numel (shape x1))) as [e|e];
    [|discriminate].
  subst x1. cbn [shape tabulate numel fold_right] in e. lia.
Qed.

(** X16: what [rel_to_abs] accepts.  An input of shape (B, N, L, W) with
    B and N at least 1 is converted exactly when L is at least 1 and W is
    2L-1, and the result then has shape (B, N, L, L); on every other such
    input a framework call fails. *)
Theorem rel_to_abs_accepts (x : tensor T) (B N L W : nat) :
  shape x = [B; N; L; W] -> 1 <= B -> 1 <= N ->
  (1 <= L /\ W = 2 * L - 1 ->
   exists y, rel_to_abs zero x = Some y /\ shape y = [B; N; L; L]) /\
  (~ (1 <= L /\ W = 2 * L - 1) -> rel_to_abs zero x = None).
Proof.
  intros Hs HB HN. split.
  - intros (HL & ->). apply rel_to_abs_defined with (W := 2 * L - 1); try assumption.
    replace (2 * L - 1 + 1) with (2 * L) by lia. reflexivity.
  - intros Hbad. destruct (rel_to_abs zero x) as [y|] eqn:Hy; [|reflexivity].
    exfalso. apply Hbad.
    destruct (rel_to_abs_defined_only _ Hs Hy) as (HL & Hnum).
    split; [exact HL|].
    apply Nat.mul_cancel_l in Hnum; [|lia].
    apply Nat.mul_cancel_l in Hnum; [|lia].
    apply Nat.mul_cancel_l in Hnum; lia.
Qed.

End RelToAbsEdges.

Section RelativeLogitsEdges.

Variable T : Type.
Variable zero : T.
Variable contract : list T -> list T -> T.

(** X17: the closed form of [relative_logits_1d].  For a query grid of
    shape (B, Nh, H, W, d) and a table of 2W-1 rows the result has shape
    (B, Nh, H, H, W, W); its entry (x, i, y, j) pairs the query at (x, y)
    with row j + W - 1 - y of the table, the row of the offset j - y, and
    does not depend on i. *)
Theorem relative_logits_1d_entries (q rel_k : tensor T) (B Nh H W d : nat) :
  shape q = [B; Nh; H; W; d] -> shape rel_k = [2 * W - 1; d] ->
  1 <= Nh -> 1 <= H -> 1 <= W ->
  exists r, relative_logits_1d zero contract q rel_k = Some r /\
    shape r = [B; Nh; H; H; W; W] /\
    (forall b n x i y j, b < B -> n < Nh -> x < H -> i < H -> y < W -> j < W ->
       j + (W - 1) - y < 2 * W - 1 /\
       get zero r [b; n; x; i; y; j] =
       contract (vec zero q [b; n; x; y] d) (vec zero rel_k [j + (W - 1) - y] d)) /\
    (forall b n x i i' y j, b < B -> n < Nh -> x < H -> i < H -> i' < H -> y < W -> j < W ->
       get zero r [b; n; x; i; y; j] = get zero r [b; n; x; i'; y; j]).
Proof.
  intros Hq Hk HNh HH HW.
  destruct (relative_logits_1d_get zero contract q rel_k Hq Hk HNh HH HW)
    as (r & Hr & Hsr & Hget).
  exists r. split; [exact Hr|]. split; [exact Hsr|]. split.
  - intros b n x i y j Hb Hn Hx Hi Hy Hj. split; [lia|]. now apply Hget.
  - intros b n x i i' y j Hb Hn Hx Hi Hi' Hy Hj. now rewrite !Hget.
Qed.

Lemma reshape_infer_scaled (t : tensor T) (rest : list nat) (c a b : nat) :
  numel (shape t) = c * a -> numel rest = c * b -> c <> 0 -> b <> 0 ->
  reshape_infer t rest =
  if a mod b =? 0 then Some (mkTensor (a / b :: rest) (data t)) else None.
Proof.
  intros Ht Hr Hc Hb. unfold reshape_infer. rewrite Ht, Hr.
  replace (c * b =? 0) with false by (symmetry; apply Nat.eqb_neq; nia).
  rewrite Nat.Div0.mul_mod_distr_l, Nat.Div0.div_mul_cancel_l by exact Hc.
  cbn [orb].
  destruct (Nat.eqb_spec (a mod b) 0) as [E|E].
  - rewrite E, Nat.mul_0_r. reflexivity.
  - replace (c * (a mod b) =? 0) with false by (symmetry; apply Nat.eqb_neq; nia).
    reflexivity.
Qed.

(** X18: what [relative_logits_1d] accepts.  The number of rows of the
    table is not checked against 2W-1: for a table of m rows (of the
    embedding size of the query) the call returns exactly when 2W-1 divides
    B * m, and the leading extent of the result is then B * m / (2W-1) and
    not B, the [-1] of the reshape having absorbed the difference. *)
Theorem relative_logits_1d_accepts (q rel_k : tensor T) (B Nh H W d m : nat) :
  shape q = [B; Nh; H; W; d] -> shape rel_k = [m; d] ->
  1 <= B -> 1 <= Nh -> 1 <= H -> 1 <= W -> 1 <= d -> 1 <= m ->
  ((B * m) mod (2 * W - 1) = 0 ->
   exists r, relative_logits_1d zero contract q rel_k = Some r /\
             shape r = [B * m / (2 * W - 1); Nh; H; H; W; W]) /\
  ((B * m) mod (2 * W - 1) <> 0 ->
   relative_logits_1d zero contract q rel_k = None).
Proof.
  intros Hq Hk _ HNh HH HW _ _.
  unfold relative_logits_1d, einsum_bnhwd_md. rewrite Hq, Hk, Nat.eqb_refl.
  cbn [orb]. set (e := tabulate _ _).
  rewrite (@reshape_infer_scaled e _ (Nh * H * W) (B * m) (2 * W - 1)).
  2:{ subst e. cbn [shape tabulate numel fold_right]. lia. }
  2:{ cbn [numel fold_right]. lia. }
  2:{ nonzero. }
  2:{ lia. }
  destruct (Nat.eqb_spec ((B * m) mod (2 * W - 1)) 0) as [Hm|Hm].
  2:{ split; [intros E; contradiction|reflexivity]. }
  split; [intros _|intros Hbad; contradiction].
  set (c := B * m / (2 * W - 1)).
  set (x' := mkTensor _ _).
  destruct (@rel_to_abs_get T zero x' c (Nh * H) W) as (y & Hy & Hsy & _ & _);
    [reflexivity | exact HW |].
  rewrite Hy.
  rewrite (@reshape_infer_eq T y c).
  2:{ rewrite Hsy. cbn [numel fold_right]. lia. }
  2:{ cbn [numel fold_right]. nonzero. }
  unfold expand_dim, unsqueeze. cbn [shape length Nat.leb firstn skipn app set_nth data].
  eexists. split; reflexivity.
Qed.

End RelativeLogitsEdges.

(** ** [RelPosEmb.forward] and [MHSA.forward] *)

Section PositionBias.

Variable T : Type.
Variable zero : T.
Variable add mul : T -> T -> T.
Variable contract : list T -> list T -> T.
Variable softmax_row : list T -> list T.
Variable rsqrt : nat -> T.

Lemma reshape_wf (t r : tensor T) (s : list nat) :
  wf t -> reshape t s = Some r -> wf r.
Proof.
  unfold reshape, wf. intros Ht.
  destruct (Nat.eqb_spec (numel s) (numel (shape t))) as [E|E]; [|discriminate].
  intros [= <-]. cbn [shape data]. congruence.
Qed.

Lemma permute_wf (t r : tensor T) (perm : list nat) :
  permute zero t perm = Some r -> wf r.
Proof.
  unfold permute. destruct (_ && _); [|discriminate].
  intros [= <-]. apply wf_tabulate.
Qed.

Lemma rel_logits_w_wf (self : RelPosEmb T) (q l : tensor T) :
  RelPosEmb_rel_logits_w zero contract self q = Some l -> wf l.
Proof.
  unfold RelPosEmb_rel_logits_w.
  destruct (relative_logits_1d zero contract q (rel_width self)) as [r|]; [|discriminate].
  unfold rearrange_xy_ij.
  destruct (shape r) as [|b [|h [|x [|i [|y [|j [|]]]]]]]; try discriminate.
  destruct (permute zero r [0; 1; 2; 4; 3; 5]) as [p|] eqn:Hp; [|discriminate].
  apply reshape_wf. exact (permute_wf _ _ Hp).
Qed.

Lemma rel_logits_h_wf (self : RelPosEmb T) (q l : tensor T) :
  RelPosEmb_rel_logits_h zero contract self q = Some l -> wf l.
Proof.
  unfold RelPosEmb_rel_logits_h.
  destruct (rearrange_swap_xy zero q) as [qs|]; [|discriminate].
  destruct (relative_logits_1d zero contract qs (rel_height self)) as [r|]; [|discriminate].
  unfold rearrange_yx_ji.
  destruct (shape r) as [|b [|h [|x [|i [|y [|j [|]]]]]]]; try discriminate.
  destruct (permute zero r [0; 1; 4; 2; 5; 3]) as [p|] eqn:Hp; [|discriminate].
  apply reshape_wf. exact (permute_wf _ _ Hp).
Qed.

(** The sum of two tensors of one shape, entry by entry. *)
Lemma tensor_add_get (a b : tensor T) :
  shape a = shape b -> wf a -> wf b ->
  exists c, tensor_add add a b = Some c /\ shape c = shape a /\
    forall idx, in_bounds (shape a) idx ->
      get zero c idx = add (get zero a idx) (get zero b idx).
Proof.
  intros Hs Ha Hb. unfold tensor_add. rewrite <- Hs, list_eqb_refl.
  eexists. split; [reflexivity|]. split; [reflexivity|].
  intros idx Hidx. unfold get. cbn [shape data]. rewrite <- Hs.
  pose proof (ravel_lt Hidx) as Hlt.
  set (k := ravel (shape a) idx) in *.
  assert (Hlen : length (data a) = length (data b)).
  { unfold wf in *. congruence. }
  rewrite (nth_indep _ zero (add zero zero)).
  2:{ rewrite length_map, length_combine, <- Hlen, Nat.min_id. unfold wf in Ha. lia. }
  rewrite (map_nth (fun p => add (fst p) (snd p)) (combine (data a) (data b)) (zero, zero)).
  rewrite combine_nth by exact Hlen. reflexivity.
Qed.

(** X19: the position bias, entry by entry.  For a query of shape
    (B, Nh, height * width, d) [RelPosEmb.forward] returns a tensor of
    shape (B, Nh, height * width, height * width) whose entry for the query
    at grid position (x, y) and the key at (i, j) is the sum of the query
    paired with row j - y + width - 1 of the width table and the query
    paired with row i - x + height - 1 of the height table: it depends on
    the key only through the two offsets. *)
Theorem RelPosEmb_forward_entries (self : RelPosEmb T) (q : tensor T) (B Nh d : nat) :
  shape q = [B; Nh; height self * width self; d] ->
  shape (rel_height self) = [2 * height self - 1; d] ->
  shape (rel_width self) = [2 * width self - 1; d] ->
  1 <= Nh -> 1 <= height self -> 1 <= width self ->
  exists p,
    RelPosEmb_forward zero add contract self q = Some p /\
    shape p = [B; Nh; height self * width self; height self * width self] /\
    forall b n x y i j,
      b < B -> n < Nh -> x < height self -> y < width self ->
      i < height self -> j < width self ->
      get zero p [b; n; x * width self + y; i * width self + j] =
      add (contract (vec zero q [b; n; x * width self + y] d)
                    (vec zero (rel_width self) [j + (width self - 1) - y] d))
          (contract (vec zero q [b; n; x * width self + y] d)
                    (vec zero (rel_height self) [i + (height self - 1) - x] d)).
Proof.
  intros Hq Hh Hw HNh HH HW.
  unfold RelPosEmb_forward, RelPosEmb_grid, rearrange_split_xy.
  rewrite Hq, Nat.eqb_refl.
  rewrite reshape_eq by (rewrite Hq; cbn [numel fold_right]; lia).
  set (g := mkTensor _ _).
  assert (Hg : shape g = [B; Nh; height self; width self; d]) by reflexivity.
  assert (Hvec : forall b n x y, x < height self -> y < width self ->
            vec zero g [b; n; x; y] d = vec zero q [b; n; x * width self + y] d).
  { intros b n x y Hx Hy. apply vec_ext. intros k Hk. cbn [app].
    subst g. apply get_reshaped. rewrite Hq. cbn [ravel numel fold_right]. lia. }
  destruct (rel_logits_w_get zero contract self g Hg Hw HNh HH HW) as (lw & Elw & Hsw & Gw).
  destruct (rel_logits_h_get zero contract self g Hg Hh HNh HH HW) as (lh & Elh & Hsh & Gh).
  rewrite Elw, Elh.
  destruct (@tensor_add_get lw lh) as (p & Hp & Hsp & Gp).
  { now rewrite Hsw, Hsh. }
  { exact (rel_logits_w_wf _ _ Elw). }
  { exact (rel_logits_h_wf _ _ Elh). }
  exists p. split; [exact Hp|]. split; [now rewrite Hsp, Hsw|].
  intros b n x y i j Hb Hn Hx Hy Hi Hj.
  rewrite Gp by (rewrite Hsw; bounds; nia).
  rewrite Gw, Gh by assumption. now rewrite Hvec.
Qed.

(** X20: what [MHSA.forward] rejects.  A module built for [dim] input
    channels and a height x width feature map returns nothing on a 4-D
    input whose channel count is not [dim], and nothing on one whose number
    of positions H * W is not height * width. *)
Theorem MHSA_forward_rejects
    (dim fh fw hs dim_qk dim_v : nat)
    (w_qk w_v tmp_h tmp_w : list nat -> T) (self : MHSA T)
    (x : tensor T) (B C H W : nat) :
  MHSA_init rsqrt dim (fh, fw) hs dim_qk dim_v w_qk w_v tmp_h tmp_w
    = Some self ->
  shape x = [B; C; H; W] ->
  C <> dim \/ H * W <> fh * fw ->
  MHSA_forward zero add mul contract softmax_row self x = None.
Proof.
  intros Hinit Hx Hbad.
  unfold MHSA_init in Hinit.
  destruct (dim_qk =? 0); [discriminate|].
  destruct (RelPosEmb_init fh fw dim_qk tmp_h tmp_w) as [pe|] eqn:Hpe;
    [|discriminate].
  injection Hinit as <-.
  destruct (RelPosEmb_init_inv _ _ _ _ _ Hpe) as (Eh & Ew & _).
  unfold MHSA_forward. cbn [heads to_qk to_v pos_emb scale]. rewrite Hx.
  destruct (Nat.eq_dec C dim) as [HC|HC].
  2:{ unfold Conv1x1_forward at 1. rewrite Hx. cbn [in_channels].
      apply Nat.eqb_neq in HC. now rewrite HC. }
  assert (HHW : H * W <> fh * fw) by tauto.
  destruct (@Conv1x1_forward_shape T zero contract
              (mkConv1x1 dim (hs * dim_qk * 2)
                 (tabulate [hs * dim_qk * 2; dim; 1; 1] w_qk)) x B C H W Hx HC)
    as (qk & -> & Hqk).
  cbn [out_channels] in Hqk.
  destruct (@chunk2_shape T zero qk B (hs * dim_qk) H W Hqk) as (q & k & -> & Hq & Hk).
  destruct (@Conv1x1_forward_shape T zero contract
              (mkConv1x1 dim (hs * dim_v)
                 (tabulate [hs * dim_v; dim; 1; 1] w_v)) x B C H W Hx HC)
    as (v & -> & Hv).
  cbn [out_channels] in Hv.
  destruct (Nat.eq_dec hs 0) as [Hz|Hz].
  { subst hs. unfold rearrange_split_heads at 1. rewrite Hq. reflexivity. }
  assert (Hheads : 1 <= hs) by lia.
  destruct (@rearrange_split_heads_shape T zero q B hs dim_qk H W Hq Hheads) as (q' & -> & Hq').
  destruct (@rearrange_split_heads_shape T zero k B hs dim_qk H W Hk Hheads) as (k' & -> & Hk').
  destruct (@rearrange_split_heads_shape T zero v B hs dim_v H W Hv Hheads) as (v' & -> & Hv').
  set (qs := tensor_scale mul q' (rsqrt dim_qk)).
  assert (Hqs : shape qs = [B; hs; H * W; dim_qk]) by exact Hq'.
  unfold einsum_bhxd_bhyd. rewrite Hqs, Hk', !Nat.eqb_refl. cbn [andb].
  unfold RelPosEmb_forward, RelPosEmb_grid, rearrange_split_xy.
  rewrite Hqs, Eh, Ew.
  apply Nat.eqb_neq in HHW. now rewrite HHW.
Qed.

End PositionBias.

(** ** [BoTBlock] and [BoTStack]: what is built, and the shapes it returns *)

Section StackFacts.

Variable fmap_size : nat * nat.
Variable dim_out heads proj_factor stride dim_qk dim_v : nat.
Variable rel_pos_emb : bool.
Variable activation : Layer.

Lemma BoTStack_init_step_none (l : list nat) :
  fold_left (BoTStack_init_step fmap_size dim_out heads proj_factor stride dim_qk
               dim_v rel_pos_emb activation) l None = None.
Proof. induction l as [|i l IH]; [reflexivity|exact IH]. Qed.

(** A block built for as many input as output channels and stride 1 has
    [nn.Identity()] as its shortcut. *)
Lemma BoTBlock_init_same_channels (fmap : nat * nat) (blk : Layer) :
  BoTBlock_init dim_out fmap dim_out 1 heads proj_factor dim_qk dim_v rel_pos_emb
    activation = Some blk ->
  BoTBlock_shortcut blk = Identity.
Proof.
  unfold BoTBlock_init.
  destruct (proj_factor =? 0); [discriminate|].
  destruct ((dim_qk =? 0) || (fst fmap =? 0) || (snd fmap =? 0)); [discriminate|].
  intros [= <-]. cbn [BoTBlock_shortcut]. now rewrite Nat.eqb_refl.
Qed.

(** The turns of the loop from the second on: each appends a block built
    from the same arguments. *)
Lemma BoTStack_init_later (n : nat) :
  forall a d acc d' layers, 1 <= a ->
    fold_left (BoTStack_init_step fmap_size dim_out heads proj_factor stride dim_qk
                 dim_v rel_pos_emb activation)
              (seq a n) (Some (d, acc))
    = Some (d', layers) ->
    exists rest,
      layers = acc ++ rest /\ length rest = n /\
      Forall (fun blk =>
                BoTBlock_init dim_out
                  (fst fmap_size / (if stride =? 2 then 2 else 1),
                   snd fmap_size / (if stride =? 2 then 2 else 1))
                  dim_out 1 heads proj_factor dim_qk dim_v rel_pos_emb activation
                = Some blk) rest.
Proof.
  induction n as [|n IH]; intros a d acc d' layers Ha; cbn [seq fold_left].
  - intros [= <- <-]. exists []. rewrite app_nil_r. repeat split. constructor.
  - unfold BoTStack_init_step at 2.
    replace (a =? 0) with false by (symmetry; apply Nat.eqb_neq; lia).
    cbn [negb]. rewrite Bool.andb_true_r.
    destruct (BoTBlock_init dim_out _ dim_out 1 heads proj_factor dim_qk dim_v rel_pos_emb
                activation) as [blk|] eqn:Hblk.
    2:{ rewrite BoTStack_init_step_none. discriminate. }
    intros Hfold.
    destruct (IH (S a) dim_out (acc ++ [blk]) d' layers) as (rest & -> & Hlen & Hall);
      [lia | exact Hfold |].
    exists (blk :: rest). rewrite <- app_assoc. repeat split.
    + simpl. now rewrite Hlen.
    + constructor; [reflexivity|assumption].
Qed.

(** What a stack that was built is made of. *)
Lemma BoTStack_init_inv (dim n : nat) (self : BoTStack) :
  BoTStack_init dim fmap_size dim_out heads proj_factor (S n) stride dim_qk dim_v
    rel_pos_emb activation = Some self ->
  exists first rest,
    self = mkBoTStack dim fmap_size (Sequential (first :: rest)) /\
    length rest = n /\
    BoTBlock_init dim fmap_size dim_out stride heads proj_factor dim_qk dim_v
      rel_pos_emb activation = Some first /\
    Forall (fun blk =>
              BoTBlock_init dim_out
                (fst fmap_size / (if stride =? 2 then 2 else 1),
                 snd fmap_size / (if stride =? 2 then 2 else 1))
                dim_out 1 heads proj_factor dim_qk dim_v rel_pos_emb activation
              = Some blk) rest.
Proof.
  unfold BoTStack_init. cbn [seq fold_left].
  unfold BoTStack_init_step at 2. cbn [Nat.eqb negb].
  rewrite Bool.andb_false_r, !Nat.div_1_r.
  replace (fst fmap_size, snd fmap_size) with fmap_size by now destruct fmap_size.
  destruct (BoTBlock_init dim fmap_size dim_out stride heads proj_factor dim_qk dim_v
              rel_pos_emb activation) as [first|] eqn:Hfirst.
  2:{ rewrite BoTStack_init_step_none. discriminate. }
  cbn [app].
  destruct (fold_left _ _ _) as [[d' layers]|] eqn:Hfold; [|discriminate].
  intros [= <-].
  destruct (@BoTStack_init_later n 1 dim [first] d' layers (le_n 1) Hfold)
    as (rest & -> & Hlen & Hall).
  exists first, rest. repeat split; assumption.
Qed.

(** X21: what [BoTStack.__init__] builds.  A stack that was built keeps
    the [dim] and [fmap_size] it was given.  With no layer its net is the
    empty sequence.  Otherwise its net holds one block for each layer: the
    first is assembled as [BoTBlock.__init__] does for [dim] input
    channels, the given stride and the given feature map size; each later
    one is assembled as it does for [dim_out] input channels, stride 1 and
    the feature map size halved when the stride is 2, and has
    [nn.Identity()] as its shortcut.  The later blocks are modules of their
    own: what they share is the arguments they are built from. *)
Theorem BoTStack_init_blocks (dim num_layers : nat) (self : BoTStack) :
  BoTStack_init dim fmap_size dim_out heads proj_factor num_layers stride dim_qk dim_v
    rel_pos_emb activation = Some self ->
  stack_dim self = dim /\ stack_fmap_size self = fmap_size /\
  (num_layers = 0 -> stack_net self = Sequential []) /\
  (forall n, num_layers = S n ->
     exists first rest,
       stack_net self = Sequential (first :: rest) /\
       length rest = n /\
       BoTBlock_init dim fmap_size dim_out stride heads proj_factor dim_qk dim_v
         rel_pos_emb activation = Some first /\
       Forall (fun blk =>
                 BoTBlock_init dim_out
                   (fst fmap_size / (if stride =? 2 then 2 else 1),
                    snd fmap_size / (if stride =? 2 then 2 else 1))
                   dim_out 1 heads proj_factor dim_qk dim_v rel_pos_emb activation
                 = Some blk /\
                 BoTBlock_shortcut blk = Identity) rest).
Proof.
  intros Hinit.
  assert (Hself : stack_dim self = dim /\ stack_fmap_size self = fmap_size).
  { unfold BoTStack_init in Hinit.
    destruct (fold_left _ _ _) as [[d layers]|]; [|discriminate].
    injection Hinit as <-. split; reflexivity. }
  destruct Hself as (Hd & Hf). repeat split; try assumption.
  - intros ->. cbn in Hinit. now injection Hinit as <-.
  - intros n ->.
    destruct (BoTStack_init_inv _ _ Hinit) as (first & rest & -> & Hlen & Hfirst & Hall).
    exists first, rest. repeat split; try assumption.
    eapply Forall_impl; [|exact Hall].
    intros blk Hblk. split; [exact Hblk|].
    exact (BoTBlock_init_same_channels _ Hblk).
Qed.

End StackFacts.

Section ShapesThroughTheStack.

Variable T : Type.
Variable run_layer : Layer -> tensor T -> option (tensor T).
Variable plus : tensor T -> tensor T -> option (tensor T).

Hypothesis Hrules : follows_shapes run_layer.
Hypothesis Hplus : adds_equal_shapes plus.

Lemma run_Sequential_cons (l : Layer) (ls : list Layer) (x : tensor T) :
  run run_layer plus (Sequential (l :: ls)) x =
  (y <- run run_layer plus l x ;; run run_layer plus (Sequential ls) y).
Proof. reflexivity. Qed.

Lemma run_Sequential_nil (x : tensor T) : run run_layer plus (Sequential []) x = Some x.
Proof. reflexivity. Qed.

Lemma run_Conv2D (i o st : nat) (x : tensor T) (B H W : nat) :
  shape x = [B; i; H; W] -> 1 <= i -> 1 <= o -> 1 <= st -> 1 <= H -> 1 <= W ->
  exists y, run run_layer plus (Conv2D i o 1 st) x = Some y /\
            shape y = [B; o; window_extent H 1 st; window_extent W 1 st].
Proof.
  intros Hs Hi Ho Hst HH HW. cbn [run]. apply Hrules. rewrite Hs. cbn [layer_shape].
  rewrite Nat.eqb_refl.
  repeat match goal with
  | |- context [?a <=? ?b] => replace (a <=? b) with true by (symmetry; apply Nat.leb_le; lia)
  end.
  reflexivity.
Qed.

Lemma run_BatchNorm2D (n : nat) (x : tensor T) (B H W : nat) :
  shape x = [B; n; H; W] -> 1 <= n ->
  exists y, run run_layer plus (BatchNorm2D n) x = Some y /\ shape y = [B; n; H; W].
Proof.
  intros Hs Hn. cbn [run]. apply Hrules. rewrite Hs. cbn [layer_shape].
  rewrite Nat.eqb_refl.
  replace (1 <=? n) with true by (symmetry; apply Nat.leb_le; lia).
  reflexivity.
Qed.

Lemma run_Activation (x : tensor T) (B C H W : nat) :
  shape x = [B; C; H; W] ->
  exists y, run run_layer plus Activation x = Some y /\ shape y = [B; C; H; W].
Proof. intros Hs. cbn [run]. apply Hrules. now rewrite Hs. Qed.

Lemma run_AvgPool2D (x : tensor T) (B C H W : nat) :
  shape x = [B; C; H; W] -> 2 <= H -> 2 <= W ->
  exists y, run run_layer plus (AvgPool2D 2) x = Some y /\
            shape y = [B; C; window_extent H 2 2; window_extent W 2 2].
Proof.
  intros Hs HH HW. cbn [run]. apply Hrules. rewrite Hs. cbn [layer_shape].
  repeat match goal with
  | |- context [?a <=? ?b] => replace (a <=? b) with true by (symmetry; apply Nat.leb_le; lia)
  end.
  reflexivity.
Qed.

Lemma run_MHSALayer (dim fh fw heads dim_qk dim_v : nat) (r : bool) (x : tensor T)
    (B H W : nat) :
  shape x = [B; dim; H; W] -> H * W = fh * fw ->
  1 <= heads -> 1 <= dim_qk -> 1 <= fh -> 1 <= fw ->
  exists y, run run_layer plus (MHSALayer dim (fh, fw) heads dim_qk dim_v r) x = Some y /\
            shape y = [B; heads * dim_v; H; W].
Proof.
  intros Hs HHW Hh Hq Hfh Hfw. cbn [run]. apply Hrules. rewrite Hs. cbn [layer_shape].
  rewrite Nat.eqb_refl, HHW, Nat.eqb_refl.
  repeat match goal with
  | |- context [?a <=? ?b] => replace (a <=? b) with true by (symmetry; apply Nat.leb_le; lia)
  end.
  reflexivity.
Qed.

Lemma window_extent_1_1 (h : nat) : 1 <= h -> window_extent h 1 1 = h.
Proof. intros H. unfold window_extent. rewrite Nat.div_1_r. lia. Qed.

Lemma window_extent_even (h k : nat) :
  h = 2 * k -> 1 <= k -> window_extent h 1 2 = k /\ window_extent h 2 2 = k.
Proof.
  intros -> Hk. unfold window_extent. split.
  - replace (2 * k - 1) with (1 + (k - 1) * 2) by lia.
    rewrite Nat.div_add by lia. cbn. lia.
  - replace (2 * k - 2) with ((k - 1) * 2) by lia.
    rewrite Nat.div_mul by lia. lia.
Qed.

(** The two paths of a block return one shape. *)
Lemma BoTBlock_paths_shape
    (dim fh fw dim_out stride hs proj_factor dim_qk dim_v : nat) (rel_pos_emb : bool)
    (blk : Layer) (x : tensor T) (B kh kw : nat) :
  BoTBlock_init dim (fh, fw) dim_out stride hs proj_factor dim_qk dim_v rel_pos_emb
    Activation = Some blk ->
  1 <= dim -> proj_factor <= dim_out -> 1 <= hs -> 1 <= dim_qk -> 1 <= dim_v ->
  1 <= fh -> 1 <= fw ->
  shape x = [B; dim; fh; fw] ->
  (stride = 1 /\ kh = fh /\ kw = fw) \/
  (stride = 2 /\ fh = 2 * kh /\ fw = 2 * kw) ->
  exists s f y,
    run run_layer plus (BoTBlock_shortcut blk) x = Some s /\
    run run_layer plus (BoTBlock_net blk) x = Some f /\
    shape s = [B; dim_out; kh; kw] /\
    shape f = [B; dim_out; kh; kw] /\
    run run_layer plus blk x = Some y /\
    shape y = [B; dim_out; kh; kw].
Proof.
  intros Hinit Hdim Hpf Hhs Hqk Hdv Hfh Hfw Hx Hstride.
  unfold BoTBlock_init in Hinit.
  destruct (Nat.eqb_spec proj_factor 0) as [Hz|Hz]; [discriminate|].
  destruct ((dim_qk =? 0) || (fst (fh, fw) =? 0) || (snd (fh, fw) =? 0)); [discriminate|].
  injection Hinit as <-.
  assert (Hb : 1 <= dim_out / proj_factor).
  { apply Nat.div_str_pos. lia. }
  assert (Hout : 1 <= dim_out) by lia.
  assert (Hattn : 1 <= hs * dim_v) by nia.
  assert (Hkh : 1 <= kh) by lia. assert (Hkw : 1 <= kw) by lia.
  (* the main path *)
  assert (Hnet : exists y,
            run run_layer plus
              (Sequential
                 [Conv2D dim (dim_out / proj_factor) 1 1;
                  BatchNorm2D (dim_out / proj_factor);
                  Activation;
                  MHSALayer (dim_out / proj_factor) (fh, fw) hs dim_qk dim_v rel_pos_emb;
                  (if stride =? 2 then AvgPool2D 2 else Identity);
                  BatchNorm2D (hs * dim_v);
                  Activation;
                  Conv2D (hs * dim_v) dim_out 1 1;
                  BatchNorm2D dim_out]) x = Some y /\
            shape y = [B; dim_out; kh; kw]).
  { rewrite run_Sequential_cons.
    destruct (@run_Conv2D dim (dim_out / proj_factor) 1 x B fh fw)
      as (y1 & -> & S1); try assumption; try lia.
    rewrite !window_extent_1_1 in S1 by assumption.
    rewrite run_Sequential_cons.
    destruct (@run_BatchNorm2D _ y1 B fh fw S1 Hb) as (y2 & -> & S2).
    rewrite run_Sequential_cons.
    destruct (@run_Activation y2 _ _ _ _ S2) as (y3 & -> & S3).
    rewrite run_Sequential_cons.
    destruct (@run_MHSALayer _ fh fw hs dim_qk dim_v rel_pos_emb y3 B fh fw S3 eq_refl)
      as (y4 & -> & S4); try assumption.
    rewrite run_Sequential_cons.
    assert (H5 : exists y5,
              run run_layer plus (if stride =? 2 then AvgPool2D 2 else Identity) y4 = Some y5 /\
              shape y5 = [B; hs * dim_v; kh; kw]).
    { destruct Hstride as [(-> & -> & ->)|(-> & Eh & Ew)]; cbn [Nat.eqb].
      - exists y4. split; [reflexivity|exact S4].
      - destruct (@run_AvgPool2D y4 _ _ _ _ S4) as (y5 & E5 & S5); try lia.
        exists y5. split; [exact E5|].
        rewrite S5.
        rewrite (proj2 (window_extent_even Eh Hkh)), (proj2 (window_extent_even Ew Hkw)).
        reflexivity. }
    destruct H5 as (y5 & -> & S5).
    rewrite run_Sequential_cons.
    destruct (@run_BatchNorm2D _ y5 B kh kw S5 Hattn) as (y6 & -> & S6).
    rewrite run_Sequential_cons.
    destruct (@run_Activation y6 _ _ _ _ S6) as (y7 & -> & S7).
    rewrite run_Sequential_cons.
    destruct (@run_Conv2D (hs * dim_v) dim_out 1 y7 B kh kw)
      as (y8 & -> & S8); try assumption; try lia.
    rewrite !window_extent_1_1 in S8 by assumption.
    rewrite run_Sequential_cons.
    destruct (@run_BatchNorm2D _ y8 B kh kw S8 Hout) as (y9 & -> & S9).
    rewrite run_Sequential_nil. now exists y9. }
  (* the shortcut *)
  assert (Hsc : exists z,
            run run_layer plus
              (if negb (dim =? dim_out) || negb (stride =? 1)
               then Sequential [Conv2D dim dim_out 1 stride; BatchNorm2D dim_out; Activation]
               else Identity) x = Some z /\
            shape z = [B; dim_out; kh; kw]).
  { destruct (negb (dim =? dim_out) || negb (stride =? 1)) eqn:Hcase.
    - rewrite run_Sequential_cons.
      destruct (@run_Conv2D dim dim_out stride x B fh fw)
        as (z1 & -> & Z1); try assumption; try lia.
      assert (Z1' : shape z1 = [B; dim_out; kh; kw]).
      { rewrite Z1. destruct Hstride as [(-> & -> & ->)|(-> & Eh & Ew)].
        - now rewrite !window_extent_1_1.
        - rewrite (proj1 (window_extent_even Eh Hkh)), (proj1 (window_extent_even Ew Hkw)).
          reflexivity. }
      rewrite run_Sequential_cons.
      destruct (@run_BatchNorm2D _ z1 B kh kw Z1' Hout) as (z2 & -> & Z2).
      rewrite run_Sequential_cons.
      destruct (@run_Activation z2 _ _ _ _ Z2) as (z3 & -> & Z3).
      rewrite run_Sequential_nil. now exists z3.
    - apply Bool.orb_false_elim in Hcase. destruct Hcase as (Hd & Hst).
      apply Bool.negb_false_iff in Hd, Hst.
      apply Nat.eqb_eq in Hd, Hst. subst dim.
      destruct Hstride as [(_ & -> & ->)|(-> & _)]; [|discriminate].
      exists x. split; [reflexivity|exact Hx]. }
  destruct Hnet as (y & Hy & Sy). destruct Hsc as (z & Hz' & Sz).
  cbn [BoTBlock_shortcut BoTBlock_net].
  assert (Hrun : exists c, run run_layer plus
            (BoTBlock
               (if negb (dim =? dim_out) || negb (stride =? 1)
                then Sequential [Conv2D dim dim_out 1 stride; BatchNorm2D dim_out; Activation]
                else Identity)
               (Sequential
                  [Conv2D dim (dim_out / proj_factor) 1 1;
                   BatchNorm2D (dim_out / proj_factor);
                   Activation;
                   MHSALayer (dim_out / proj_factor) (fh, fw) hs dim_qk dim_v rel_pos_emb;
                   (if stride =? 2 then AvgPool2D 2 else Identity);
                   BatchNorm2D (hs * dim_v);
                   Activation;
                   Conv2D (hs * dim_v) dim_out 1 1;
                   BatchNorm2D dim_out]) Activation) x = Some c /\
            shape c = [B; dim_out; kh; kw]).
  { cbn [run]. cbn [run] in Hy, Hz'. rewrite Hz', Hy.
    destruct (Hplus y z) as (c & -> & Sc); [congruence|].
    rewrite Sy in Sc. apply Hrules. now rewrite Sc. }
  destruct Hrun as (c & Hc & Sc).
  exists z, y, c. repeat split; assumption.
Qed.

(** X22: the shapes through a block.  In a framework whose layers follow
    their shape rules, a block built with stride 1 maps a batch of feature
    maps of shape (B, dim, h, w), h x w its feature map size, to one of
    shape (B, dim_out, h, w); and a block built with stride 2 maps it, when
    h and w are even, to one of shape (B, dim_out, h / 2, w / 2): the
    channel counts of the layers of the block fit each other, and the main
    path and the shortcut return one shape, so that their sum exists. *)
Theorem BoTBlock_forward_shape
    (dim fh fw dim_out stride hs proj_factor dim_qk dim_v : nat) (rel_pos_emb : bool)
    (blk : Layer) (x : tensor T) (B kh kw : nat) :
  BoTBlock_init dim (fh, fw) dim_out stride hs proj_factor dim_qk dim_v rel_pos_emb
    Activation = Some blk ->
  1 <= dim -> proj_factor <= dim_out -> 1 <= hs -> 1 <= dim_qk -> 1 <= dim_v ->
  1 <= fh -> 1 <= fw ->
  shape x = [B; dim; fh; fw] ->
  (stride = 1 /\ kh = fh /\ kw = fw) \/
  (stride = 2 /\ fh = 2 * kh /\ fw = 2 * kw) ->
  exists s f y,
    run run_layer plus (BoTBlock_shortcut blk) x = Some s /\
    run run_layer plus (BoTBlock_net blk) x = Some f /\
    shape s = shape f /\
    run run_layer plus blk x = Some y /\
    shape y = [B; dim_out; kh; kw].
Proof.
  intros Hinit Hdim Hpf Hhs Hqk Hdv Hfh Hfw Hx Hstride.
  destruct (@BoTBlock_paths_shape dim fh fw dim_out stride hs proj_factor dim_qk dim_v
              rel_pos_emb blk x B kh kw Hinit Hdim Hpf Hhs Hqk Hdv Hfh Hfw Hx Hstride)
    as (s & f & y & Hs & Hf & Ss & Sf & Hy & Sy).
  exists s, f, y. repeat split; try assumption. congruence.
Qed.

Lemma run_all (s : list nat) (rest : list Layer) :
  Forall (fun blk => forall x, shape x = s ->
            exists y, run run_layer plus blk x = Some y /\ shape y = s) rest ->
  forall x, shape x = s ->
    exists y, run run_layer plus (Sequential rest) x = Some y /\ shape y = s.
Proof.
  induction 1 as [|blk rest Hblk _ IH]; intros x Hx.
  - exists x. split; [reflexivity|exact Hx].
  - rewrite run_Sequential_cons.
    destruct (Hblk x Hx) as (y & -> & Sy). now apply IH.
Qed.

(** X23: the shapes through a stack.  In a framework whose layers follow
    their shape rules, a stack of one or more layers built with stride 1
    passes both assertions on a batch of shape (B, dim, h, w), h x w its
    feature map size, and returns a batch of shape (B, dim_out, h, w); built
    with stride 2, and h and w even, it returns one of shape
    (B, dim_out, h / 2, w / 2): the blocks after the first are built for
    the channels and the feature map size the first block returns. *)
Theorem BoTStack_forward_shape
    (dim fh fw dim_out hs proj_factor n stride dim_qk dim_v : nat) (rel_pos_emb : bool)
    (self : BoTStack) (x : tensor T) (B kh kw : nat) :
  BoTStack_init dim (fh, fw) dim_out hs proj_factor (S n) stride dim_qk dim_v rel_pos_emb
    Activation = Some self ->
  1 <= dim -> 1 <= proj_factor -> proj_factor <= dim_out ->
  1 <= hs -> 1 <= dim_qk -> 1 <= dim_v -> 1 <= fh -> 1 <= fw ->
  shape x = [B; dim; fh; fw] ->
  (stride = 1 /\ kh = fh /\ kw = fw) \/
  (stride = 2 /\ fh = 2 * kh /\ fw = 2 * kw) ->
  exists y,
    BoTStack_forward run_layer plus self x = Ran (Some y) /\
    shape y = [B; dim_out; kh; kw].
Proof.
  intros Hinit Hdim Hpf1 Hpf Hhs Hqk Hdv Hfh Hfw Hx Hstride.
  destruct (@BoTStack_init_inv (fh, fw) dim_out hs proj_factor stride dim_qk dim_v
              rel_pos_emb Activation dim n self Hinit)
    as (first & rest & -> & _ & Hfirst & Hall).
  unfold BoTStack_forward. rewrite Hx. cbn [stack_dim stack_fmap_size stack_net fst snd].
  rewrite !Nat.eqb_refl. cbn [negb andb].
  rewrite run_Sequential_cons.
  destruct (@BoTBlock_paths_shape dim fh fw dim_out stride hs proj_factor dim_qk dim_v
              rel_pos_emb first x B kh kw Hfirst Hdim Hpf Hhs Hqk Hdv Hfh Hfw Hx Hstride)
    as (_ & _ & y1 & _ & _ & _ & _ & -> & S1).
  assert (Hfm : (fst (fh, fw) / (if stride =? 2 then 2 else 1),
                 snd (fh, fw) / (if stride =? 2 then 2 else 1)) = (kh, kw)).
  { cbn [fst snd]. destruct Hstride as [(-> & -> & ->)|(-> & -> & ->)]; cbn [Nat.eqb].
    - now rewrite !Nat.div_1_r.
    - now rewrite !(Nat.mul_comm 2), !Nat.div_mul by lia. }
  rewrite Hfm in Hall.
  assert (Hkh : 1 <= kh) by lia. assert (Hkw : 1 <= kw) by lia.
  destruct (@run_all [B; dim_out; kh; kw] rest) with (x := y1)
    as (y & Hy & Sy); [|exact S1|].
  { eapply Forall_impl; [|exact Hall]. intros blk Hblk z Hz.
    assert (Hs1 : (1 = 1 /\ kh = kh /\ kw = kw) \/ (1 = 2 /\ kh = 2 * kh /\ kw = 2 * kw))
      by (left; repeat split).
    assert (Hdo : 1 <= dim_out) by lia.
    destruct (@BoTBlock_paths_shape dim_out kh kw dim_out 1 hs proj_factor dim_qk dim_v
                rel_pos_emb blk z B kh kw Hblk Hdo Hpf Hhs Hqk Hdv Hkh Hkw Hz Hs1)
      as (_ & _ & y' & _ & _ & _ & _ & Hy' & Sy').
    now exists y'. }
  exists y. split; [now rewrite Hy|exact Sy].
Qed.

End ShapesThroughTheStack.

(** ** The further properties on concrete inputs *)

Lemma update_config_from_file_keeps_keys_witness :
  exists c,
    _update_config_from_file example_literal_eval example_files example_base_path 5 _C
        "cfg/child.yaml" = Ok c /\
    skeleton_of c = skeleton_of _C.
Proof.
  eexists. split; [vm_compute; reflexivity|].
  eapply (@update_config_from_file_keeps_keys example_literal_eval example_files
      example_base_path 5 _C _
           "cfg/child.yaml").
  vm_compute; reflexivity.
Defined.

Lemma update_config_from_file_unknown_key_witness :
  more_files "new.yaml" = Ok (YMapping [("SEED", Leaf (PInt 1)); ("EPOCHS", Leaf (PInt 3))]) /\
  getattr _C "EPOCHS" = Raise AttributeError /\
  exists e, _update_config_from_file example_literal_eval more_files example_base_path 5 _C
      "new.yaml" = Raise e.
Proof.
  split; [reflexivity|]. split; [reflexivity|].
  eapply (@update_config_from_file_unknown_key example_literal_eval more_files example_base_path
      5 false _
           [("SEED", Leaf (PInt 1)); ("EPOCHS", Leaf (PInt 3))] "new.yaml" "EPOCHS");
    [reflexivity | simpl; tauto | reflexivity].
Defined.



Lemma update_config_from_file_other_keys_witness :
  exists c,
    _update_config_from_file example_literal_eval example_files example_base_path 5 _C
        "cfg/child.yaml" = Ok c /\
    getattr c "SEED" = rmap freeze (getattr _C "SEED").
Proof.
  eexists. split; [vm_compute; reflexivity|].
  eapply (@update_config_from_file_other_keys example_literal_eval example_files
      example_base_path 5 _C _
           "cfg/child.yaml" "SEED" ["cfg/parent.yaml"; "cfg/child.yaml"]);
    [reflexivity | | vm_compute; reflexivity].
  intros g es [<-|[<-|[]]] [= <-]; reflexivity.
Defined.

Lemma update_config_from_file_self_base_witness :
  _update_config_from_file example_literal_eval more_files example_base_path 1000 _C "loop.yaml"
  = Raise RecursionError.
Proof.
  eapply (@update_config_from_file_self_base example_literal_eval more_files example_base_path
      1000 _C
           "loop.yaml" "loop.yaml" _ []);
    [reflexivity | reflexivity | discriminate | reflexivity].
Defined.

Lemma update_config_from_file_missing_base_witness :
  _update_config_from_file example_literal_eval more_files example_base_path 5 _C "orphan.yaml" =
      Raise FileError /\
  _update_config_from_file example_literal_eval more_files example_base_path 5 _C "stray.yaml"
  = Raise AttributeError.
Proof.
  split.
  - eapply (proj1 (@update_config_from_file_missing_base example_literal_eval more_files
      example_base_path 3 _C
                     "orphan.yaml" "gone.yaml" [("BASE", Leaf (PList [PStr "gone.yaml"]))] []
                     eq_refl eq_refl ltac:(discriminate))).
    reflexivity.
  - eapply (proj2 (@update_config_from_file_missing_base example_literal_eval more_files
      example_base_path 3 _C
                     "stray.yaml" "list.yaml" [("BASE", Leaf (PList [PStr "list.yaml"]))] []
                     eq_refl eq_refl ltac:(discriminate))).
    right. reflexivity.
Defined.

Lemma update_config_from_file_string_base_witness :
  _update_config_from_file example_literal_eval more_files example_base_path 5 _C "scalar.yaml" =
      Raise FileError.
Proof.
  eapply (@update_config_from_file_string_base example_literal_eval more_files example_base_path
      3 _C
           "scalar.yaml" "p"%char ".yaml" _ FileError);
    [reflexivity | reflexivity | reflexivity].
Defined.

Lemma update_config_from_file_depth_witness :
  exists c,
    _update_config_from_file example_literal_eval example_files example_base_path 2 _C
        "cfg/child.yaml" = Ok c /\
    _update_config_from_file example_literal_eval example_files example_base_path 50 _C
        "cfg/child.yaml" = Ok c.
Proof.
  eexists. split; [vm_compute; reflexivity|].
  eapply (@update_config_from_file_depth example_literal_eval example_files example_base_path 2
      50 _C _
           "cfg/child.yaml"); [lia | vm_compute; reflexivity].
Defined.




Lemma update_config_cli_wins_witness :
  exists c1,
    update_config_file example_literal_eval example_files example_base_path 5 _C all_args = Ok c1 /\
    exists c',
      update_config example_literal_eval example_files example_base_path 5 _C all_args = Ok c' /\
      (forall s, args_dataset all_args = Some s -> s <> "" ->
         getattr2 c' "DATA" "DATASET" = Ok (Leaf (PStr s))) /\
      (forall z, args_batch_size all_args = Some z -> z <> 0%Z ->
         getattr2 c' "DATA" "BATCH_SIZE" = Ok (Leaf (PInt z))) /\
      (forall z, args_image_size all_args = Some z -> z <> 0%Z ->
         getattr2 c' "DATA" "IMAGE_SIZE" = Ok (Leaf (PInt z))) /\
      (forall s, args_data_path all_args = Some s -> s <> "" ->
         getattr2 c' "DATA" "DATA_PATH" = Ok (Leaf (PStr s))) /\
      (forall z, args_ngpus all_args = Some z -> z <> 0%Z ->
         getattr c' "NGPUS" = Ok (Leaf (PInt z))) /\
      (forall s, args_pretrained all_args = Some s -> s <> "" ->
         getattr2 c' "MODEL" "PRETRAINED" = Ok (Leaf (PStr s))) /\
      (forall s, args_resume all_args = Some s -> s <> "" ->
         getattr2 c' "MODEL" "RESUME" = Ok (Leaf (PStr s))) /\
      (forall z, args_last_epoch all_args = Some z -> z <> 0%Z ->
         getattr2 c' "TRAIN" "LAST_EPOCH" = Ok (Leaf (PInt z))).
Proof.
  eexists. split; [vm_compute; reflexivity|].
  eapply (@update_config_cli_wins example_literal_eval example_files example_base_path 5 _C _ _
      all_args
            has_sections_defaults);
    [reflexivity | vm_compute; reflexivity].
Defined.

Lemma update_config_skips_empty_options_witness :
  exists c1,
    update_config_file example_literal_eval example_files example_base_path 5 _C falsy_args = Ok
        c1 /\
    exists c',
      update_config example_literal_eval example_files example_base_path 5 _C falsy_args = Ok c' /\
      (args_dataset falsy_args = None \/ args_dataset falsy_args = Some "" ->
         getattr2 c' "DATA" "DATASET" = rmap defrost (getattr2 c1 "DATA" "DATASET")) /\
      (args_batch_size falsy_args = None \/ args_batch_size falsy_args = Some 0%Z ->
         getattr2 c' "DATA" "BATCH_SIZE" = rmap defrost (getattr2 c1 "DATA" "BATCH_SIZE")) /\
      (args_image_size falsy_args = None \/ args_image_size falsy_args = Some 0%Z ->
         getattr2 c' "DATA" "IMAGE_SIZE" = rmap defrost (getattr2 c1 "DATA" "IMAGE_SIZE")) /\
      (args_data_path falsy_args = None \/ args_data_path falsy_args = Some "" ->
         getattr2 c' "DATA" "DATA_PATH" = rmap defrost (getattr2 c1 "DATA" "DATA_PATH")) /\
      (args_ngpus falsy_args = None \/ args_ngpus falsy_args = Some 0%Z ->
         getattr c' "NGPUS" = rmap defrost (getattr c1 "NGPUS")) /\
      (args_pretrained falsy_args = None \/ args_pretrained falsy_args = Some "" ->
         getattr2 c' "MODEL" "PRETRAINED" = rmap defrost (getattr2 c1 "MODEL" "PRETRAINED")) /\
      (args_resume falsy_args = None \/ args_resume falsy_args = Some "" ->
         getattr2 c' "MODEL" "RESUME" = rmap defrost (getattr2 c1 "MODEL" "RESUME")) /\
      (args_last_epoch falsy_args = None \/ args_last_epoch falsy_args = Some 0%Z ->
         getattr2 c' "TRAIN" "LAST_EPOCH" = rmap defrost (getattr2 c1 "TRAIN" "LAST_EPOCH")) /\
      (args_eval falsy_args = false ->
         getattr c' "EVAL" = rmap defrost (getattr c1 "EVAL") /\
         getattr2 c' "DATA" "BATCH_SIZE_EVAL"
           = rmap defrost (getattr2 c1 "DATA" "BATCH_SIZE_EVAL")) /\
      (args_amp falsy_args = false -> getattr c' "AMP" = rmap defrost (getattr c1 "AMP")).
Proof.
  eexists. split; [vm_compute; reflexivity|].
  eapply (@update_config_skips_empty_options example_literal_eval example_files example_base_path
      5 _C _ _
            falsy_args has_sections_defaults);
    [reflexivity | vm_compute; reflexivity].
Defined.

Lemma update_config_other_attributes_witness :
  exists c1,
    update_config_file example_literal_eval example_files example_base_path 5 _C all_args = Ok c1 /\
    exists c',
      update_config example_literal_eval example_files example_base_path 5 _C all_args = Ok c' /\
      (forall k, ~ In k ("DATA" :: "MODEL" :: "TRAIN" :: cli_keys) ->
         getattr c' k = rmap defrost (getattr c1 k)) /\
      (forall s n, ~ In s cli_keys -> ~ In (s, n) cli_fields ->
         getattr2 c' s n = rmap defrost (getattr2 c1 s n)).
Proof.
  eexists. split; [vm_compute; reflexivity|].
  eapply (@update_config_other_attributes example_literal_eval example_files example_base_path 5
      _C _ _ all_args
            has_sections_defaults);
    [reflexivity | vm_compute; reflexivity].
Defined.

Lemma update_config_amp_flag_witness :
  exists c1,
    update_config_file example_literal_eval example_files example_base_path 5 _C all_args = Ok c1 /\
    exists c',
      update_config example_literal_eval example_files example_base_path 5 _C all_args = Ok c' /\
      getattr c' "AMP"
      = Ok (Leaf (PBool (negb (args_eval all_args || is_True (getattr c1 "EVAL"))))).
Proof.
  eexists. split; [vm_compute; reflexivity|].
  eapply (@update_config_amp_flag example_literal_eval example_files example_base_path 5 _C _ _
      all_args
            has_sections_defaults);
    [reflexivity | vm_compute; reflexivity | reflexivity].
Defined.

Lemma expand_dim_repeats_witness :
  exists r,
    expand_dim 0%Z example_rel (length [1; 1]) 2 = Some r /\
    shape r = [1; 1] ++ 2 :: [3; 5] /\
    (forall pre post j,
       in_bounds [1; 1] pre -> in_bounds [3; 5] post -> j < 2 ->
       get 0%Z r (pre ++ j :: post) = get 0%Z example_rel (pre ++ post)) /\
    (forall dim, length (shape example_rel) < dim -> expand_dim 0%Z example_rel dim 2 = None).
Proof.
  eapply (@expand_dim_repeats Z 0%Z example_rel [1; 1] [3; 5] 2); [reflexivity | lia].
Defined.

Lemma rel_to_abs_entries_witness :
  exists y, rel_to_abs 0%Z example_rel = Some y /\ shape y = [1; 1; 3; 3] /\
    (forall b n i k, b < 1 -> n < 1 -> i < 3 -> k < 3 ->
       k + (3 - 1) - i < 2 * 3 - 1 /\
       get 0%Z y [b; n; i; k] = get 0%Z example_rel [b; n; i; k + (3 - 1) - i]) /\
    (forall b n i, b < 1 -> n < 1 -> i < 3 ->
       get 0%Z y [b; n; i; i] = get 0%Z example_rel [b; n; i; 3 - 1]).
Proof.
  eapply (@rel_to_abs_entries Z 0%Z example_rel 1 1 3); [reflexivity | lia].
Defined.

Lemma rel_to_abs_accepts_witness :
  (exists y, rel_to_abs 0%Z example_rel = Some y /\ shape y = [1; 1; 3; 3]) /\
  rel_to_abs 0%Z (zeros 0%Z [1; 1; 3; 4]) = None.
Proof.
  split.
  - apply (proj1 (@rel_to_abs_accepts Z 0%Z example_rel 1 1 3 5 eq_refl (le_n 1) (le_n 1))).
    split; [lia | reflexivity].
  - apply (proj2 (@rel_to_abs_accepts Z 0%Z (zeros 0%Z [1; 1; 3; 4]) 1 1 3 4 eq_refl
                    (le_n 1) (le_n 1))).
    intros (_ & H). discriminate H.
Defined.

Lemma relative_logits_1d_entries_witness :
  exists r, relative_logits_1d 0%Z zdot example_grid example_table = Some r /\
    shape r = [1; 1; 2; 2; 2; 2] /\
    (forall b n x i y j, b < 1 -> n < 1 -> x < 2 -> i < 2 -> y < 2 -> j < 2 ->
       j + (2 - 1) - y < 2 * 2 - 1 /\
       get 0%Z r [b; n; x; i; y; j] =
       zdot (vec 0%Z example_grid [b; n; x; y] 1)
            (vec 0%Z example_table [j + (2 - 1) - y] 1)) /\
    (forall b n x i i' y j, b < 1 -> n < 1 -> x < 2 -> i < 2 -> i' < 2 -> y < 2 -> j < 2 ->
       get 0%Z r [b; n; x; i; y; j] = get 0%Z r [b; n; x; i'; y; j]).
Proof.
  eapply (@relative_logits_1d_entries Z 0%Z zdot example_grid example_table 1 1 2 2 1);
    try reflexivity; lia.
Defined.

Lemma relative_logits_1d_accepts_witness :
  (exists r, relative_logits_1d 0%Z zdot example_grid example_long_table = Some r /\
             shape r = [1 * 6 / (2 * 2 - 1); 1; 2; 2; 2; 2]) /\
  relative_logits_1d 0%Z zdot example_grid (zeros 0%Z [4; 1]) = None.
Proof.
  split.
  - apply (proj1 (@relative_logits_1d_accepts Z 0%Z zdot example_grid example_long_table
                    1 1 2 2 1 6 eq_refl eq_refl (le_n 1) (le_n 1) (le_S 1 1 (le_n 1))
                    (le_S 1 1 (le_n 1)) (le_n 1) (Nat.lt_0_succ 5))).
    reflexivity.
  - apply (proj2 (@relative_logits_1d_accepts Z 0%Z zdot example_grid (zeros 0%Z [4; 1])
                    1 1 2 2 1 4 eq_refl eq_refl (le_n 1) (le_n 1) (le_S 1 1 (le_n 1))
                    (le_S 1 1 (le_n 1)) (le_n 1) (Nat.lt_0_succ 3))).
    discriminate.
Defined.

Lemma RelPosEmb_forward_entries_witness :
  exists p,
    RelPosEmb_forward 0%Z Z.add zdot example_emb example_query = Some p /\
    shape p = [1; 1; height example_emb * width example_emb;
               height example_emb * width example_emb] /\
    forall b n x y i j,
      b < 1 -> n < 1 -> x < height example_emb -> y < width example_emb ->
      i < height example_emb -> j < width example_emb ->
      get 0%Z p [b; n; x * width example_emb + y; i * width example_emb + j] =
      Z.add (zdot (vec 0%Z example_query [b; n; x * width example_emb + y] 1)
                  (vec 0%Z (rel_width example_emb) [j + (width example_emb - 1) - y] 1))
            (zdot (vec 0%Z example_query [b; n; x * width example_emb + y] 1)
                  (vec 0%Z (rel_height example_emb) [i + (height example_emb - 1) - x] 1)).
Proof.
  eapply (@RelPosEmb_forward_entries Z 0%Z Z.add zdot example_emb example_query 1 1 1);
    try reflexivity; simpl; lia.
Defined.

Lemma MHSA_forward_rejects_witness :
  exists self, example_mhsa = Some self /\
    MHSA_forward 0%Z Z.add Z.mul zdot (fun r => r) self (zeros 0%Z [2; 5; 2; 2]) = None.
Proof.
  eexists. split; [reflexivity|].
  eapply (@MHSA_forward_rejects Z 0%Z Z.add Z.mul zdot (fun r => r) (fun _ => 1%Z)
            3 2 2 2 1 2 _ _ _ _ _ (zeros 0%Z [2; 5; 2; 2]) 2 5 2 2);
    [reflexivity | reflexivity | left; lia].
Defined.

Lemma BoTStack_init_blocks_witness :
  exists self,
    BoTStack_init 1024 (14, 14) 2048 4 4 3 1 128 128 true Activation = Some self /\
    stack_dim self = 1024 /\ stack_fmap_size self = (14, 14) /\
    (3 = 0 -> stack_net self = Sequential []) /\
    (forall n, 3 = S n ->
       exists first rest,
         stack_net self = Sequential (first :: rest) /\
         length rest = n /\
         BoTBlock_init 1024 (14, 14) 2048 1 4 4 128 128 true Activation = Some first /\
         Forall (fun blk =>
                   BoTBlock_init 2048
                     (fst (14, 14) / (if 1 =? 2 then 2 else 1),
                      snd (14, 14) / (if 1 =? 2 then 2 else 1))
                     2048 1 4 4 128 128 true Activation = Some blk /\
                   BoTBlock_shortcut blk = Identity) rest).
Proof.
  eexists. split; [reflexivity|].
  eapply (@BoTStack_init_blocks (14, 14) 2048 4 4 1 128 128 true Activation 1024 3).
  reflexivity.
Defined.

Lemma shape_run_layer_follows : follows_shapes shape_run_layer.
Proof.
  intros l x s' H. unfold shape_run_layer. rewrite H. eexists. split; reflexivity.
Qed.

Lemma example_plus_adds : adds_equal_shapes example_plus.
Proof.
  intros a b H. unfold example_plus, tensor_add. rewrite <- H, list_eqb_refl.
  eexists. split; reflexivity.
Qed.

Lemma BoTBlock_forward_shape_witness :
  exists blk,
    BoTBlock_init 8 (4, 6) 16 2 2 4 3 5 true Activation = Some blk /\
    exists s f y,
      run shape_run_layer example_plus (BoTBlock_shortcut blk) (zeros 0%Z [1; 8; 4; 6]) = Some s /\
      run shape_run_layer example_plus (BoTBlock_net blk) (zeros 0%Z [1; 8; 4; 6]) = Some f /\
      shape s = shape f /\
      run shape_run_layer example_plus blk (zeros 0%Z [1; 8; 4; 6]) = Some y /\
      shape y = [1; 16; 2; 3].
Proof.
  eexists. split; [reflexivity|].
  eapply (@BoTBlock_forward_shape Z shape_run_layer example_plus shape_run_layer_follows
           example_plus_adds 8 4 6 16 2 2 4 3 5 true _ (zeros 0%Z [1; 8; 4; 6]) 1 2 3);
    try reflexivity; try lia; right; repeat split.
Defined.

Lemma BoTStack_forward_shape_witness :
  exists self,
    BoTStack_init 8 (4, 6) 16 2 4 3 2 3 5 true Activation = Some self /\
    exists y,
      BoTStack_forward shape_run_layer example_plus self (zeros 0%Z [1; 8; 4; 6])
      = Ran (Some y) /\
      shape y = [1; 16; 2; 3].
Proof.
  eexists. split; [reflexivity|].
  eapply (@BoTStack_forward_shape Z shape_run_layer example_plus shape_run_layer_follows
           example_plus_adds 8 4 6 16 2 4 2 2 3 5 true _ (zeros 0%Z [1; 8; 4; 6]) 1 2 3);
    try reflexivity; try lia; right; repeat split.
Defined.
